(** * TiProxy: traffic replay and backend metrics reader

    A shallow embedding of
      - [pkg/sqlreplay/capture/filter.go]   (sensitive statement filter),
      - [pkg/sqlreplay/replay/replay.go]    (replay engine),
      - [pkg/balance/metricsreader/backend_reader.go] (backend metrics reader)
    together with the properties stated about them in the specification. *)

From Stdlib Require Import ZArith List Bool Lia Ascii String Sorted SpecFloat.
From stdpp Require Import gmap strings list fin_maps.

Local Open Scope Z_scope.

(* ===================================================================== *)
(** * Go's [float64]                                                       *)
(* ===================================================================== *)

(** IEEE 754 binary64 values, as the executable specification of the
    standard library: 53 bits of mantissa, infinities at exponent 1024. *)
Module F64.

Definition prec : Z := 53.
Definition emax : Z := 1024.

Definition float64 : Type := spec_float.

Definition NaN : float64 := S754_nan.

(** [float64(n)] for an integer [n]: round to nearest, ties to even. *)
Definition of_Z (n : Z) : float64 := binary_normalize prec emax n 0 false.

Definition zero : float64 := of_Z 0.
Definition one : float64 := of_Z 1.

(** [x / y] *)
Definition div (x y : float64) : float64 := SFdiv prec emax x y.

(** [x == y], [x < y], [x > y]; all false when an operand is NaN. *)
Definition eqb (x y : float64) : bool := SFeqb x y.
Definition ltb (x y : float64) : bool := SFltb x y.
Definition gtb (x y : float64) : bool := SFltb y x.

Definition is_finite (x : float64) : bool :=
  match x with
  | S754_finite _ _ _ => true
  | _ => false
  end.

Definition minInt64 : Z := - 2 ^ 63.
Definition maxInt64 : Z := 2 ^ 63 - 1.

(** [int64(f)]: the fraction is discarded (truncation towards zero).  When
    the value does not fit in an [int64] (or is NaN or infinite) the Go
    specification leaves the result to the implementation; that value is
    the parameter [undef]. *)
Definition to_int64 (undef : Z) (f : float64) : Z :=
  match f with
  | S754_zero _ => 0
  | S754_finite s m e =>
      let mag := if 0 <=? e then Z.shiftl (Zpos m) e
                 else Z.shiftr (Zpos m) (- e) in
      let v := if s then - mag else mag in
      if (minInt64 <=? v) && (v <=? maxInt64) then v else undef
  | S754_infinity _ | S754_nan => undef
  end.

End F64.

(* ===================================================================== *)
(** * The keyword lexer, [pkg/util/lex]                                    *)
(* ===================================================================== *)

(** What [IsSensitiveSQL] needs from a lexer: [NewLexer] and [NextToken].
    A lexer value is the state of the scan; [NextToken] returns the token
    and the advanced lexer. *)
Class Lexer (L : Type) := {
  NewLexer : string -> L;
  NextToken : L -> string * L
}.

Module Lex.

Definition isSpace (c : ascii) : bool :=
  let n := nat_of_ascii c in
  ((n =? 32) || (n =? 9) || (n =? 10) || (n =? 13) || (n =? 11) || (n =? 12))%nat.

Definition isLetter (c : ascii) : bool :=
  let n := nat_of_ascii c in
  (((65 <=? n) && (n <=? 90)) || ((97 <=? n) && (n <=? 122)))%nat.

Definition toUpper (c : ascii) : ascii :=
  let n := nat_of_ascii c in
  if ((97 <=? n) && (n <=? 122))%nat then ascii_of_nat (n - 32) else c.

Inductive mode := Code | BlockComment | LineComment.

(** Skip white space, [/* ... */] comments and [-- ...] / [# ...] line
    comments; the result is the rest of the text from the first character
    that belongs to neither. *)
Fixpoint skip (m : mode) (s : string) : string :=
  match s with
  | EmptyString => EmptyString
  | String c r =>
      match m with
      | Code =>
          if isSpace c then skip Code r
          else if Ascii.eqb c "#" then skip LineComment r
          else
            match r with
            | String d r' =>
                if Ascii.eqb c "/" && Ascii.eqb d "*" then skip BlockComment r'
                else if Ascii.eqb c "-" && Ascii.eqb d "-" then skip LineComment r'
                else s
            | EmptyString => s
            end
      | BlockComment =>
          match r with
          | String d r' =>
              if Ascii.eqb c "*" && Ascii.eqb d "/" then skip Code r'
              else skip BlockComment r
          | EmptyString => EmptyString
          end
      | LineComment =>
          if (nat_of_ascii c =? 10)%nat then skip Code r else skip LineComment r
      end
  end.

(** The longest run of letters at the head of [s], in upper case, and the
    text after it. *)
Fixpoint word (s : string) : string * string :=
  match s with
  | EmptyString => (EmptyString, EmptyString)
  | String c r =>
      if isLetter c then
        let (w, rest) := word r in (String (toUpper c) w, rest)
      else (EmptyString, s)
  end.

(** Modelled from the spec: the lexer of the package [pkg/util/lex], which
    [filter.go] imports.  The specification describes it as a minimal lexer
    that tokenizes SQL keywords, skipping white space and comments, with
    case-insensitive matching: a token is the next run of letters, folded
    to upper case, and it is empty when no keyword follows. *)
Definition nextToken (s : string) : string * string := word (skip Code s).

#[global] Instance sqlLexer : Lexer string := {
  NewLexer sql := sql;
  NextToken := nextToken
}.

End Lex.

(* ===================================================================== *)
(** * [pkg/sqlreplay/capture/filter.go]                                    *)
(* ===================================================================== *)

Module Capture.

Definition sensitiveKeywords : list (list string) :=
  [ (* contain passwords *)
    ["CREATE"; "USER"];
    ["ALTER"; "USER"];
    ["SET"; "PASSWORD"];
    ["GRANT"];
    (* contain cloud storage url *)
    ["BACKUP"];
    ["RESTORE"];
    ["IMPORT"];
    (* not supported yet *)
    ["LOAD"; "DATA"] ]%string.

Section Filter.
Context {L : Type} `{Lexer L}.

(** The [for _, kw := range sensitiveKeywords] loop.  [keyword] and
    [lexer] are the loop-carried variables: the assignment
    [keyword = lexer.NextToken()] in one iteration is seen by the
    following ones.  ([kw[0]] of an empty entry would panic; the table
    has none, the case is skipped here.) *)
Fixpoint matchKeywords (kws : list (list string)) (keyword : string) (lexer : L)
  : bool :=
  match kws with
  | [] => false
  | kw :: kws' =>
      match kw with
      | [] => matchKeywords kws' keyword lexer
      | kw0 :: tl =>
          if negb (String.eqb keyword kw0) then matchKeywords kws' keyword lexer
          else
            match tl with
            | [] => true
            | kw1 :: _ =>
                let (keyword', lexer') := NextToken lexer in
                if String.eqb keyword' kw1 then true
                else matchKeywords kws' keyword' lexer'
            end
      end
  end.

Definition IsSensitiveSQL (sql : string) : bool :=
  let lexer := NewLexer sql in
  let (keyword, lexer) := NextToken lexer in
  if (String.length keyword =? 0)%nat then false
  else matchKeywords sensitiveKeywords keyword lexer.

(** The first two tokens of a statement. *)
Definition leadingKeywords (sql : string) : list string :=
  let (k1, lexer) := NextToken (NewLexer sql) in
  let (k2, _) := NextToken lexer in
  [k1; k2].

Fixpoint startsWith (prefix l : list string) : bool :=
  match prefix, l with
  | [], _ => true
  | p :: prefix', x :: l' => String.eqb p x && startsWith prefix' l'
  | _ :: _, [] => false
  end.

(** The specification's reading of the filter: the leading keywords of
    the statement begin with one of the sensitive prefixes. *)
Definition beginsWithSensitivePrefix (sql : string) : bool :=
  existsb (fun kw => startsWith kw (leadingKeywords sql)) sensitiveKeywords.

End Filter.

End Capture.

(* ===================================================================== *)
(** * Go's [time] package                                                  *)
(* ===================================================================== *)

Module Time.

(** [time.Duration]: an [int64] count of nanoseconds. *)
Definition Duration : Type := Z.

Definition minDuration : Duration := - 2 ^ 63.
Definition maxDuration : Duration := 2 ^ 63 - 1.

Definition Nanosecond : Duration := 1.
Definition Microsecond : Duration := 1000 * Nanosecond.
Definition Millisecond : Duration := 1000 * Microsecond.
Definition Second : Duration := 1000 * Millisecond.

(** [int64] arithmetic wraps around. *)
Definition wrap64 (z : Z) : Z := (z + 2 ^ 63) mod 2 ^ 64 - 2 ^ 63.

Definition dadd (a b : Duration) : Duration := wrap64 (a + b).
Definition dsub (a b : Duration) : Duration := wrap64 (a - b).

(** [time.Time] without a location: the instant as nanoseconds since the
    zero [Time], January 1 of year 1, 00:00:00 UTC.  (The 64-bit second
    counter of Go's representation, about 292 billion years, is not
    bounded here.) *)
Definition Time : Type := Z.

Definition zero : Time := 0.

Definition IsZero (t : Time) : bool := t =? 0.

(** [t.Sub(u)]: the difference, saturated to the range of [Duration]. *)
Definition Sub (t u : Time) : Duration :=
  let d := t - u in
  if d <? minDuration then minDuration
  else if maxDuration <? d then maxDuration
  else d.

Definition Add (t : Time) (d : Duration) : Time := t + d.

Definition After (t u : Time) : bool := u <? t.

(** Seconds from year 1 to the Unix epoch. *)
Definition unixToInternal : Z := 62135596800.

Definition Unix (sec nsec : Z) : Time := (sec + unixToInternal) * 10 ^ 9 + nsec.

(** [time.UnixMilli(msec) = Unix(msec/1e3, (msec%1e3)*1e6)], with Go's
    truncated division and remainder. *)
Definition UnixMilli (msec : Z) : Time :=
  Unix (Z.quot msec 1000) (Z.rem msec 1000 * 10 ^ 6).

End Time.

(* ===================================================================== *)
(** * [pkg/proxy/net/command.go]                                           *)
(* ===================================================================== *)

Module Pnet.

(** [type Command byte] and its [iota] constants. *)
Definition Command : Type := N.

Definition ComSleep : Command := 0%N.
Definition ComQuit : Command := 1%N.
Definition ComInitDB : Command := 2%N.
Definition ComQuery : Command := 3%N.
Definition ComFieldList : Command := 4%N.
Definition ComCreateDB : Command := 5%N.
Definition ComDropDB : Command := 6%N.
Definition ComRefresh : Command := 7%N.
Definition ComDeprecated1 : Command := 8%N.
Definition ComStatistics : Command := 9%N.
Definition ComProcessInfo : Command := 10%N.
Definition ComConnect : Command := 11%N.
Definition ComProcessKill : Command := 12%N.
Definition ComDebug : Command := 13%N.
Definition ComPing : Command := 14%N.
Definition ComTime : Command := 15%N.
Definition ComDelayedInsert : Command := 16%N.
Definition ComChangeUser : Command := 17%N.
Definition ComBinlogDump : Command := 18%N.
Definition ComTableDump : Command := 19%N.
Definition ComConnectOut : Command := 20%N.
Definition ComRegisterSlave : Command := 21%N.
Definition ComStmtPrepare : Command := 22%N.
Definition ComStmtExecute : Command := 23%N.
Definition ComStmtSendLongData : Command := 24%N.
Definition ComStmtClose : Command := 25%N.
Definition ComStmtReset : Command := 26%N.
Definition ComSetOption : Command := 27%N.
Definition ComStmtFetch : Command := 28%N.
Definition ComDaemon : Command := 29%N.
Definition ComBinlogDumpGtid : Command := 30%N.
Definition ComResetConnection : Command := 31%N.
Definition ComEnd : Command := 32%N.

(** Ref https://github.com/pingcap/tidb/blob/master/server/metrics/metrics.go#L51. Should be same. *)
Definition commandStrs : list string :=
  [ "Sleep"; "Quit"; "InitDB"; "Query"; "FieldList"; "CreateDB"; "DropDB";
    "Refresh"; "(DEPRECATED)Shutdown"; "Statistics"; "ProcessInfo"; "Connect";
    "ProcessKill"; "Debug"; "Ping"; "Time"; "DelayedInsert"; "ChangeUser";
    "BinlogDump"; "TableDump"; "ConnectOut"; "RegisterSlave"; "StmtPrepare";
    "StmtExecute"; "StmtSendLongData"; "StmtClose"; "StmtReset"; "SetOption";
    "StmtFetch"; "Daemon"; "BinlogDumpGtid"; "ResetConnect" ]%string.

(** A [Command] is a byte. *)
Definition isByte (f : Command) : Prop := (f < 256)%N.

Definition hexDigit (d : N) : ascii :=
  if (d <? 10)%N then ascii_of_N (48 + d) else ascii_of_N (87 + d).

(** [fmt.Sprintf("%x", b)] for a byte [b]: lower case, no padding. *)
Definition hexByte (b : N) : string :=
  if (b <? 16)%N then String (hexDigit b) EmptyString
  else String (hexDigit (b / 16)) (String (hexDigit (b mod 16)) EmptyString).

(** [(f Command) String()] *)
Definition String_ (f : Command) : string :=
  let e := N.to_nat f in
  if (length commandStrs <=? e)%nat then ("Not a command: " ++ hexByte f)%string
  else nth e commandStrs EmptyString.

(** [MarshalText]; its error is always nil. *)
Definition MarshalText (f : Command) : string := String_ f.

(** The loop of [UnmarshalText] over [commandStrs] from index [e] on: the
    value of the receiver afterwards. *)
Fixpoint unmarshalFrom (strs : list string) (e : N) (o : string) (f : Command)
  : Command :=
  match strs with
  | [] => f
  | c :: strs' => if String.eqb c o then e else unmarshalFrom strs' (e + 1)%N o f
  end.

(** [UnmarshalText] on a receiver that holds [f]; its error is always
    nil. *)
Definition UnmarshalText (o : string) (f : Command) : Command :=
  unmarshalFrom commandStrs 0%N o f.

End Pnet.

(* ===================================================================== *)
(** * [pkg/sqlreplay/replay/replay.go]                                     *)
(* ===================================================================== *)

Module Replay.
Import Time.

Definition maxPendingExceptions : Z := 1024.
(** The constants [0.1] and [10.0] at type [float64]. *)
Definition minSpeed : F64.float64 := F64.div (F64.of_Z 1) (F64.of_Z 10).
Definition maxSpeed : F64.float64 := F64.of_Z 10.

Inductive error :=
| errNew (msg : string)      (* errors.New, errors.Errorf *)
| errStat (path : string)    (* what os.Stat returned, with a stack *)
| errEOF                     (* io.EOF *)
| errDecode (msg : string)   (* any other failure of Command.Decode *)
| errReport (msg : string).  (* a failure of report.Start *)

Definition isEOF (e : error) : bool :=
  match e with errEOF => true | _ => false end.

(** [cmd.Command], the fields the engine reads. *)
Record Command := {
  ConnID : N;
  StartTs : Time;
  Type_ : Pnet.Command;
  Payload : string
}.

(** A non-nil [conn.Conn]: the connection made by [conn.NewConn] for a
    connection id with the credentials it logs in with. *)
Record Conn := {
  connID : N;
  username : string;
  password : string
}.

(** A [conn.Conn] interface value; [None] is nil. *)
Definition ConnValue : Type := option Conn.

Definition ConnCreator : Type := N -> ConnValue.

(** [ReplayConfig].  Of the fields kept for tests, [connCreator] is here;
    the command reader and the report are arguments of the functions that
    use them. *)
Record ReplayConfig := {
  Input : string;
  Username : string;
  Password : string;
  Speed : F64.float64;
  connCreator : option ConnCreator
}.

Definition withSpeed (cfg : ReplayConfig) (s : F64.float64) : ReplayConfig :=
  {| Input := Input cfg; Username := Username cfg; Password := Password cfg;
     Speed := s; connCreator := connCreator cfg |}.

(** [os.Stat]: [None] is an error, [Some d] a file info with [IsDir() = d]. *)
Definition FileSystem : Type := string -> option bool.

(** [Validate] has a pointer receiver: it returns the error and the
    configuration as it leaves it. *)
Definition Validate (fs : FileSystem) (cfg : ReplayConfig)
  : option error * ReplayConfig :=
  if String.eqb (Input cfg) "" then (Some (errNew "input is required"), cfg)
  else
    match fs (Input cfg) with
    | None => (Some (errStat (Input cfg)), cfg)
    | Some isDir =>
        if negb isDir then (Some (errNew "output should be a directory"), cfg)
        else if String.eqb (Username cfg) "" then
          (Some (errNew "username is required"), cfg)
        else if F64.eqb (Speed cfg) F64.zero then (None, withSpeed cfg F64.one)
        else if F64.ltb (Speed cfg) minSpeed || F64.gtb (Speed cfg) maxSpeed then
          (Some (errNew "speed should be between 0.100000 and 10.000000"), cfg)
        else (None, cfg)
    end.

(** The [replay] struct.  [cancel] tells whether the cancel function is
    set, [ctxDone] whether the context made by [Start] has been cancelled.
    [uint64] and [int] counters wrap around. *)
Record replay := {
  cfg : ReplayConfig;
  metaCmds : Z;                      (* meta.Cmds, uint64 *)
  conns : gmap N ConnValue;
  cancel : bool;
  ctxDone : bool;
  creator : ConnCreator;             (* r.connCreator *)
  err : option error;
  startTime : Time;
  endTime : Time;
  progress : F64.float64;
  replayedCmds : Z;
  filteredCmds : Z;
  connCount : Z
}.

Definition wrapU64 (z : Z) : Z := z mod 2 ^ 64.

Definition NewReplay : replay :=
  {| cfg := {| Input := ""; Username := ""; Password := ""; Speed := F64.zero;
               connCreator := None |};
     metaCmds := 0; conns := ∅; cancel := false; ctxDone := false;
     creator := fun _ => None; err := None; startTime := zero; endTime := zero;
     progress := F64.zero; replayedCmds := 0; filteredCmds := 0; connCount := 0 |}.

Definition setConns (r : replay) (m : gmap N ConnValue) (n : Z) : replay :=
  {| cfg := cfg r; metaCmds := metaCmds r; conns := m; cancel := cancel r;
     ctxDone := ctxDone r; creator := creator r; err := err r;
     startTime := startTime r; endTime := endTime r; progress := progress r;
     replayedCmds := replayedCmds r; filteredCmds := filteredCmds r;
     connCount := n |}.

Definition setCounters (r : replay) (replayed filtered : Z) : replay :=
  {| cfg := cfg r; metaCmds := metaCmds r; conns := conns r; cancel := cancel r;
     ctxDone := ctxDone r; creator := creator r; err := err r;
     startTime := startTime r; endTime := endTime r; progress := progress r;
     replayedCmds := replayed; filteredCmds := filtered;
     connCount := connCount r |}.

Definition setProgress (r : replay) (p : F64.float64) : replay :=
  {| cfg := cfg r; metaCmds := metaCmds r; conns := conns r; cancel := cancel r;
     ctxDone := ctxDone r; creator := creator r; err := err r;
     startTime := startTime r; endTime := endTime r; progress := p;
     replayedCmds := replayedCmds r; filteredCmds := filteredCmds r;
     connCount := connCount r |}.

(** What the engine does to the outside, in order. *)
Inductive event :=
| EvSpawnPacer                          (* go r.readCommands(ctx) *)
| EvSpawnCloseDrain                     (* go r.readCloseCh(ctx) *)
| EvSleep (at_ : Time) (d : Duration)   (* time.After(d), armed at [at_] *)
| EvDispatch (at_ : Time) (c : Command) (* r.executeCmd(ctx, c) called *)
| EvCreate (id : N) (c : ConnValue)     (* r.connCreator(id) returned c *)
| EvRun (id : N)                        (* go conn.Run(ctx) *)
| EvExecute (c : Conn) (command : Command). (* conn.ExecuteCmd(command) *)

(** The connection [Start] installs when the test hook is not set. *)
Definition defaultCreator (cfg : ReplayConfig) : ConnCreator :=
  fun id => Some {| connID := id; username := Username cfg; password := Password cfg |}.

(** [Start].  [now] is the wall clock, [readMeta] the command count of the
    meta file of the input, [reportStart] the outcome of [report.Start]. *)
Definition Start (fs : FileSystem) (now : Time) (readMeta : Z)
    (reportStart : option error) (cfg0 : ReplayConfig) (r : replay)
  : option error * replay * list event :=
  match Validate fs cfg0 with
  | (Some e, _) => (Some e, r, [])
  | (None, cfg1) =>
      let r1 :=
        {| cfg := cfg1; metaCmds := readMeta; conns := ∅; cancel := true;
           ctxDone := false;
           creator := match connCreator cfg1 with
                      | Some f => f
                      | None => defaultCreator cfg1
                      end;
           err := err r; startTime := now; endTime := zero;
           progress := F64.zero; replayedCmds := replayedCmds r;
           filteredCmds := filteredCmds r; connCount := connCount r |} in
      match reportStart with
      | Some e => (Some e, r1, [])
      | None => (None, r1, [EvSpawnPacer; EvSpawnCloseDrain])
      end
  end.

(** [float64(r.replayedCmds+r.filteredCmds) / float64(r.meta.Cmds)] *)
Definition ratio (r : replay) : F64.float64 :=
  F64.div (F64.of_Z (wrapU64 (replayedCmds r + filteredCmds r)))
          (F64.of_Z (metaCmds r)).

Definition Progress (r : replay) : (F64.float64 * option error) * replay :=
  let r' := if 0 <? metaCmds r then setProgress r (ratio r) else r in
  ((progress r', err r'), r').

Definition Stop (now : Time) (e : option error) (r : replay) : replay :=
  if IsZero (startTime r) then r
  else
    {| cfg := cfg r; metaCmds := metaCmds r; conns := conns r;
       cancel := false;
       ctxDone := if cancel r then true else ctxDone r;
       creator := creator r;
       err := match e with Some _ => e | None => err r end;
       startTime := zero;
       endTime := now;
       progress := match e with
                   | Some _ => if 0 <? metaCmds r then ratio r else progress r
                   | None => F64.one
                   end;
       replayedCmds := replayedCmds r; filteredCmds := filteredCmds r;
       connCount := connCount r |}.

Definition executeCmd (r : replay) (command : Command) : replay * list event :=
  match conns r !! ConnID command with
  | None =>
      let conn := creator r (ConnID command) in
      let r' := setConns r (<[ConnID command := conn]> (conns r))
                         (wrap64 (connCount r + 1)) in
      (r', [EvCreate (ConnID command) conn; EvRun (ConnID command)]
             ++ match conn with
                | Some c => [EvExecute c command]
                | None => []
                end)
  | Some conn =>
      (r, match conn with
          | Some c => [EvExecute c command]
          | None => []
          end)
  end.

(** One value received from [closeCh] in [readCloseCh]. *)
Definition closeConn (r : replay) (c : N) : replay :=
  match conns r !! c with
  | Some (Some _) => setConns r (<[c := None]> (conns r)) (wrap64 (connCount r - 1))
  | _ => r
  end.

(** [readCloseCh] over the values it receives from [closeCh]. *)
Definition readCloseCh (closed : list N) (r : replay) : replay :=
  fold_left closeConn closed r.

(** The local variables of [readCommands] that outlive an iteration. *)
Record pacer := {
  captureStartTs : Time;
  replayStartTs : Time
}.

Definition incFiltered (r : replay) : replay :=
  setCounters r (replayedCmds r) (wrapU64 (filteredCmds r + 1)).

Definition incReplayed (r : replay) : replay :=
  setCounters r (wrapU64 (replayedCmds r + 1)) (filteredCmds r).

Definition list_sum_Z (l : list Z) : Z := fold_right Z.add 0 l.

Definition isChangeUser (c : Command) : bool :=
  N.eqb (Type_ c) Pnet.ComChangeUser.

Section Pacer.
(** The implementation's result for a [float64] that does not fit in a
    [Duration]. *)
Variable undef : Z.
(** The instant at which the context is cancelled from outside, if it
    ever is. *)
Variable cancelAt : option Time.
(** What [Decode] returns once the input is used up. *)
Variable final : error.

(** [ctx.Err() != nil] at the instant [now]. *)
Definition ctxErr (r : replay) (now : Time) : bool :=
  ctxDone r || match cancelAt with Some t => t <=? now | None => false end.

Definition expectedInterval (speed : F64.float64) (captureStart : Time)
    (command : Command) : Duration :=
  let expected := Sub (StartTs command) captureStart in
  if negb (F64.eqb speed F64.one)
  then F64.to_int64 undef (F64.div (F64.of_Z expected) speed)
  else expected.

(** The instant at which [select] over [ctx.Done()] and [time.After(d)]
    returns, entered at [now]. *)
Definition wake (now : Time) (d : Duration) : Time :=
  match cancelAt with
  | Some t => if t <? now + d then Z.max now t else now + d
  | None => now + d
  end.

(** The pacing of one command that is not filtered: the local variables
    afterwards, the instant at which the iteration goes on, and the timer
    it waited for. *)
Definition pace (speed : F64.float64) (p : pacer) (now : Time) (command : Command)
  : pacer * Time * list event :=
  if IsZero (captureStartTs p) then
    (* first command *)
    ({| captureStartTs := StartTs command; replayStartTs := now |}, now, [])
  else
    let expected := expectedInterval speed (captureStartTs p) command in
    let curInterval := Sub now (replayStartTs p) in
    if dadd curInterval Microsecond <? expected then
      let d := dsub expected curInterval in
      (p, wake now d, [EvSleep now d])
    else (p, now, []).

(** The loop of [readCommands].  Each command comes with the time that
    passes while it is decoded; [now] is the clock. *)
Fixpoint readLoop (input : list (Duration * Command)) (p : pacer) (now : Time)
    (r : replay) : replay * list event :=
  if ctxErr r now then (r, [])
  else
    match input with
    | [] => (Stop now (if isEOF final then None else Some final) r, [])
    | (lat, command) :: rest =>
        let now := now + lat in
        if N.eqb (Type_ command) Pnet.ComChangeUser then
          readLoop rest p now (incFiltered r)
        else
          let '(p', now', slept) := pace (Speed (cfg r)) p now command in
          if ctxErr r now' then (r, slept)
          else
            let '(r1, evs) := executeCmd (incReplayed r) command in
            let '(r2, later) := readLoop rest p' now' r1 in
            (r2, slept ++ EvDispatch now' command :: evs ++ later)
    end.

Definition readCommands (input : list (Duration * Command)) (now : Time)
    (r : replay) : replay * list event :=
  readLoop input {| captureStartTs := zero; replayStartTs := zero |} now r.

(** The context has been cancelled from outside at the instant [now]. *)
Definition cancelled (now : Time) : bool :=
  match cancelAt with Some t => t <=? now | None => false end.

(** The pacing algorithm in the words of the specification, for the
    commands after the first paced one [c0], read at [t0]:
    [expected = (ci.StartTs - c0.StartTs) / Speed]; if
    [now() - t0 + 1us < expected], sleep for the deficit or until
    cancellation, which ends the pacing.  The result lists the timers and
    the dispatches. *)
Fixpoint specPacing (speed : F64.float64) (c0 : Command) (t0 : Time)
    (input : list (Duration * Command)) (now : Time) : list event :=
  if cancelled now then []
  else
    match input with
    | [] => []
    | (lat, ci) :: rest =>
        let now := now + lat in
        if isChangeUser ci then specPacing speed c0 t0 rest now
        else
          let expected := expectedInterval speed (StartTs c0) ci in
          let elapsed := Sub now t0 in
          let sleeps := dadd elapsed Microsecond <? expected in
          let deficit := dsub expected elapsed in
          let now' := if sleeps then wake now deficit else now in
          (if sleeps then [EvSleep now deficit] else [])
            ++ (if cancelled now' then []
                else EvDispatch now' ci :: specPacing speed c0 t0 rest now')
    end.

Definition isPacing (e : event) : bool :=
  match e with
  | EvSleep _ _ | EvDispatch _ _ => true
  | _ => false
  end.

End Pacer.

(** The two tasks that take the lock on the connection map, interleaved. *)
Inductive action :=
| ActExec (command : Command)   (* the pacer calls executeCmd *)
| ActClose (id : N).            (* the close-drain task receives id *)

Definition step (r : replay) (a : action) : replay * list event :=
  match a with
  | ActExec command => executeCmd r command
  | ActClose id => (closeConn r id, [])
  end.

Fixpoint run (r : replay) (acts : list action) : replay * list event :=
  match acts with
  | [] => (r, [])
  | a :: acts' =>
      let '(r1, evs) := step r a in
      let '(r2, later) := run r1 acts' in
      (r2, evs ++ later)
  end.

Definition dispatchTimes (evs : list event) : list Time :=
  flat_map (fun e => match e with EvDispatch t _ => [t] | _ => [] end) evs.

Definition created (evs : list event) : list (N * ConnValue) :=
  flat_map (fun e => match e with EvCreate id c => [(id, c)] | _ => [] end) evs.

Definition executed (evs : list event) : list (Conn * Command) :=
  flat_map (fun e => match e with EvExecute c command => [(c, command)] | _ => [] end) evs.

(** The command an event hands over. *)
Definition eventCommand (e : event) : option Command :=
  match e with
  | EvDispatch _ c | EvExecute _ c => Some c
  | _ => None
  end.

(** The event is not about the connection id [id]: it neither creates a
    connection for it, nor starts its worker, nor hands one of its commands
    to a connection. *)
Definition quiet (id : N) (e : event) : Prop :=
  match e with
  | EvCreate i _ | EvRun i => i <> id
  | EvExecute _ c => ConnID c <> id
  | _ => True
  end.

(** Modelled from the spec: the record layout holds the timestamp of a
    command as [int64(StartTsUnixNano)], and [Command.Decode], which is
    not among the sources, makes [StartTs] of it.  The timestamp of a
    command read from a record is therefore a 64-bit count of nanoseconds
    since the Unix epoch. *)
Definition decodedStartTs (c : Command) : Prop :=
  exists nsec, - 2 ^ 63 <= nsec < 2 ^ 63 /\ StartTs c = Unix 0 nsec.

(** [Close], without the wait for the background tasks. *)
Definition Close (now : Time) (r : replay) : replay :=
  Stop now (Some (errNew "shutting down")) r.

(** The commands handed to [executeCmd], in order. *)
Definition dispatched (evs : list event) : list Command :=
  flat_map (fun e => match e with EvDispatch _ c => [c] | _ => [] end) evs.

(** The entries of the connection map that hold a connection. *)
Definition liveConns (m : gmap N ConnValue) : gmap N ConnValue :=
  filter (fun kv => is_Some (snd kv)) m.

(** Every connection of the map, and every one the creator makes, carries
    the id it is stored under. *)
Definition wellKeyed (r : replay) : Prop :=
  (forall id h, conns r !! id = Some (Some h) -> connID h = id)
  /\ (forall id h, creator r id = Some h -> connID h = id).

End Replay.

(* ===================================================================== *)
(** * [pkg/balance/metricsreader/backend_reader.go]                        *)
(* ===================================================================== *)

Module MetricsReader.
Import Time.

(** ** The Prometheus [model] types the reader uses *)

(** [model.SamplePair]; [model.Time] counts milliseconds since the Unix
    epoch in an [int64]. *)
Record SamplePair := {
  Timestamp : Z;
  pValue : F64.float64
}.

(** [model.Metric], a label set; a missing label reads as the empty
    string. *)
Definition Metric : Type := gmap string string.

Definition label (m : Metric) (name : string) : string := default "" (m !! name).

Record Sample := {
  sMetric : Metric;
  sValue : F64.float64;
  sTimestamp : Z
}.

Record SampleStream := {
  ssMetric : Metric;
  ssValues : list SamplePair
}.

Inductive ValueType := ValNone | ValScalar | ValVector | ValMatrix | ValString.

(** A non-nil [model.Value].  A nil interface and a nil slice inside the
    interface, which the reader treats alike, are both [None] of
    [option Value]. *)
Inductive Value :=
| Vector (v : list Sample)
| Matrix (m : list SampleStream)
| Scalar (x : F64.float64) (t : Z)
| StringValue (x : string) (t : Z).

Definition typeOf (v : Value) : ValueType :=
  match v with
  | Vector _ => ValVector
  | Matrix _ => ValMatrix
  | Scalar _ _ => ValScalar
  | StringValue _ _ => ValString
  end.

(** Modelled from the spec: the constant [LabelNameInstance], declared
    outside [backend_reader.go]; the specification names the label
    [instance]. *)
Definition LabelNameInstance : string := "instance".

Definition isNaN (x : F64.float64) : bool :=
  match x with S754_nan => true | _ => false end.

(** ** The reader *)

Record backendHistory := {
  Step1History : list SamplePair;
  Step2History : list SamplePair
}.

Definition noHistory : backendHistory :=
  {| Step1History := []; Step2History := [] |}.

(** [QueryResult], declared outside [backend_reader.go]: the fields are
    the ones the reader and the specification use. *)
Record QueryResult := {
  qValue : option Value;
  UpdateTime : Z;
  Err : option string
}.

Definition emptyResult : QueryResult :=
  {| qValue := None; UpdateTime := 0; Err := None |}.

Section Reader.
(** [dto.MetricFamily], which only the rules' own functions look into. *)
Context {MetricFamily : Type}.

(** [QueryRule], declared outside [backend_reader.go]: the fields are the
    ones the reader and the specification use. *)
Record QueryRule := {
  Names : list string;
  Retention : Duration;
  Metric2Value : gmap string MetricFamily -> F64.float64;
  Range2Value : list SamplePair -> F64.float64;
  ResultType : ValueType
}.

(** The fields under the mutex.  [marshalledHistory] holds the history
    that was marshalled, not its JSON text. *)
Record BackendReader := {
  queryRules : gmap string QueryRule;
  queryResults : gmap string QueryResult;
  history : gmap string (gmap string backendHistory);
  marshalledHistory : option (gmap string (gmap string backendHistory))
}.

Definition NewBackendReader : BackendReader :=
  {| queryRules := ∅; queryResults := ∅; history := ∅; marshalledHistory := None |}.

Definition setHistory (br : BackendReader)
    (h : gmap string (gmap string backendHistory)) : BackendReader :=
  {| queryRules := queryRules br; queryResults := queryResults br;
     history := h; marshalledHistory := marshalledHistory br |}.

Definition setResults (br : BackendReader) (q : gmap string QueryResult)
  : BackendReader :=
  {| queryRules := queryRules br; queryResults := q;
     history := history br; marshalledHistory := marshalledHistory br |}.

Definition AddQueryRule (key : string) (rule : QueryRule) (br : BackendReader)
  : BackendReader :=
  {| queryRules := <[key := rule]> (queryRules br); queryResults := queryResults br;
     history := history br; marshalledHistory := marshalledHistory br |}.

Definition RemoveQueryRule (key : string) (br : BackendReader) : BackendReader :=
  {| queryRules := delete key (queryRules br); queryResults := queryResults br;
     history := history br; marshalledHistory := marshalledHistory br |}.

(** The result and the reader afterwards. *)
Definition GetQueryResult (key : string) (br : BackendReader)
  : QueryResult * BackendReader :=
  (default emptyResult (queryResults br !! key), br).

(** [metric2History], with [now] the scrape instant as a [model.Time].
    The loop over the rules updates [br.history] in place. *)
Definition metric2History (now : Z) (mfs : gmap string MetricFamily)
    (backend : string) (br : BackendReader) : BackendReader :=
  setHistory br
    (map_fold
       (fun ruleKey rule (hist : gmap string (gmap string backendHistory)) =>
          if forallb (fun name => bool_decide (is_Some (mfs !! name))) (Names rule)
          then
            let sampleValue := Metric2Value rule mfs in
            if isNaN sampleValue then hist
            else
              let pair := {| Timestamp := now; pValue := sampleValue |} in
              let ruleHistory := default ∅ (hist !! ruleKey) in
              let hist1 := <[ruleKey := ruleHistory]> hist in
              let beHistory := default noHistory (ruleHistory !! backend) in
              let step1 := Step1History beHistory ++ [pair] in
              let sampleValue2 := Range2Value rule step1 in
              if isNaN sampleValue2 then hist1
              else
                let step2 := Step2History beHistory
                               ++ [{| Timestamp := now; pValue := sampleValue2 |}] in
                <[ruleKey := <[backend := {| Step1History := step1;
                                             Step2History := step2 |}]> ruleHistory]> hist
          else hist)
       (history br) (queryRules br)).

(** [history2Value]: the result of every rule for one backend. *)
Definition history2Value (backend : string) (br : BackendReader)
  : gmap string Value :=
  let labels : Metric := {[ LabelNameInstance := backend ]} in
  map_imap
    (fun ruleKey rule =>
       let ruleHistory := default ∅ (history br !! ruleKey) in
       if (size ruleHistory =? 0)%nat then None
       else
         let beHistory := default noHistory (ruleHistory !! backend) in
         match last (Step2History beHistory) with
         | None => None
         | Some lastPair =>
             match ResultType rule with
             | ValVector =>
                 Some (Vector [{| sMetric := labels; sValue := pValue lastPair;
                                  sTimestamp := Timestamp lastPair |}])
             | ValMatrix =>
                 Some (Matrix [{| ssMetric := labels;
                                  ssValues := Step2History beHistory |}])
             | _ => None
             end
         end)
    (queryRules br).

(** The index of the first element whose instance label is [backend],
    or -1. *)
Fixpoint indexOf {A} (metric : A -> Metric) (backend : string) (l : list A) (i : Z)
  : Z :=
  match l with
  | [] => -1
  | v :: l' =>
      if String.eqb (label (metric v) LabelNameInstance) backend then i
      else indexOf metric backend l' (i + 1)
  end.

(** The body of the loop of [mergeQueryResult] for one rule; [None] is a
    panic (a failed type assertion, or index 0 of an empty value). *)
Definition mergeValue (now : Z) (result : QueryResult) (value : Value)
    (backend : string) : option QueryResult :=
  match qValue result with
  | None => Some {| qValue := Some value; UpdateTime := now; Err := Err result |}
  | Some (Vector vec) =>
      match value with
      | Vector (v0 :: _) =>
          let idx := indexOf sMetric backend vec 0 in
          let vec' := if 0 <=? idx then <[Z.to_nat idx := v0]> vec
                      else vec ++ [v0] in
          Some {| qValue := Some (Vector vec'); UpdateTime := now; Err := Err result |}
      | _ => None
      end
  | Some (Matrix mat) =>
      match value with
      | Matrix (v0 :: _) =>
          let idx := indexOf ssMetric backend mat 0 in
          let mat' := if 0 <=? idx then <[Z.to_nat idx := v0]> mat
                      else mat ++ [v0] in
          Some {| qValue := Some (Matrix mat'); UpdateTime := now; Err := Err result |}
      | _ => None
      end
  | Some other =>
      Some {| qValue := Some other; UpdateTime := now; Err := Err result |}
  end.

(** [mergeQueryResult], with [now] the monotonic clock; [None] when an
    iteration panics. *)
Definition mergeQueryResult (now : Z) (backendValues : gmap string Value)
    (backend : string) (br : BackendReader) : option BackendReader :=
  setResults br <$>
    map_fold
      (fun ruleKey value (acc : option (gmap string QueryResult)) =>
         results ← acc;
         result ← mergeValue now (default emptyResult (results !! ruleKey))
                             value backend;
         Some (<[ruleKey := result]> results))
      (Some (queryResults br)) backendValues.

(** The built-in [copy(dst, src)]: the slice [dst] afterwards. *)
Definition copy {A} (dst src : list A) : list A :=
  let n := Nat.min (length dst) (length src) in
  firstn n src ++ skipn n dst.

(** The [for i := range history] loop of [purgeHistory]: the value of
    [idx] after it, counting from [i]. *)
Fixpoint firstAlive (history : list SamplePair) (retention : Duration) (now : Time)
    (i : Z) : Z :=
  match history with
  | [] => -1
  | sample :: rest =>
      if After (Add (UnixMilli (Timestamp sample)) retention) now then i
      else firstAlive rest retention now (i + 1)
  end.

Definition purgeHistory (history : list SamplePair) (retention : Duration)
    (now : Time) : list SamplePair :=
  let idx := firstAlive history retention now 0 in
  if 0 <? idx then
    let history' := copy history (skipn (Z.to_nat idx) history) in
    firstn (length history - Z.to_nat idx) history'
  else if idx <? 0 then firstn 0 history
  else history.

(** The method [purgeHistory] of the reader. *)
Definition BackendReader_purgeHistory (now : Time) (br : BackendReader)
  : BackendReader :=
  setHistory br
    (map_imap
       (fun id (ruleHistory : gmap string backendHistory) =>
          match queryRules br !! id with
          | None => None  (* the rule is removed *)
          | Some rule =>
              Some (map_imap
                      (fun _ bh =>
                         let s1 := purgeHistory (Step1History bh) (Retention rule) now in
                         let s2 := purgeHistory (Step2History bh) (Retention rule) now in
                         if (length s1 =? 0)%nat && (length s2 =? 0)%nat then None
                         else Some {| Step1History := s1; Step2History := s2 |})
                      ruleHistory)
          end)
       (history br)).

(** [model.Time.After] *)
Definition tsAfter (t o : Z) : bool := o <? t.

(** One of the two [if] statements of [mergeHistory]: the buffer kept
    out of the local one and the one of the owner. *)
Definition mergeStep (local new : list SamplePair) : list SamplePair :=
  match last local with
  | None => new
  | Some l =>
      match last new with
      | Some n => if tsAfter (Timestamp n) (Timestamp l) then new else local
      | None => local
      end
  end.

Definition mergeBackend (local new : backendHistory) : backendHistory :=
  {| Step1History := mergeStep (Step1History local) (Step1History new);
     Step2History := mergeStep (Step2History local) (Step2History new) |}.

(** The inner loop of [mergeHistory], over the backends of one rule. *)
Definition mergeRule (ruleHistory newRuleHistory : gmap string backendHistory)
  : gmap string backendHistory :=
  map_fold
    (fun backend newBackendHistory (acc : gmap string backendHistory) =>
       match acc !! backend with
       | None => <[backend := newBackendHistory]> acc
       | Some bh => <[backend := mergeBackend bh newBackendHistory]> acc
       end)
    ruleHistory newRuleHistory.

Definition mergeHistory (newHistory : gmap string (gmap string backendHistory))
    (br : BackendReader) : BackendReader :=
  setHistory br
    (map_fold
       (fun ruleKey newRuleHistory (acc : gmap string (gmap string backendHistory)) =>
          match acc !! ruleKey with
          | None => <[ruleKey := newRuleHistory]> acc
          | Some ruleHistory => <[ruleKey := mergeRule ruleHistory newRuleHistory]> acc
          end)
       (history br) newHistory).

(** [readFromOwner] once the owner has answered: [resp] is the history
    unmarshalled from the response, [None] for an empty response; [order]
    is the order in which the loop visits the backends of that history;
    [mono] is the monotonic clock. *)
Definition readFromOwner (mono : Z)
    (resp : option (gmap string (gmap string backendHistory))) (order : list string)
    (br : BackendReader) : option BackendReader :=
  match resp with
  | None => Some br
  | Some newHistory =>
      foldl (fun (acc : option BackendReader) backend =>
               br' ← acc;
               mergeQueryResult mono (history2Value backend br') backend br')
            (Some (mergeHistory newHistory br)) order
  end.

(** What [readFromBackends] runs for one backend whose metrics were
    fetched and parsed: [now] is the wall clock in Unix nanoseconds,
    [mono] the monotonic clock. *)
Definition scrapeBackend (now mono : Z) (mfs : gmap string MetricFamily)
    (addr : string) (br : BackendReader) : option BackendReader :=
  let br1 := metric2History (Z.quot now 1000000) mfs addr br in
  mergeQueryResult mono (history2Value addr br1) addr br1.

(** The backends of one tick, one after the other; [None] in place of
    the metrics is a backend whose fetch or parse failed. *)
Fixpoint scrapeBackends (now mono : Z)
    (scraped : list (string * option (gmap string MetricFamily)))
    (br : BackendReader) : option BackendReader :=
  match scraped with
  | [] => Some br
  | (addr, None) :: rest => scrapeBackends now mono rest br
  | (addr, Some mfs) :: rest =>
      br' ← scrapeBackend now mono mfs addr br;
      scrapeBackends now mono rest br'
  end.

(** The instance labels of a result. *)
Definition instances (r : QueryResult) : list string :=
  match qValue r with
  | Some (Vector vec) => map (fun v => label (sMetric v) LabelNameInstance) vec
  | Some (Matrix mat) => map (fun v => label (ssMetric v) LabelNameInstance) mat
  | _ => []
  end.

(** [slices.Index(names, name) < 0] and the [append] it guards. *)
Definition appendNew (names : list string) (name : string) : list string :=
  if bool_decide (name ∈ names) then names else names ++ [name].

(** [collectAllNames]; [visit] is the rules in the order in which the
    [range] over [br.queryRules] visits them. *)
Definition collectAllNames (visit : list QueryRule) : list string :=
  foldl (fun names rule => foldl appendNew names (Names rule)) [] visit.

(** [marshalHistory]: every rule of the history is kept, with the entries
    of the given backends.  ([json.Marshal] is taken to succeed.) *)
Definition marshalHistory (backends : list string) (br : BackendReader)
  : BackendReader :=
  {| queryRules := queryRules br; queryResults := queryResults br;
     history := history br;
     marshalledHistory :=
       Some ((fun ruleHistory : gmap string backendHistory =>
                filter (fun kv => fst kv ∈ backends) ruleHistory) <$> history br) |}.

(** The result and the reader afterwards. *)
Definition GetBackendMetrics (br : BackendReader)
  : option (gmap string (gmap string backendHistory)) * BackendReader :=
  (marshalledHistory br, br).

End Reader.

Arguments QueryRule MetricFamily : clear implicits.
Arguments BackendReader MetricFamily : clear implicits.

(** ** Notions for the statements about the history *)

(** The sample is younger than [retention] at the instant [now]: the test
    of [purgeHistory]. *)
Definition alive (retention : Duration) (now : Time) (sample : SamplePair) : bool :=
  After (Add (UnixMilli (Timestamp sample)) retention) now.

Definition nondecreasing (h : list SamplePair) : Prop :=
  Sorted (fun a b => Timestamp a <= Timestamp b) h.

(** The timestamp of the latest sample of a buffer. *)
Definition latest (buffer : list SamplePair) : option Z :=
  Timestamp <$> last buffer.

(** "Whichever side's latest sample has the larger timestamp", the local
    side on ties; a buffer without samples loses to one that has some. *)
Definition newerBuffer (local new : list SamplePair) : list SamplePair :=
  match latest local, latest new with
  | Some l, Some n => if l <? n then new else local
  | None, Some _ => new
  | _, None => local
  end.

(** The two buffers of an entry end at the same timestamp, or are both
    empty: so it is for the entries [metric2History] writes, which gets a
    sample into both buffers or into none. *)
Definition inStep (bh : backendHistory) : Prop :=
  latest (Step1History bh) = latest (Step2History bh).

(** Every entry of the history has its two buffers in step. *)
Definition allInStep (h : gmap string (gmap string backendHistory)) : Prop :=
  forall ruleKey ruleHistory backend bh,
    h !! ruleKey = Some ruleHistory -> ruleHistory !! backend = Some bh -> inStep bh.

(** The entry of "whichever side's latest sample has the larger
    timestamp", the local side on ties, for entries that are [inStep]. *)
Definition newerSide (local new : backendHistory) : backendHistory :=
  match latest (Step1History local), latest (Step1History new) with
  | Some l, Some n => if l <? n then new else local
  | None, Some _ => new
  | _, None => local
  end.

(** "Replace the entry whose instance label matches this backend, or
    append." *)
Fixpoint replaceOrAppend {A} (metric : A -> Metric) (backend : string) (v0 : A)
    (l : list A) : list A :=
  match l with
  | [] => [v0]
  | v :: l' =>
      if String.eqb (label (metric v) LabelNameInstance) backend then v0 :: l'
      else v :: replaceOrAppend metric backend v0 l'
  end.

(** The backends of a tick whose scrape succeeded. *)
Definition scrapedOK {MetricFamily : Type}
    (scraped : list (string * option (gmap string MetricFamily))) : list string :=
  flat_map (fun x => match snd x with Some _ => [fst x] | None => [] end) scraped.

(** ** The text of the metrics *)

Definition newline : string := String "010" EmptyString.

(** The slice expression [s[n:]]. *)
Definition sliceFrom (n : nat) (s : string) : string :=
  String.substring n (String.length s - n) s.

(** The [for i := range names] loop of [filterMetrics]: some name is a
    prefix of the line. *)
Definition hasNamePrefix (names : list string) (line : string) : bool :=
  existsb (fun name => String.prefix name line) names.

(** The outer loop of [filterMetrics]; every iteration but the last one
    shortens [all], [fuel] bounds their number. *)
Fixpoint filterLoop (fuel : nat) (all : string) (names : list string)
    (buffer : string) : string :=
  match fuel with
  | O => buffer
  | S fuel' =>
      let idx := String.index 0 newline all in
      let line := match idx with
                  | None => all
                  | Some i => String.substring 0 (i + 1) all
                  end in
      let all' := match idx with
                  | None => all
                  | Some i => sliceFrom (i + 1) all
                  end in
      let buffer' := if hasNamePrefix names line then (buffer ++ line)%string
                     else buffer in
      match idx with
      | None => buffer'
      | Some _ => filterLoop fuel' all' names buffer'
      end
  end.

Definition filterMetrics (all : string) (names : list string) : string :=
  filterLoop (S (String.length all)) all names "".

(** The lines of a text, each with the newline that ends it; the last
    piece, which may be empty, is what follows the last newline. *)
Fixpoint lines (s : string) : list string :=
  match s with
  | EmptyString => [EmptyString]
  | String c s' =>
      if Ascii.eqb c "010" then String c EmptyString :: lines s'
      else match lines s' with
           | l :: ls => String c l :: ls
           | [] => [String c EmptyString]
           end
  end.

(** The pieces written one after the other. *)
Definition joinAll (ls : list string) : string :=
  fold_right String.append ""%string ls.

Fixpoint noNewline (s : string) : bool :=
  match s with
  | EmptyString => true
  | String c s' => negb (Ascii.eqb c "010") && noNewline s'
  end.

(** A line with the newline that ends it. *)
Definition fullLine (l : string) : Prop :=
  exists body, noNewline body = true /\ l = (body ++ newline)%string.

(** Lines with their newlines, then a last piece without one. *)
Inductive linesShape : list string -> Prop :=
| shape_last (x : string) : noNewline x = true -> linesShape [x]
| shape_cons (l : string) (ls : list string) :
    fullLine l -> linesShape ls -> linesShape (l :: ls).

(** ** The owners *)

Definition readerOwnerKeyPrefix : string := "/tiproxy/metric_reader".
Definition readerOwnerKeySuffix : string := "owner".

(** The key [initElection] campaigns with for a zone. *)
Definition electionKey (zone : string) : string :=
  if (0 <? String.length zone)%nat
  then (readerOwnerKeyPrefix ++ "/" ++ zone ++ "/" ++ readerOwnerKeySuffix)%string
  else (readerOwnerKeyPrefix ++ "/" ++ readerOwnerKeySuffix)%string.

(** The text has no slash. *)
Fixpoint noSlash (s : string) : bool :=
  match s with
  | EmptyString => true
  | String c s' => negb (Ascii.eqb c "/") && noSlash s'
  end.

(** [mvccpb.KeyValue], the fields [queryAllOwners] reads. *)
Record KeyValue := {
  Key : string;
  kvValue : string;
  CreateRevision : Z
}.

Record ownerInfo := {
  addr : string;
  revision : Z
}.

(** What the first part of the loop body of [queryAllOwners] makes of a
    key: the slice expression panics on a key shorter than the prefix, the
    key is skipped, or it is the key of an owner of [zone], the global owner
    for the empty zone. *)
Inductive keyClass :=
| KeyPanics
| KeySkipped
| KeyOf (zone : string).

Definition classify (fullKey : string) : keyClass :=
  if (String.length fullKey <? String.length readerOwnerKeyPrefix)%nat then KeyPanics
  else
    match sliceFrom (String.length readerOwnerKeyPrefix) fullKey with
    | EmptyString => KeySkipped
    | String c key =>
        if negb (Ascii.eqb c "/") then KeySkipped
        else if String.prefix readerOwnerKeySuffix key then KeyOf ""
        else
          match String.index 0 "/" key with
          | Some endIdx =>
              if (0 <? endIdx)%nat
                 && String.prefix readerOwnerKeySuffix (sliceFrom (endIdx + 1) key)
              then KeyOf (String.substring 0 endIdx key)
              else KeySkipped
          | None => KeySkipped
          end
    end.

(** The loop over the keys: [None] when an iteration panics. *)
Definition ownerMapOf (kvs : list KeyValue) : option (gmap string ownerInfo) :=
  foldl (fun (acc : option (gmap string ownerInfo)) kv =>
           ownerMap ← acc;
           match classify (Key kv) with
           | KeyPanics => None
           | KeySkipped => Some ownerMap
           | KeyOf zone =>
               let info := {| addr := kvValue kv; revision := CreateRevision kv |} in
               match ownerMap !! zone with
               | Some old =>
                   if CreateRevision kv <? revision old
                   then Some (<[zone := info]> ownerMap)
                   else Some ownerMap
               | None => Some (<[zone := info]> ownerMap)
               end
           end)
        (Some ∅) kvs.

(** The owner recorded for a zone is that of a key of the zone with the
    least create revision among the keys [kvs]; no owner is recorded for a
    zone without a key. *)
Definition leastOf (kvs : list KeyValue) (ownerMap : gmap string ownerInfo)
    (zone : string) : Prop :=
  match ownerMap !! zone with
  | Some info =>
      exists kv, In kv kvs /\ classify (Key kv) = KeyOf zone
                 /\ addr info = kvValue kv /\ revision info = CreateRevision kv
                 /\ forall kv', In kv' kvs -> classify (Key kv') = KeyOf zone ->
                                revision info <= CreateRevision kv'
  | None => forall kv, In kv kvs -> classify (Key kv) <> KeyOf zone
  end.

(** The loop over [ownerMap]; [visit] is its entries in the order in which
    the [range] visits them.  The result is [(zones, owners)]. *)
Definition zonesAndOwners (visit : list (string * ownerInfo))
  : list string * list string :=
  foldl (fun '(zones, owners) '(zone, info) =>
           let zones' := if (0 <? String.length zone)%nat
                            && negb (bool_decide (zone ∈ zones))
                         then zones ++ [zone] else zones in
           let owners' := if negb (bool_decide (addr info ∈ owners))
                          then owners ++ [addr info] else owners in
           (zones', owners'))
        ([], []) visit.

(** [slices.Index] *)
Fixpoint slicesIndex (l : list string) (x : string) (i : Z) : Z :=
  match l with
  | [] => -1
  | y :: l' => if String.eqb y x then i else slicesIndex l' x (i + 1)
  end.

(** The zones [ReadMetrics] passes to [readFromBackends] when the reader
    is an owner: the zones of the owners without its own. *)
Definition excludeZonesOf (zones : list string) (zone : string) : list string :=
  let idx := slicesIndex zones zone 0 in
  if 0 <=? idx then take (Z.to_nat idx) zones ++ drop (Z.to_nat idx + 1) zones
  else zones.

(** The owners [ReadMetrics] reads from: all but the reader itself. *)
Definition ownersToRead (owners : list string) (self : string) : list string :=
  List.filter (fun owner => negb (String.eqb owner self)) owners.

(** The loop of [getBackendAddrs] over the backends of the topology, each
    given by its location label and its status address. *)
Definition getBackendAddrs (excludeZones : list string)
    (backends : list (string * string)) : list string :=
  flat_map (fun '(zone, address) =>
              if (0 <? length excludeZones)%nat && bool_decide (zone ∈ excludeZones)
              then [] else [address])
           backends.

(** ** Notions for the statements about the reader *)

(** The timestamps of every buffer of the history do not decrease. *)
Definition allSorted (h : gmap string (gmap string backendHistory)) : Prop :=
  forall ruleKey ruleHistory backend bh,
    h !! ruleKey = Some ruleHistory -> ruleHistory !! backend = Some bh ->
    nondecreasing (Step1History bh) /\ nondecreasing (Step2History bh).

(** No sample of the backend is later than [now]. *)
Definition notAfter (now : Z) (backend : string)
    (h : gmap string (gmap string backendHistory)) : Prop :=
  forall ruleKey ruleHistory bh sample,
    h !! ruleKey = Some ruleHistory -> ruleHistory !! backend = Some bh ->
    In sample (Step1History bh ++ Step2History bh) -> Timestamp sample <= now.

(** The body of the loop of [metric2History], as a function of the
    history of the rule. *)
Definition recordRule {MetricFamily : Type} (now : Z)
    (mfs : gmap string MetricFamily) (backend : string)
    (rule : QueryRule MetricFamily) (old : option (gmap string backendHistory))
  : option (gmap string backendHistory) :=
  if forallb (fun name => bool_decide (is_Some (mfs !! name))) (Names rule)
  then
    let sampleValue := Metric2Value rule mfs in
    if isNaN sampleValue then old
    else
      let ruleHistory := default ∅ old in
      let beHistory := default noHistory (ruleHistory !! backend) in
      let step1 := Step1History beHistory
                     ++ [{| Timestamp := now; pValue := sampleValue |}] in
      let sampleValue2 := Range2Value rule step1 in
      if isNaN sampleValue2 then Some ruleHistory
      else
        Some (<[backend := {| Step1History := step1;
                              Step2History := Step2History beHistory
                                ++ [{| Timestamp := now; pValue := sampleValue2 |}] |}]>
                ruleHistory)
  else old.

(** A value [history2Value] makes has one element and the type its rule
    asks for. *)
Definition wellFormedValue {MetricFamily : Type}
    (rules : gmap string (QueryRule MetricFamily))
    (ruleKey : string) (value : Value) : Prop :=
  exists rule, rules !! ruleKey = Some rule
               /\ typeOf value = ResultType rule
               /\ ((exists v0, value = Vector [v0]) \/ (exists v0, value = Matrix [v0])).

(** What the method [purgeHistory] leaves of one entry of a rule with the
    given retention: nothing when both buffers end up empty. *)
Definition purgeEntry (retention : Duration) (now : Time) (bh : backendHistory)
  : option backendHistory :=
  let s1 := purgeHistory (Step1History bh) retention now in
  let s2 := purgeHistory (Step2History bh) retention now in
  if (length s1 =? 0)%nat && (length s2 =? 0)%nat then None
  else Some {| Step1History := s1; Step2History := s2 |}.

(** Every stored result has at most one element per instance. *)
Definition instancesDistinct {MetricFamily : Type} (br : BackendReader MetricFamily)
  : Prop :=
  forall ruleKey result,
    queryResults br !! ruleKey = Some result -> NoDup (instances result).

(** The stored result of every rule is nil or has the type the rule asks
    for. *)
Definition resultsTyped {MetricFamily : Type} (br : BackendReader MetricFamily) : Prop :=
  forall ruleKey rule result value,
    queryRules br !! ruleKey = Some rule ->
    queryResults br !! ruleKey = Some result ->
    qValue result = Some value ->
    typeOf value = ResultType rule.

End MetricsReader.

(** Concrete histories, rules and ticks. *)
Module MetricsScenario.
Import MetricsReader.

Definition sample (t v : Z) : SamplePair :=
  {| Timestamp := t; pValue := F64.of_Z v |}.

(** The follower has, for rule R and backend b1, a first-step buffer that
    ends at 10 and a second-step buffer that ends at 5; the owner sends
    buffers that end at 8 and at 9. *)
Definition localEntry : backendHistory :=
  {| Step1History := [sample 10 1]; Step2History := [sample 5 2] |}.

Definition ownerEntry : backendHistory :=
  {| Step1History := [sample 8 3]; Step2History := [sample 9 4] |}.

Definition follower : BackendReader F64.float64 :=
  setHistory NewBackendReader {[ "R"%string := {[ "b1"%string := localEntry ]} ]}.

Definition fromOwner : gmap string (gmap string backendHistory) :=
  {[ "R"%string := {[ "b1"%string := ownerEntry ]} ]}.

(** Entries whose two buffers go in step, the owner's being the later
    one. *)
Definition localInStep : backendHistory :=
  {| Step1History := [sample 5 1; sample 10 2]; Step2History := [sample 10 3] |}.

Definition ownerInStep : backendHistory :=
  {| Step1History := [sample 10 2; sample 15 4]; Step2History := [sample 15 5] |}.

(** A metric family is taken to be the value of its gauge. *)
Definition gauge (name : string) (mfs : gmap string F64.float64) : F64.float64 :=
  default F64.NaN (mfs !! name).

Definition lastValue (h : list SamplePair) : F64.float64 :=
  match last h with Some p => pValue p | None => F64.NaN end.

Definition ruleR : QueryRule F64.float64 :=
  {| Names := ["A"%string]; Retention := 60 * Time.Second;
     Metric2Value := gauge "A"; Range2Value := lastValue; ResultType := ValVector |}.

Definition owner : BackendReader F64.float64 :=
  AddQueryRule "R" ruleR NewBackendReader.

Definition metrics (v : Z) : gmap string F64.float64 := {[ "A"%string := F64.of_Z v ]}.

(** In the first tick both backends answer; in the second one b1 does
    not. *)
Definition tick1 : list (string * option (gmap string F64.float64)) :=
  [("b1"%string, Some (metrics 5)); ("b2"%string, Some (metrics 6))].

Definition tick2 : list (string * option (gmap string F64.float64)) :=
  [("b1"%string, None); ("b2"%string, Some (metrics 7))].

Definition afterTwoTicks : option (BackendReader F64.float64) :=
  br ← scrapeBackends 1000000000 1 tick1 owner;
  scrapeBackends 16000000000 2 tick2 br.

(** The reader after the first tick, then after the history of the second
    tick has been recorded for b2, then after the result of b2 has been
    merged. *)
Definition afterTick1 : BackendReader F64.float64 :=
  default NewBackendReader (scrapeBackends 1000000000 1 tick1 owner).

Definition beforeMerge : BackendReader F64.float64 :=
  metric2History 16000 (metrics 7) "b2" afterTick1.

Definition afterMerge : BackendReader F64.float64 :=
  default NewBackendReader
    (mergeQueryResult 2 (history2Value "b2" beforeMerge) "b2" beforeMerge).

(** A reader with the rule R that has scraped b2 twice, at 1000 and at
    8000. *)
Definition twoSamples : backendHistory :=
  {| Step1History := [sample 1000 6; sample 8000 6];
     Step2History := [sample 1000 6; sample 8000 6] |}.

Definition scrapedTwice : BackendReader F64.float64 :=
  setHistory owner {[ "R"%string := {[ "b2"%string := twoSamples ]} ]}.

(** The keys of three campaigns: two members of the zone east and one
    member without a zone; and a key of another prefix. *)
Definition ownerKeys : list KeyValue :=
  [ {| Key := "/tiproxy/metric_reader/east/owner/2f"; kvValue := "10.0.0.2:3080";
       CreateRevision := 7 |};
    {| Key := "/tiproxy/metric_reader/east/owner/1a"; kvValue := "10.0.0.1:3080";
       CreateRevision := 5 |};
    {| Key := "/tiproxy/metric_reader/owner/9c"; kvValue := "10.0.0.3:3080";
       CreateRevision := 6 |};
    {| Key := "/tiproxy/metric_reader_v2/owner/77"; kvValue := "10.0.0.4:3080";
       CreateRevision := 1 |} ]%string.

(** The backends of the topology, with their location labels. *)
Definition topology : list (string * string) :=
  [ ("east", "10.1.0.1:10080"); ("west", "10.1.0.2:10080"); ("", "10.1.0.3:10080");
    ("north", "10.1.0.4:10080") ]%string.

End MetricsScenario.

(* ===================================================================== *)
(** * Scenarios                                                            *)
(* ===================================================================== *)

(** Concrete inputs used by the examples and witnesses below. *)
Module Scenario.
Import Replay.

(** A file system whose only entries are the directory [/tmp] and the
    regular file [/etc/hosts]. *)
Definition fs : FileSystem :=
  fun path =>
    if String.eqb path "/tmp" then Some true
    else if String.eqb path "/etc/hosts" then Some false
    else None.

Definition config (speed : F64.float64) : ReplayConfig :=
  {| Input := "/tmp"; Username := "u1"; Password := "p1"; Speed := speed;
     connCreator := None |}.

(** A [ComQuery] captured [ms] milliseconds after the Unix epoch. *)
Definition query (id : N) (ms : Z) : Command :=
  {| ConnID := id; StartTs := Time.Unix 0 (ms * Time.Millisecond);
     Type_ := Pnet.ComQuery; Payload := "select 1" |}.

Definition changeUser (id : N) (ms : Z) : Command :=
  {| ConnID := id; StartTs := Time.Unix 0 (ms * Time.Millisecond);
     Type_ := Pnet.ComChangeUser; Payload := "" |}.

(** A replay started at wall-clock [now] on a meta file that counts
    [cmds] commands. *)
Definition started (speed : F64.float64) (now : Time.Time) (cmds : Z) : replay :=
  snd (fst (Start fs now cmds None (config speed) NewReplay)).

(** The pacing scenario of the specification: records captured at 0 ms,
    100 ms and 300 ms, each decoded in no time. *)
Definition pacedInput : list (Time.Duration * Command) :=
  [(0, query 1 0); (0, query 1 100); (0, query 2 300)].

(** The change-user scenario: one [ComChangeUser], then one [ComQuery] of
    the same connection. *)
Definition changeUserInput : list (Time.Duration * Command) :=
  [(0, changeUser 7 0); (0, query 7 5)].

(** A [ComQuery] whose timestamp is [ms] milliseconds after the zero
    [Time]. *)
Definition ancientQuery (id : N) (ms : Z) : Command :=
  {| ConnID := id; StartTs := Time.Add Time.zero (ms * Time.Millisecond);
     Type_ := Pnet.ComQuery; Payload := "select 1" |}.

Definition ancientInput : list (Time.Duration * Command) :=
  [(0, ancientQuery 1 0); (0, ancientQuery 1 100)].

(** The error of an input that breaks off in the middle of a record. *)
Definition decodeError : error := errDecode "unexpected end of record".

End Scenario.

(* ===================================================================== *)
(** * The specification's wording                                          *)
(* ===================================================================== *)

(** Definitions that follow the text of the specification rather than the
    code, to compare the code with. *)
Module Spec.
Import Replay.

(** [Speed] lies in the interval [[0.1, 10.0]]. *)
Definition speedInRange (s : F64.float64) : bool :=
  SFleb minSpeed s && SFleb s maxSpeed.

(** "[Input] is empty or does not name an existing directory, or
    [Username] is empty, or a nonzero [Speed] lies outside [[0.1, 10.0]]". *)
Definition mustReject (fs : FileSystem) (cfg : ReplayConfig) : bool :=
  String.eqb (Input cfg) ""
  || negb (match fs (Input cfg) with Some true => true | _ => false end)
  || String.eqb (Username cfg) ""
  || (negb (F64.eqb (Speed cfg) F64.zero) && negb (speedInRange (Speed cfg))).

(** "clamped to [[0, 1]]" *)
Definition clamp01 (x : F64.float64) : F64.float64 :=
  if F64.ltb x F64.zero then F64.zero
  else if F64.gtb x F64.one then F64.one
  else x.

End Spec.

(* ===================================================================== *)
(** * Properties of the capture filter                                     *)
(* ===================================================================== *)

Section FilterProperties.
Import Capture.

(** The scenarios of the specification, with the lexer as the
    specification describes it. *)
Lemma IsSensitiveSQL_scenarios :
  IsSensitiveSQL "CREATE USER x IDENTIFIED BY 'p'" = true
  /\ IsSensitiveSQL "SELECT 1" = false
  /\ IsSensitiveSQL "set password for u = 'x'" = true
  /\ IsSensitiveSQL "BACKUP DATABASE d TO 's3://…'" = true
  /\ IsSensitiveSQL "" = false.
Proof. repeat split; reflexivity. Qed.

(** White space and comments before and between the keywords are
    skipped, and the match does not depend on the case. *)
Lemma IsSensitiveSQL_skips_comments :
  IsSensitiveSQL "/* hint */  -- note
    Load   /* x */ data infile 'f'" = true
  /\ IsSensitiveSQL "# grant
    select 1" = false.
Proof. split; reflexivity. Qed.

Section AnyLexer.
Context {L : Type} `{Lexer L}.

Lemma eqb_true_subst (a b : string) : String.eqb a b = true -> a = b.
Proof. apply String.eqb_eq. Qed.

(** One direction of the specification holds for every lexer: a
    statement whose leading keywords begin with a sensitive prefix is
    sensitive. *)
Lemma IsSensitiveSQL_complete (sql : string) :
  beginsWithSensitivePrefix sql = true -> IsSensitiveSQL sql = true.
Proof.
  unfold beginsWithSensitivePrefix, leadingKeywords, IsSensitiveSQL.
  destruct (NextToken (NewLexer sql)) as [k1 lx] eqn:E1.
  destruct (NextToken lx) as [k2 lx2] eqn:E2.
  cbn [existsb sensitiveKeywords startsWith].
  rewrite !andb_true_r.
  intros Hex.
  repeat (apply orb_prop in Hex as [Hex | Hex]);
    try discriminate Hex;
    repeat (apply andb_prop in Hex as [? Hex]);
    repeat match goal with
      | Hq : String.eqb (String _ _) _ = true |- _ =>
          apply eqb_true_subst in Hq; subst
      end;
    cbn; rewrite ?E2; cbn; reflexivity.
Qed.

(** The loop keeps the token it read for a two-word entry: a statement
    whose second keyword opens a later entry is reported sensitive
    whatever the lexer. *)
Lemma IsSensitiveSQL_second_keyword (sql : string) (lx1 lx2 : L) :
  NextToken (NewLexer sql) = ("SET"%string, lx1) ->
  NextToken lx1 = ("BACKUP"%string, lx2) ->
  IsSensitiveSQL sql = true /\ beginsWithSensitivePrefix sql = false.
Proof.
  intros E1 E2.
  unfold IsSensitiveSQL, beginsWithSensitivePrefix, leadingKeywords.
  rewrite E1. cbn. rewrite E2. cbn. split; reflexivity.
Qed.

End AnyLexer.

(** C1.  [IsSensitiveSQL] is not the test "the leading keywords begin
    with a sensitive prefix": the statement [SET backup = 1] begins with
    none of the prefixes, and the filter reports it sensitive, because the
    second token, read while trying [SET PASSWORD], is then compared with
    the first word of the entries that follow.  The same happens for
    [CREATE GRANT OPTION]. *)
Theorem IsSensitiveSQL_over_matches :
  IsSensitiveSQL "SET backup = 1" = true
  /\ leadingKeywords (L := string) "SET backup = 1" = ["SET"; "BACKUP"]%string
  /\ beginsWithSensitivePrefix (L := string) "SET backup = 1" = false
  /\ IsSensitiveSQL "CREATE GRANT OPTION" = true
  /\ beginsWithSensitivePrefix (L := string) "CREATE GRANT OPTION" = false.
Proof. repeat split; reflexivity. Qed.

End FilterProperties.

(* ===================================================================== *)
(** * Properties of the replay configuration                               *)
(* ===================================================================== *)

Section ValidateProperties.
Import Replay.

Variable fs : FileSystem.

(** [Validate] returns an error exactly in these cases; the last one is a
    comparison of floating-point numbers, false for a [Speed] that is not a
    number. *)
Lemma Validate_error_iff (cfg : ReplayConfig) :
  (exists e, fst (Validate fs cfg) = Some e) <->
  Input cfg = ""%string
  \/ fs (Input cfg) <> Some true
  \/ Username cfg = ""%string
  \/ (F64.eqb (Speed cfg) F64.zero = false
      /\ (F64.ltb (Speed cfg) minSpeed = true \/ F64.gtb (Speed cfg) maxSpeed = true)).
Proof.
  unfold Validate.
  destruct (String.eqb_spec (Input cfg) "") as [Hin | Hin].
  { split; [intros _; now left | intros _; eexists; reflexivity]. }
  destruct (fs (Input cfg)) as [[|]|] eqn:Hst; cbn [negb].
  - destruct (String.eqb_spec (Username cfg) "") as [Hu | Hu].
    { split; [intros _; now right; right; left | intros _; eexists; reflexivity]. }
    destruct (F64.eqb (Speed cfg) F64.zero) eqn:Hz.
    { split; [intros [e He]; discriminate He |].
      intros [? | [? | [? | [? _]]]]; congruence. }
    destruct (F64.ltb (Speed cfg) minSpeed) eqn:Hlt; cbn [orb].
    { split; [intros _; right; right; right; split; [reflexivity | now left]
             | intros _; eexists; reflexivity]. }
    destruct (F64.gtb (Speed cfg) maxSpeed) eqn:Hgt.
    { split; [intros _; right; right; right; split; [reflexivity | now right]
             | intros _; eexists; reflexivity]. }
    split; [intros [e He]; discriminate He |].
    intros [? | [? | [? | [_ [? | ?]]]]]; congruence.
  - split; [intros _; right; left; congruence | intros _; eexists; reflexivity].
  - split; [intros _; right; left; congruence | intros _; eexists; reflexivity].
Qed.

(** A [Speed] of zero is replaced by the default 1.0. *)
Lemma Validate_default_speed (cfg : ReplayConfig) :
  Input cfg <> ""%string -> fs (Input cfg) = Some true -> Username cfg <> ""%string ->
  F64.eqb (Speed cfg) F64.zero = true ->
  Validate fs cfg = (None, withSpeed cfg F64.one).
Proof.
  intros Hin Hst Hu Hz. unfold Validate.
  destruct (String.eqb_spec (Input cfg) ""); [contradiction |].
  rewrite Hst. cbn [negb].
  destruct (String.eqb_spec (Username cfg) ""); [contradiction |].
  now rewrite Hz.
Qed.

(** On a validation error [Start] returns that error, leaves the engine as
    it was and starts no task. *)
Lemma Start_validation_error (now : Time.Time) (readMeta : Z)
    (reportStart : option error) (cfg : ReplayConfig) (r : replay) (e : error) :
  fst (Validate fs cfg) = Some e ->
  Start fs now readMeta reportStart cfg r = (Some e, r, []).
Proof.
  intros Hv. unfold Start. destruct (Validate fs cfg) as [[e' |] cfg'].
  - cbn in Hv. now inversion Hv.
  - discriminate Hv.
Qed.

(** Both tasks are started when validation and the report succeed. *)
Lemma Start_spawns (now : Time.Time) (readMeta : Z) (cfg : ReplayConfig) (r : replay) :
  fst (Validate fs cfg) = None ->
  snd (Start fs now readMeta None cfg r) = [EvSpawnPacer; EvSpawnCloseDrain].
Proof.
  intros Hv. unfold Start. destruct (Validate fs cfg) as [[e' |] cfg'].
  - discriminate Hv.
  - reflexivity.
Qed.

Lemma SFcompare_antisym (x y : spec_float) (c : comparison) :
  SFcompare x y = Some c -> SFcompare y x = Some (CompOpp c).
Proof.
  destruct x as [sx | sx | | sx mx ex], y as [sy | sy | | sy my ey]; cbn;
    try discriminate;
    try (destruct sx); try (destruct sy); intros Hc; inversion Hc; subst;
    try reflexivity.
  all: rewrite (Z.compare_antisym ex ey); destruct (ex ?= ey); cbn; try reflexivity.
  all: rewrite (Pos.compare_cont_antisym); cbn; try reflexivity.
  all: now destruct (Pos.compare_cont Eq mx my).
Qed.

Lemma SFcompare_numbers (x y : spec_float) :
  x <> S754_nan -> y <> S754_nan -> exists c, SFcompare x y = Some c.
Proof.
  intros Hx Hy.
  destruct x as [sx | sx | | sx mx ex], y as [sy | sy | | sy my ey];
    try contradiction; cbn; eauto.
Qed.

(** For a [Speed] that is a number, two comparisons of [Validate] test
    that it lies outside the interval. *)
Lemma range_check_matches (s : F64.float64) :
  s <> F64.NaN ->
  negb (Spec.speedInRange s) = F64.ltb s minSpeed || F64.gtb s maxSpeed.
Proof.
  intros Hs. unfold Spec.speedInRange, F64.ltb, F64.gtb, SFleb, SFltb.
  destruct (SFcompare_numbers s minSpeed Hs) as [c1 H1]; [discriminate |].
  destruct (SFcompare_numbers maxSpeed s) as [c2 H2]; [discriminate | exact Hs |].
  rewrite (SFcompare_antisym _ _ _ H2), (SFcompare_antisym _ _ _ H1), H1, H2.
  now destruct c1, c2.
Qed.

(** Except for a [Speed] that is not a number, [Validate] returns an error
    exactly when the specification wants one. *)
Lemma Validate_matches_spec (cfg : ReplayConfig) :
  Speed cfg <> F64.NaN ->
  (Spec.mustReject fs cfg = true <-> exists e, fst (Validate fs cfg) = Some e).
Proof.
  intros Hs. rewrite Validate_error_iff. unfold Spec.mustReject.
  rewrite (range_check_matches _ Hs).
  rewrite !orb_true_iff, andb_true_iff, !negb_true_iff, orb_true_iff.
  rewrite !String.eqb_eq.
  destruct (fs (Input cfg)) as [[|]|]; intuition congruence.
Qed.

End ValidateProperties.

(** C3.  A [Speed] that is not a number is nonzero and outside
    [[0.1, 10.0]], so the specification wants it rejected; [Validate] lets
    it through unchanged, since each of [== 0], [< minSpeed] and
    [> maxSpeed] is false for it, and [Start] starts both tasks. *)
Theorem Validate_accepts_NaN :
  let cfg := Scenario.config F64.NaN in
  Spec.mustReject Scenario.fs cfg = true
  /\ Replay.Validate Scenario.fs cfg = (None, cfg)
  /\ snd (Replay.Start Scenario.fs 1 1 None cfg Replay.NewReplay)
     = [Replay.EvSpawnPacer; Replay.EvSpawnCloseDrain].
Proof. repeat split; reflexivity. Qed.

(* ===================================================================== *)
(** * Properties of the connection map                                     *)
(* ===================================================================== *)

Section ConnectionMap.
Import Replay.

Lemma closeConn_tombstone (r : replay) (id : N) :
  conns r !! id <> None -> conns (closeConn r id) !! id = Some None.
Proof.
  intros Hin. unfold closeConn.
  destruct (conns r !! id) as [[c |] |] eqn:E; cbn.
  - apply lookup_insert_eq.
  - exact E.
  - contradiction.
Qed.

Lemma closeConn_other (r : replay) (id c : N) :
  conns r !! id = Some None -> conns (closeConn r c) !! id = Some None.
Proof.
  intros Hid. unfold closeConn.
  destruct (conns r !! c) as [[h |] |] eqn:E; cbn; try exact Hid.
  destruct (decide (c = id)) as [-> | Hne]; [congruence |].
  now rewrite lookup_insert_ne.
Qed.

Lemma executeCmd_tombstone (r : replay) (command : Command) (id : N) :
  conns r !! id = Some None ->
  conns (fst (executeCmd r command)) !! id = Some None
  /\ Forall (quiet id) (snd (executeCmd r command)).
Proof.
  intros Hid. unfold executeCmd.
  destruct (decide (ConnID command = id)) as [Heq | Hne].
  - rewrite Heq, Hid. cbn. split; [exact Hid | constructor].
  - destruct (conns r !! ConnID command) as [[h |] |] eqn:E; cbn.
    + split; [exact Hid | repeat constructor; exact Hne].
    + split; [exact Hid | constructor].
    + split; [now rewrite lookup_insert_ne |].
      destruct (creator r (ConnID command)); repeat constructor; exact Hne.
Qed.

Lemma step_tombstone (r : replay) (a : action) (id : N) :
  conns r !! id = Some None ->
  conns (fst (step r a)) !! id = Some None /\ Forall (quiet id) (snd (step r a)).
Proof.
  intros Hid. destruct a as [command | c]; cbn [step].
  - now apply executeCmd_tombstone.
  - cbn. split; [now apply closeConn_other | constructor].
Qed.

Lemma run_tombstone (acts : list action) (r : replay) (id : N) :
  conns r !! id = Some None ->
  conns (fst (run r acts)) !! id = Some None /\ Forall (quiet id) (snd (run r acts)).
Proof.
  revert r. induction acts as [| a acts IH]; intros r Hid; cbn [run].
  - cbn. split; [exact Hid | constructor].
  - destruct (step_tombstone r a id Hid) as [H1 H2].
    destruct (step r a) as [r1 evs]. cbn [fst snd] in H1, H2.
    destruct (IH r1 H1) as [H3 H4].
    destruct (run r1 acts) as [r2 later]. cbn [fst snd] in *.
    split; [exact H3 | apply Forall_app; now split].
Qed.

End ConnectionMap.

(** C6.  Once the close-drain task has received the id of a connection that
    is in the map, the map holds a nil entry for it, and whatever commands
    and close events follow, the entry stays nil and nothing is done for
    that id: no connection is created, no worker started, no command handed
    over. *)
Theorem tombstone_rejects_late_commands (r : Replay.replay) (id : N)
    (acts : list Replay.action) :
  Replay.conns r !! id <> None ->
  let r1 := Replay.closeConn r id in
  Replay.conns r1 !! id = Some None
  /\ Replay.conns (fst (Replay.run r1 acts)) !! id = Some None
  /\ Forall (Replay.quiet id) (snd (Replay.run r1 acts)).
Proof.
  intros Hin r1.
  assert (Ht : Replay.conns r1 !! id = Some None) by now apply closeConn_tombstone.
  split; [exact Ht | now apply run_tombstone].
Qed.

Lemma tombstone_rejects_late_commands_witness :
  let r := fst (Replay.executeCmd (Scenario.started F64.one 1 3) (Scenario.query 7 0)) in
  let late := [Replay.ActExec (Scenario.query 7 10); Replay.ActClose 7%N;
               Replay.ActExec (Scenario.query 8 20); Replay.ActExec (Scenario.query 7 30)] in
  Replay.conns r !! 7%N <> None
  /\ Replay.conns (fst (Replay.run (Replay.closeConn r 7%N) late)) !! 7%N = Some None
  /\ Forall (Replay.quiet 7%N) (snd (Replay.run (Replay.closeConn r 7%N) late)).
Proof.
  intros r late.
  assert (Hin : Replay.conns r !! 7%N <> None) by (vm_compute; discriminate).
  split; [exact Hin |].
  exact (proj2 (tombstone_rejects_late_commands r 7%N late Hin)).
Defined.

(* ===================================================================== *)
(** * Properties of the pacer                                              *)
(* ===================================================================== *)

Section PacerProperties.
Import Replay.

Variable undef : Z.
Variable cancelAt : option Time.Time.
Variable final : error.

Lemma readLoop_unfold (input : list (Time.Duration * Command)) (p : pacer)
    (now : Time.Time) (r : replay) :
  readLoop undef cancelAt final input p now r =
  if ctxErr cancelAt r now then (r, [])
  else
    match input with
    | [] => (Stop now (if isEOF final then None else Some final) r, [])
    | (lat, command) :: rest =>
        if isChangeUser command then
          readLoop undef cancelAt final rest p (now + lat) (incFiltered r)
        else
          let '(p', now', slept) := pace undef cancelAt (Speed (cfg r)) p (now + lat) command in
          if ctxErr cancelAt r now' then (r, slept)
          else
            let '(r1, evs) := executeCmd (incReplayed r) command in
            let '(r2, later) := readLoop undef cancelAt final rest p' now' r1 in
            (r2, slept ++ EvDispatch now' command :: evs ++ later)
    end.
Proof. destruct input as [| [lat command] rest]; reflexivity. Qed.

Lemma executeCmd_frame (r : replay) (command : Command) :
  let r' := fst (executeCmd r command) in
  ctxDone r' = ctxDone r /\ cfg r' = cfg r /\ creator r' = creator r
  /\ replayedCmds r' = replayedCmds r /\ filteredCmds r' = filteredCmds r
  /\ metaCmds r' = metaCmds r /\ startTime r' = startTime r /\ err r' = err r.
Proof.
  unfold executeCmd. destruct (conns r !! ConnID command) as [[h |] |];
    cbn; repeat split; reflexivity.
Qed.

Lemma executeCmd_events (r : replay) (command : Command) (e : event) :
  In e (snd (executeCmd r command)) ->
  e = EvCreate (ConnID command) (creator r (ConnID command))
  \/ e = EvRun (ConnID command)
  \/ exists h, e = EvExecute h command.
Proof.
  unfold executeCmd.
  destruct (conns r !! ConnID command) as [[h |] |]; cbn.
  - intros [<- | []]. right; right; now exists h.
  - intros [].
  - destruct (creator r (ConnID command)) as [h |]; cbn.
    + intros [<- | [<- | [<- | []]]]; auto. right; right; now exists h.
    + intros [<- | [<- | []]]; auto.
Qed.

Lemma pace_events (speed : F64.float64) (p : pacer) (now : Time.Time)
    (command : Command) (e : event) :
  In e (snd (pace undef cancelAt speed p now command)) -> exists t d, e = EvSleep t d.
Proof.
  unfold pace. destruct (Time.IsZero (captureStartTs p)); cbn; [intros [] |].
  match goal with |- context [if ?b then _ else _] => destruct b end; cbn.
  - intros [<- | []]. eauto.
  - intros [].
Qed.

Lemma ctxErr_frame (r r' : replay) (now : Time.Time) :
  ctxDone r' = ctxDone r -> ctxErr cancelAt r' now = ctxErr cancelAt r now.
Proof. unfold ctxErr. now intros ->. Qed.

Lemma wrapU64_add_l (a b : Z) : wrapU64 (wrapU64 a + b) = wrapU64 (a + b).
Proof. unfold wrapU64. apply Zplus_mod_idemp_l. Qed.

(** What a run of the loop does with the commands of type [ComChangeUser]
    and with the others. *)
Lemma readLoop_filters (input : list (Time.Duration * Command)) :
  forall (p : pacer) (now : Time.Time) (r r' : replay) (evs : list event),
  readLoop undef cancelAt final input p now r = (r', evs) ->
  (forall e c, In e evs -> eventCommand e = Some c ->
     isChangeUser c = false /\ In c (map snd input))
  /\ (forall id v, In (EvCreate id v) evs ->
        v = creator r id
        /\ exists c, In c (map snd input) /\ isChangeUser c = false /\ ConnID c = id)
  /\ (cancelAt = None -> ctxDone r = false ->
        wrapU64 (filteredCmds r')
        = wrapU64 (filteredCmds r
                   + Z.of_nat (length (List.filter isChangeUser (map snd input))))
        /\ wrapU64 (replayedCmds r')
           = wrapU64 (replayedCmds r
                      + Z.of_nat (length (List.filter (fun c => negb (isChangeUser c))
                                                       (map snd input))))).
Proof.
  induction input as [| [lat command] rest IH]; intros p now r r' evs Hrun;
    rewrite readLoop_unfold in Hrun.
  - assert (Hevs : evs = []) by (destruct (ctxErr cancelAt r now); now inversion Hrun).
    subst evs. split; [intros e c [] | split; [intros id v [] |]].
    intros Hc Hd. unfold ctxErr in Hrun. rewrite Hc, Hd in Hrun. cbn in Hrun.
    inversion Hrun; subst. unfold Stop. cbn [map List.filter length Z.of_nat].
    rewrite !Z.add_0_r.
    destruct (Time.IsZero (startTime r)); split; reflexivity.
  - destruct (ctxErr cancelAt r now) eqn:Hhead.
    { inversion Hrun; subst.
      split; [intros e c [] | split; [intros id v [] |]].
      intros Hc Hd. unfold ctxErr in Hhead. rewrite Hc, Hd in Hhead. discriminate. }
    cbn [map snd List.filter].
    destruct (isChangeUser command) eqn:Hcu; cbn [negb].
    + destruct (IH _ _ _ _ _ Hrun) as (H1 & H2 & H3).
      split; [| split].
      * intros e c He Hc. destruct (H1 e c He Hc). split; [assumption | now right].
      * intros id v Hin. destruct (H2 id v Hin) as (Hv & c & Hc1 & Hc2 & Hc3).
        split; [exact Hv |]. exists c. split; [now right | now split].
      * intros Hc Hd. destruct (H3 Hc Hd) as [Hf Hr].
        split; [| exact Hr].
        rewrite Hf. cbn [incFiltered setCounters filteredCmds length].
        rewrite wrapU64_add_l. f_equal. lia.
    + destruct (pace undef cancelAt (Speed (cfg r)) p (now + lat) command)
        as [[p' now'] slept] eqn:Hpace.
      assert (Hslept : forall e, In e slept -> exists t d, e = EvSleep t d).
      { intros e He. apply (pace_events (Speed (cfg r)) p (now + lat) command).
        now rewrite Hpace. }
      destruct (ctxErr cancelAt r now') eqn:Hmid.
      { inversion Hrun; subst. split; [| split].
        - intros e c He Hc. destruct (Hslept e He) as (t & d & ->). discriminate Hc.
        - intros id v Hin. destruct (Hslept _ Hin) as (t & d & Habs). discriminate Habs.
        - intros Hc Hd. unfold ctxErr in Hmid. rewrite Hc, Hd in Hmid. discriminate. }
      pose proof (executeCmd_frame (incReplayed r) command) as Hframe.
      pose proof (executeCmd_events (incReplayed r) command) as Hex.
      destruct (executeCmd (incReplayed r) command) as [r1 evs1].
      cbn [fst snd] in Hframe, Hex.
      destruct Hframe as (Fd & Fc & Fcr & Frep & Ffil & _).
      destruct (readLoop undef cancelAt final rest p' now' r1) as [r2 later] eqn:Hrest.
      inversion Hrun; subst r' evs. clear Hrun.
      destruct (IH _ _ _ _ _ Hrest) as (H1 & H2 & H3).
      split; [| split].
      * intros e c He Hc. apply in_app_or in He as [He | He].
        { destruct (Hslept e He) as (t & d & ->). discriminate Hc. }
        destruct He as [<- | He].
        { cbn in Hc. inversion Hc; subst. split; [exact Hcu | now left]. }
        apply in_app_or in He as [He | He].
        { destruct (Hex e He) as [-> | [-> | [h ->]]]; try discriminate Hc.
          cbn in Hc. inversion Hc; subst. split; [exact Hcu | now left]. }
        destruct (H1 e c He Hc). split; [assumption | now right].
      * intros id v Hin. apply in_app_or in Hin as [Hin | Hin].
        { destruct (Hslept _ Hin) as (t & d & Habs). discriminate Habs. }
        destruct Hin as [Habs | Hin]; [discriminate Habs |].
        apply in_app_or in Hin as [Hin | Hin].
        { destruct (Hex _ Hin) as [Heq | [Habs | [h Habs]]]; try discriminate Habs.
          inversion Heq; subst. split; [reflexivity |].
          exists command. split; [now left | now split]. }
        destruct (H2 id v Hin) as (Hv & c & Hc1 & Hc2 & Hc3).
        split; [now rewrite Hv, Fcr |]. exists c. split; [now right | now split].
      * intros Hc Hd.
        assert (Hd1 : ctxDone r1 = false) by (rewrite Fd; exact Hd).
        destruct (H3 Hc Hd1) as [Hf Hr]. split.
        { rewrite Hf, Ffil. reflexivity. }
        rewrite Hr, Frep. cbn [incReplayed setCounters replayedCmds length].
        rewrite wrapU64_add_l. f_equal. lia.
Qed.

(** A timestamp read from a 64-bit count of Unix nanoseconds, as in the
    record layout of the specification, is never the zero [Time]. *)
Lemma Unix_nanos_not_zero (nsec : Z) :
  - 2 ^ 63 <= nsec < 2 ^ 63 -> Time.IsZero (Time.Unix 0 nsec) = false.
Proof.
  intros Hn. unfold Time.IsZero, Time.Unix, Time.unixToInternal.
  apply Z.eqb_neq. lia.
Qed.

(** At [Speed = 1] the expected interval is the difference of the captured
    timestamps; no floating-point operation is involved. *)
Lemma expectedInterval_speed_one (captureStart : Time.Time) (command : Command) :
  expectedInterval undef F64.one captureStart command
  = Time.Sub (StartTs command) captureStart.
Proof. reflexivity. Qed.

Lemma executeCmd_not_pacing (r : replay) (command : Command) :
  List.filter isPacing (snd (executeCmd r command)) = [].
Proof.
  unfold executeCmd. destruct (conns r !! ConnID command) as [[h |] |]; cbn;
    try reflexivity.
  destruct (creator r (ConnID command)); reflexivity.
Qed.

(** Once the first command has been paced and its timestamp is not the zero
    [Time], the loop paces every later command against that timestamp and
    the instant the first command was read at. *)
Lemma readLoop_paced (rest : list (Time.Duration * Command)) :
  forall (p : pacer) (now : Time.Time) (r : replay) (c0 : Command),
  Time.IsZero (captureStartTs p) = false ->
  StartTs c0 = captureStartTs p ->
  ctxDone r = false ->
  List.filter isPacing (snd (readLoop undef cancelAt final rest p now r))
  = specPacing undef cancelAt (Speed (cfg r)) c0 (replayStartTs p) rest now.
Proof.
  induction rest as [| [lat command] rest IH]; intros p now r c0 Hnz Hc0 Hd;
    rewrite readLoop_unfold; unfold ctxErr; rewrite Hd; cbn [orb specPacing];
    fold (cancelled cancelAt now); destruct (cancelled cancelAt now); try reflexivity.
  destruct (isChangeUser command) eqn:Hcu.
  { apply (IH p (now + lat) (incFiltered r) c0 Hnz Hc0). exact Hd. }
  unfold pace. rewrite Hnz, Hc0.
  set (expected := expectedInterval undef (Speed (cfg r)) (captureStartTs p) command).
  set (elapsed := Time.Sub (now + lat) (replayStartTs p)).
  pose proof (executeCmd_frame (incReplayed r) command) as Hframe.
  pose proof (executeCmd_not_pacing (incReplayed r) command) as Hquiet.
  destruct (Time.dadd elapsed Time.Microsecond <? expected).
  - fold (cancelled cancelAt (wake cancelAt (now + lat) (Time.dsub expected elapsed))).
    destruct (cancelled cancelAt (wake cancelAt (now + lat) (Time.dsub expected elapsed)));
      [reflexivity |].
    destruct (executeCmd (incReplayed r) command) as [r1 evs1].
    cbn [fst snd] in Hframe, Hquiet. destruct Hframe as (Fd & Fc & _).
    specialize (IH p (wake cancelAt (now + lat) (Time.dsub expected elapsed)) r1 c0
                  Hnz Hc0 (eq_trans Fd Hd)).
    destruct (readLoop undef cancelAt final rest p _ r1) as [r2 later].
    cbn [fst snd] in IH |- *. cbn [app List.filter isPacing].
    rewrite List.filter_app, Hquiet, IH, Fc. reflexivity.
  - fold (cancelled cancelAt (now + lat)).
    destruct (cancelled cancelAt (now + lat)); [reflexivity |].
    destruct (executeCmd (incReplayed r) command) as [r1 evs1].
    cbn [fst snd] in Hframe, Hquiet. destruct Hframe as (Fd & Fc & _).
    specialize (IH p (now + lat) r1 c0 Hnz Hc0 (eq_trans Fd Hd)).
    destruct (readLoop undef cancelAt final rest p _ r1) as [r2 later].
    cbn [fst snd] in IH |- *. cbn [app List.filter isPacing].
    rewrite List.filter_app, Hquiet, IH, Fc. reflexivity.
Qed.

(** The commands of type [ComChangeUser] that come before the first paced
    command only let time pass. *)
Lemma readLoop_skips_prefix (pre : list (Time.Duration * Command)) :
  forall (tail : list (Time.Duration * Command)) (p : pacer) (now : Time.Time)
         (r : replay),
  Forall (fun x => 0 <= fst x /\ isChangeUser (snd x) = true) pre ->
  ctxErr cancelAt r (now + list_sum_Z (map fst pre)) = false ->
  exists r1,
    readLoop undef cancelAt final (pre ++ tail) p now r
    = readLoop undef cancelAt final tail p (now + list_sum_Z (map fst pre)) r1
    /\ ctxDone r1 = ctxDone r /\ cfg r1 = cfg r.
Proof.
  unfold list_sum_Z.
  induction pre as [| [lat command] pre IH]; intros tail p now r Hpre Hctx;
    cbn [map fst fold_right] in *.
  - exists r. rewrite Z.add_0_r. auto.
  - inversion Hpre as [| x l [Hlat Hcu] Hpre']; subst. cbn [fst snd] in Hlat, Hcu.
    assert (Hsum : 0 <= fold_right Z.add 0 (map fst pre)).
    { clear -Hpre'.
      induction Hpre' as [| [l c] pre [Hl _] _ IH]; cbn [map fst fold_right] in *; lia. }
    assert (Hhead : ctxErr cancelAt r now = false).
    { unfold ctxErr in Hctx |- *. apply orb_false_iff in Hctx as [Hd Hc].
      rewrite Hd. cbn [orb]. destruct cancelAt as [t |]; [| reflexivity].
      apply Z.leb_gt in Hc. apply Z.leb_gt. lia. }
    cbn [app]. rewrite readLoop_unfold, Hhead, Hcu.
    rewrite Z.add_assoc in Hctx |- *.
    destruct (IH tail p (now + lat) (incFiltered r) Hpre' Hctx) as (r1 & Heq & Hd1 & Hc1).
    exists r1. rewrite Heq. auto.
Qed.

End PacerProperties.

Lemma readCommands_counts (undef : Z) (final : Replay.error)
    (input : list (Time.Duration * Replay.Command)) (now : Time.Time)
    (r r' : Replay.replay) (evs : list Replay.event) :
  Replay.ctxDone r = false ->
  Replay.readCommands undef None final input now r = (r', evs) ->
  Replay.wrapU64 (Replay.filteredCmds r')
  = Replay.wrapU64
      (Replay.filteredCmds r
       + Z.of_nat (length (List.filter Replay.isChangeUser (map snd input))))
  /\ Replay.wrapU64 (Replay.replayedCmds r')
     = Replay.wrapU64
         (Replay.replayedCmds r
          + Z.of_nat (length (List.filter (fun c => negb (Replay.isChangeUser c))
                                          (map snd input)))).
Proof.
  intros Hd Hrun. unfold Replay.readCommands in Hrun.
  destruct (readLoop_filters undef None final input _ _ _ _ _ Hrun) as (_ & _ & Hcount).
  now apply Hcount.
Qed.


(** The change-user scenario of the specification. *)
Lemma changeUser_scenario :
  let r := Scenario.started F64.one 1 2 in
  let run := Replay.readCommands 0 None Replay.errEOF Scenario.changeUserInput 10 r in
  Replay.filteredCmds (fst run) = 1
  /\ Replay.replayedCmds (fst run) = 1
  /\ Replay.created (snd run)
     = [(7%N, Some {| Replay.connID := 7; Replay.username := "u1";
                      Replay.password := "p1" |})]
  /\ Replay.executed (snd run)
     = [({| Replay.connID := 7; Replay.username := "u1"; Replay.password := "p1" |},
         Scenario.query 7 5)]
  /\ Replay.connCount (fst run) = 1.
Proof. repeat split; vm_compute; reflexivity. Qed.


(** Once the first command that is not filtered, read at [t0], has a
    timestamp other than the zero [Time], the pacer dispatches it at [t0]
    and paces every later command against it. *)
Lemma readCommands_paces_after_first (undef : Z) (cancelAt : option Time.Time)
    (final : Replay.error) (pre : list (Time.Duration * Replay.Command))
    (lat : Time.Duration) (c0 : Replay.Command)
    (rest : list (Time.Duration * Replay.Command)) (now : Time.Time)
    (r : Replay.replay) :
  Forall (fun x => 0 <= fst x /\ Replay.isChangeUser (snd x) = true) pre ->
  0 <= lat ->
  Replay.isChangeUser c0 = false ->
  Time.IsZero (Replay.StartTs c0) = false ->
  let t0 := now + Replay.list_sum_Z (map fst pre) + lat in
  Replay.ctxErr cancelAt r t0 = false ->
  List.filter Replay.isPacing
    (snd (Replay.readCommands undef cancelAt final (pre ++ (lat, c0) :: rest) now r))
  = Replay.EvDispatch t0 c0
      :: Replay.specPacing undef cancelAt (Replay.Speed (Replay.cfg r)) c0 t0 rest t0.
Proof.
  intros Hpre Hlat Hcu Hnz t0 Hctx. unfold Replay.readCommands.
  assert (Hctx0 : Replay.ctxErr cancelAt r (now + Replay.list_sum_Z (map fst pre)) = false).
  { unfold Replay.ctxErr in Hctx |- *. apply orb_false_iff in Hctx as [Hd Hc].
    rewrite Hd. cbn [orb]. destruct cancelAt as [t |]; [| reflexivity].
    apply Z.leb_gt in Hc. apply Z.leb_gt. unfold t0 in Hc. lia. }
  destruct (readLoop_skips_prefix undef cancelAt final pre ((lat, c0) :: rest)
              {| Replay.captureStartTs := Time.zero; Replay.replayStartTs := Time.zero |}
              now r Hpre Hctx0) as (r1 & Heq & Hd1 & Hc1).
  rewrite Heq, readLoop_unfold.
  rewrite (ctxErr_frame cancelAt r r1 _ Hd1), Hctx0, Hcu.
  unfold Replay.pace. cbn [Replay.captureStartTs Time.IsZero Time.zero Z.eqb].
  fold t0. rewrite (ctxErr_frame cancelAt r r1 _ Hd1), Hctx.
  pose proof (executeCmd_frame (Replay.incReplayed r1) c0) as Hframe.
  pose proof (executeCmd_not_pacing (Replay.incReplayed r1) c0) as Hquiet.
  destruct (Replay.executeCmd (Replay.incReplayed r1) c0) as [r2 evs].
  cbn [fst snd] in Hframe, Hquiet. destruct Hframe as (Fd & Fc & _).
  assert (Hd2 : Replay.ctxDone r2 = false).
  { rewrite Fd. cbn. rewrite Hd1. unfold Replay.ctxErr in Hctx.
    now apply orb_false_iff in Hctx as [Hd _]. }
  pose proof (readLoop_paced undef cancelAt final rest
                {| Replay.captureStartTs := Replay.StartTs c0; Replay.replayStartTs := t0 |}
                t0 r2 c0 Hnz eq_refl Hd2) as Hpaced.
  destruct (Replay.readLoop undef cancelAt final rest _ t0 r2) as [r3 later].
  cbn [fst snd] in Hpaced |- *. cbn [app List.filter Replay.isPacing].
  rewrite List.filter_app, Hquiet, Hpaced, Fc. cbn [app Replay.incReplayed Replay.setCounters Replay.cfg].
  now rewrite Hc1.
Qed.


(** C2.  Let [c0] be the first command that is not filtered, read from
    its record at [t0]; its timestamp is then a 64-bit count of Unix
    nanoseconds.  If the context is not cancelled by [t0], the pacer
    dispatches [c0] at [t0] without waiting, and for every later command it
    does what the specification says: it computes
    [expected = (ci.StartTs - c0.StartTs) / Speed], sleeps exactly when the
    time since [t0] plus one microsecond is less than [expected], for the
    deficit or until cancellation, and then dispatches the command. *)
Theorem pacing_after_first_command (undef : Z) (cancelAt : option Time.Time)
    (final : Replay.error) (pre : list (Time.Duration * Replay.Command))
    (lat : Time.Duration) (c0 : Replay.Command)
    (rest : list (Time.Duration * Replay.Command)) (now : Time.Time)
    (r : Replay.replay) :
  Forall (fun x => 0 <= fst x /\ Replay.isChangeUser (snd x) = true) pre ->
  0 <= lat ->
  Replay.isChangeUser c0 = false ->
  Replay.decodedStartTs c0 ->
  let t0 := now + Replay.list_sum_Z (map fst pre) + lat in
  Replay.ctxErr cancelAt r t0 = false ->
  List.filter Replay.isPacing
    (snd (Replay.readCommands undef cancelAt final (pre ++ (lat, c0) :: rest) now r))
  = Replay.EvDispatch t0 c0
      :: Replay.specPacing undef cancelAt (Replay.Speed (Replay.cfg r)) c0 t0 rest t0.
Proof.
  intros Hpre Hlat Hcu (nsec & Hrange & Hts) t0 Hctx.
  apply readCommands_paces_after_first; try assumption.
  rewrite Hts. now apply Unix_nanos_not_zero.
Qed.

(** The pacing scenario of the specification: with [Speed = 2], records
    captured at 0 ms, 100 ms and 300 ms are dispatched 0 ms, 50 ms and
    150 ms after the first one is read, here at the instant 777. *)
Lemma pacing_scenario :
  let r := Scenario.started (F64.of_Z 2) 1 3 in
  Replay.dispatchTimes
    (snd (Replay.readCommands 0 None Replay.errEOF Scenario.pacedInput 777 r))
  = [777; 777 + 50 * Time.Millisecond; 777 + 150 * Time.Millisecond].
Proof. vm_compute. reflexivity. Qed.

Lemma pacing_after_first_command_witness :
  let r := Scenario.started (F64.of_Z 2) 1 3 in
  let c0 := Scenario.query 1 0 in
  let rest := [(0, Scenario.query 1 100); (0, Scenario.query 2 300)] in
  List.filter Replay.isPacing
    (snd (Replay.readCommands 0 None Replay.errEOF ([] ++ (0, c0) :: rest) 777 r))
  = [Replay.EvDispatch 777 c0;
     Replay.EvSleep 777 (50 * Time.Millisecond);
     Replay.EvDispatch (777 + 50 * Time.Millisecond) (Scenario.query 1 100);
     Replay.EvSleep (777 + 50 * Time.Millisecond) (100 * Time.Millisecond);
     Replay.EvDispatch (777 + 150 * Time.Millisecond) (Scenario.query 2 300)].
Proof.
  intros r c0 rest.
  assert (Hdecoded : Replay.decodedStartTs c0).
  { exists 0. split; [lia | reflexivity]. }
  pose proof (pacing_after_first_command 0 None Replay.errEOF [] 0 c0 rest 777 r
                (List.Forall_nil _) (Z.le_refl 0) eq_refl Hdecoded eq_refl) as Hpaced.
  etransitivity; [exact Hpaced |]. vm_compute. reflexivity.
Defined.

(** Why the timestamp has to be a decoded one.  The pacer takes the zero
    [Time] in [captureStartTs] to mean that no command has been paced yet.
    No record decodes to that timestamp ([Unix_nanos_not_zero]); for a
    [Command] value that carries it all the same, the next command is
    dispatched at once, like a first one. *)
Lemma pacing_zero_time_sentinel :
  let r := Scenario.started F64.one 1 2 in
  let c0 := Scenario.ancientQuery 1 0 in
  let c1 := Scenario.ancientQuery 1 100 in
  let log := List.filter Replay.isPacing
               (snd (Replay.readCommands 0 None Replay.errEOF Scenario.ancientInput 0 r)) in
  log = [Replay.EvDispatch 0 c0; Replay.EvDispatch 0 c1]
  /\ Replay.expectedInterval 0 (Replay.Speed (Replay.cfg r)) (Replay.StartTs c0) c1
     = 100 * Time.Millisecond
  /\ (Time.dadd (Time.Sub 0 0) Time.Microsecond
        <? Replay.expectedInterval 0 (Replay.Speed (Replay.cfg r)) (Replay.StartTs c0) c1)
     = true
  /\ log <> Replay.EvDispatch 0 c0
              :: Replay.specPacing 0 None (Replay.Speed (Replay.cfg r)) c0 0 [(0, c1)] 0.
Proof. repeat split; vm_compute; congruence. Qed.

(* ===================================================================== *)
(** * Properties of the progress                                           *)
(* ===================================================================== *)

Section ProgressProperties.
Import Replay.

Lemma Progress_ratio (r : replay) :
  0 < metaCmds r ->
  Progress r = ((ratio r, err r), setProgress r (ratio r)).
Proof. intros Hpos. unfold Progress. apply Z.ltb_lt in Hpos. now rewrite Hpos. Qed.

(** With no command count in the meta file, [Progress] returns what [Start]
    or [Stop] stored: 0 after [Start], 1 after [Stop] without an error. *)
Lemma Progress_without_count (r : replay) :
  metaCmds r <= 0 -> Progress r = ((progress r, err r), r).
Proof.
  intros Hle. unfold Progress. destruct (0 <? metaCmds r) eqn:E; [| reflexivity].
  apply Z.ltb_lt in E. lia.
Qed.

Lemma Stop_frame (now : Time.Time) (e : option error) (r : replay) :
  metaCmds (Stop now e r) = metaCmds r
  /\ replayedCmds (Stop now e r) = replayedCmds r
  /\ filteredCmds (Stop now e r) = filteredCmds r.
Proof. unfold Stop. destruct (Time.IsZero (startTime r)); cbn; auto. Qed.

Lemma readLoop_metaCmds (undef : Z) (cancelAt : option Time.Time) (final : error)
    (input : list (Time.Duration * Command)) :
  forall (p : pacer) (now : Time.Time) (r : replay),
  metaCmds (fst (readLoop undef cancelAt final input p now r)) = metaCmds r.
Proof.
  induction input as [| [lat command] rest IH]; intros p now r;
    rewrite readLoop_unfold; destruct (ctxErr cancelAt r now); try reflexivity.
  - cbn [fst]. apply Stop_frame.
  - destruct (isChangeUser command); [now rewrite IH |].
    destruct (pace undef cancelAt (Speed (cfg r)) p (now + lat) command) as [[p' now'] slept].
    destruct (ctxErr cancelAt r now'); [reflexivity |].
    pose proof (executeCmd_frame (incReplayed r) command) as Hframe.
    destruct (executeCmd (incReplayed r) command) as [r1 evs1].
    cbn [fst] in Hframe. destruct Hframe as (_ & _ & _ & _ & _ & Hm & _).
    specialize (IH p' now' r1).
    destruct (readLoop undef cancelAt final rest p' now' r1) as [r2 later].
    cbn [fst] in IH |- *. now rewrite IH, Hm.
Qed.

Lemma length_filter_partition {A} (f : A -> bool) (l : list A) :
  (length (List.filter f l) + length (List.filter (fun x => negb (f x)) l))%nat
  = length l.
Proof.
  induction l as [| x l IH]; [reflexivity |].
  cbn [List.filter]. destruct (f x); cbn [negb length]; lia.
Qed.

Lemma wrapU64_add (a b : Z) : wrapU64 (wrapU64 a + wrapU64 b) = wrapU64 (a + b).
Proof. unfold wrapU64. symmetry. apply Zplus_mod. Qed.

(** A finite number that is not zero, divided by itself, is 1. *)
Lemma div_self (s : bool) (m : positive) (e : Z) :
  F64.div (S754_finite s m e) (S754_finite s m e) = F64.one.
Proof.
  unfold F64.div, F64.prec, F64.emax, SFdiv, SFdiv_core_binary.
  replace (Zdigits2 (Zpos m) + e - (Zdigits2 (Zpos m) + e)) with 0 by lia.
  replace (e - e) with 0 by lia.
  change (Z.min (fexp 53 1024 0) 0) with (-53).
  change (0 - -53) with 53.
  cbv beta iota zeta.
  assert (Hd : Z.div_eucl (Z.shiftl (Z.pos m) 53) (Z.pos m) = (2 ^ 53, 0)).
  { rewrite Z.shiftl_mul_pow2 by lia.
    assert (Hq : (Z.pos m * 2 ^ 53) / Z.pos m = 2 ^ 53)
      by (rewrite Z.mul_comm; apply Z.div_mul; lia).
    assert (Hr : (Z.pos m * 2 ^ 53) mod Z.pos m = 0)
      by (rewrite Z.mul_comm; apply Z.mod_mul; lia).
    unfold Z.div, Z.modulo in Hq, Hr.
    destruct (Z.div_eucl (Z.pos m * 2 ^ 53) (Z.pos m)) as [q r]. now subst. }
  rewrite Hd, xorb_nilpotent.
  assert (Hloc : new_location (Z.pos m) 0 = loc_Exact).
  { unfold new_location, new_location_even, new_location_odd.
    now destruct (Z.even (Z.pos m)). }
  rewrite Hloc. vm_compute. reflexivity.
Qed.

(** When the two counters add up to [meta.Cmds], [Progress] returns 1,
    whatever the state of the replay. *)
Lemma Progress_complete (r : replay) :
  0 < metaCmds r ->
  wrapU64 (replayedCmds r + filteredCmds r) = metaCmds r ->
  F64.is_finite (F64.of_Z (metaCmds r)) = true ->
  fst (Progress r) = (F64.one, err r).
Proof.
  intros Hpos Hsum Hfin. rewrite Progress_ratio by exact Hpos. cbn [fst].
  unfold ratio. rewrite Hsum.
  destruct (F64.of_Z (metaCmds r)) as [| | | s m e]; try discriminate Hfin.
  now rewrite div_self.
Qed.

End ProgressProperties.

(** C5, as amended.  Whenever [meta.Cmds > 0], [Progress] returns
    [float64(replayedCmds + filteredCmds) / float64(meta.Cmds)] as it is:
    after a run of the pacer that was not cancelled and read [k] commands,
    the value is the quotient of the count so far plus [k] by [meta.Cmds],
    whatever ended the run. *)
Theorem Progress_after_run (undef : Z) (final : Replay.error)
    (input : list (Time.Duration * Replay.Command)) (now : Time.Time)
    (r r' : Replay.replay) (evs : list Replay.event) :
  0 < Replay.metaCmds r ->
  Replay.ctxDone r = false ->
  Replay.readCommands undef None final input now r = (r', evs) ->
  fst (fst (Replay.Progress r'))
  = F64.div
      (F64.of_Z (Replay.wrapU64 (Replay.replayedCmds r + Replay.filteredCmds r
                                 + Z.of_nat (length input))))
      (F64.of_Z (Replay.metaCmds r)).
Proof.
  intros Hpos Hd Hrun.
  pose proof (readLoop_metaCmds undef None final input
                {| Replay.captureStartTs := Time.zero; Replay.replayStartTs := Time.zero |}
                now r) as Hmeta.
  destruct (readCommands_counts undef final input now r r' evs Hd Hrun) as [Hf Hr].
  unfold Replay.readCommands in Hrun. rewrite Hrun in Hmeta. cbn [fst] in Hmeta.
  rewrite Progress_ratio by (rewrite Hmeta; exact Hpos).
  cbn [fst]. unfold Replay.ratio. rewrite Hmeta. do 2 f_equal.
  rewrite <- wrapU64_add, Hr, Hf, wrapU64_add.
  f_equal.
  pose proof (length_filter_partition Replay.isChangeUser (map snd input)) as Hlen.
  rewrite length_map in Hlen. lia.
Qed.

Lemma Progress_after_run_witness :
  let r := Scenario.started F64.one 1 1 in
  let run := Replay.readCommands 0 None Replay.errEOF Scenario.pacedInput 777 r in
  0 < Replay.metaCmds r
  /\ Replay.ctxDone r = false
  /\ fst (fst (Replay.Progress (fst run))) = F64.of_Z 3.
Proof.
  intros r run.
  split; [reflexivity | split; [reflexivity |]].
  rewrite (Progress_after_run 0 Replay.errEOF Scenario.pacedInput 777 r (fst run) (snd run)
             eq_refl eq_refl (surjective_pairing run)).
  vm_compute. reflexivity.
Defined.

(** C5, against the claim as stated.  With a meta file that counts one
    command and an input of three, [Progress] returns 3, not the 1 that
    clamping to [[0, 1]] gives.  And with a meta file that counts three, an
    input of three commands that ends with a decoding error leaves
    [Progress] at 1 together with that error: 1 is returned for a replay
    that failed. *)
Lemma Progress_not_clamped_counterexample :
  let short := fst (Replay.readCommands 0 None Replay.errEOF Scenario.pacedInput 777
                      (Scenario.started F64.one 1 1)) in
  let failed := fst (Replay.readCommands 0 None Scenario.decodeError Scenario.pacedInput 777
                       (Scenario.started F64.one 1 3)) in
  fst (Replay.Progress short) = (F64.of_Z 3, None)
  /\ Spec.clamp01 (Replay.ratio short) = F64.one
  /\ fst (fst (Replay.Progress short)) <> Spec.clamp01 (Replay.ratio short)
  /\ fst (Replay.Progress failed) = (F64.one, Some Scenario.decodeError).
Proof. repeat split; vm_compute; congruence. Qed.

(* ===================================================================== *)
(** * Properties of the history                                            *)
(* ===================================================================== *)

Section PurgeProperties.
Import MetricsReader.

Variable retention : Time.Duration.
Variable now : Time.Time.

Local Abbreviation dead := (fun s => alive retention now s = false).
Local Abbreviation fresh := (fun s => alive retention now s = true).

(** [time.UnixMilli] is an affine function of the timestamp. *)
Lemma UnixMilli_affine (msec : Z) :
  Time.UnixMilli msec = msec * 10 ^ 6 + Time.unixToInternal * 10 ^ 9.
Proof.
  unfold Time.UnixMilli, Time.Unix.
  pose proof (Z.quot_rem' msec 1000) as Hqr. lia.
Qed.

Lemma alive_mono (a b : SamplePair) :
  Timestamp a <= Timestamp b -> alive retention now a = true ->
  alive retention now b = true.
Proof.
  unfold alive, Time.After, Time.Add. rewrite !UnixMilli_affine, !Z.ltb_lt. lia.
Qed.

Lemma firstAlive_spec (h : list SamplePair) :
  forall i,
  (firstAlive h retention now i = -1 /\ Forall dead h)
  \/ (exists pre x post,
        h = pre ++ x :: post /\ Forall dead pre /\ alive retention now x = true
        /\ firstAlive h retention now i = i + Z.of_nat (length pre)).
Proof.
  induction h as [| s h IH]; intros i; cbn [firstAlive].
  - left. split; [reflexivity | constructor].
  - fold (alive retention now s). destruct (alive retention now s) eqn:Hs.
    + right. exists [], s, h. cbn. repeat split; [constructor | assumption | lia].
    + destruct (IH (i + 1)) as [[Hidx Hall] | (pre & x & post & -> & Hpre & Hx & Hidx)].
      * left. split; [exact Hidx | now constructor].
      * right. exists (s :: pre), x, post. cbn [app length].
        repeat split; [now constructor | assumption | lia].
Qed.

(** Copying the tail of a slice to its front and cutting the slice to the
    length of the tail leaves the tail. *)
Lemma copy_shrink {A} (l1 l2 : list A) :
  firstn (length (l1 ++ l2) - length l1)
         (copy (l1 ++ l2) (skipn (length l1) (l1 ++ l2))) = l2.
Proof.
  assert (Hskip : skipn (length l1) (l1 ++ l2) = l2).
  { induction l1 as [| a l1 IH]; [reflexivity | exact IH]. }
  rewrite Hskip. unfold copy. rewrite length_app.
  replace (Nat.min (length l1 + length l2) (length l2)) with (length l2) by lia.
  replace (length l1 + length l2 - length l1)%nat with (length l2) by lia.
  rewrite firstn_all. apply take_app_length.
Qed.

Lemma purgeHistory_all_dead (h : list SamplePair) :
  Forall dead h -> purgeHistory h retention now = [].
Proof.
  intros Hall. unfold purgeHistory.
  destruct (firstAlive_spec h 0) as [[-> _] | (pre & x & post & -> & _ & Hx & _)].
  - reflexivity.
  - apply Forall_app in Hall as [_ Hall]. inversion Hall; congruence.
Qed.

Lemma purgeHistory_drops_prefix (pre : list SamplePair) (x : SamplePair)
    (post : list SamplePair) :
  Forall dead pre -> alive retention now x = true ->
  purgeHistory (pre ++ x :: post) retention now = x :: post.
Proof.
  intros Hpre Hx. unfold purgeHistory.
  assert (Hidx : forall i, firstAlive (pre ++ x :: post) retention now i
                           = i + Z.of_nat (length pre)).
  { clear -Hpre Hx.
    induction Hpre as [| s pre Hs _ IH]; intros i; cbn [app firstAlive length].
    - fold (alive retention now x). rewrite Hx. cbn. lia.
    - fold (alive retention now s). rewrite Hs, IH. lia. }
  rewrite Hidx, Z.add_0_l, Nat2Z.id.
  destruct pre as [| s pre]; [reflexivity |].
  replace (0 <? Z.of_nat (length (s :: pre))) with true
    by (symmetry; apply Z.ltb_lt; cbn [length]; lia).
  apply copy_shrink.
Qed.

Lemma purgeHistory_split (h : list SamplePair) :
  exists removed,
    h = removed ++ purgeHistory h retention now
    /\ Forall dead removed
    /\ (purgeHistory h retention now = []
        \/ exists x post, purgeHistory h retention now = x :: post
                          /\ alive retention now x = true).
Proof.
  destruct (firstAlive_spec h 0) as [[_ Hall] | (pre & x & post & -> & Hpre & Hx & _)].
  - exists h. rewrite purgeHistory_all_dead by assumption.
    rewrite app_nil_r. auto.
  - exists pre. rewrite purgeHistory_drops_prefix by assumption.
    repeat split; [assumption |]. right. now exists x, post.
Qed.

Lemma purgeHistory_idempotent (h : list SamplePair) :
  purgeHistory (purgeHistory h retention now) retention now
  = purgeHistory h retention now.
Proof.
  destruct (purgeHistory_split h) as (removed & _ & _ & [-> | (x & post & -> & Hx)]).
  - reflexivity.
  - apply (purgeHistory_drops_prefix [] x post); [constructor | exact Hx].
Qed.

Lemma StronglySorted_app_r {A} (R : A -> A -> Prop) (l1 l2 : list A) :
  StronglySorted R (l1 ++ l2) -> StronglySorted R l2.
Proof.
  induction l1 as [| a l1 IH]; cbn; [trivial |].
  intros Hs. apply IH. now inversion Hs.
Qed.

Lemma nondecreasing_suffix_alive (pre : list SamplePair) (x : SamplePair)
    (post : list SamplePair) :
  nondecreasing (pre ++ x :: post) -> alive retention now x = true ->
  Forall fresh (x :: post).
Proof.
  intros Hs Hx. unfold nondecreasing in Hs.
  apply Sorted_StronglySorted in Hs; [| intros a b c; lia].
  apply StronglySorted_app_r in Hs. inversion Hs as [| a l _ Hall]; subst.
  constructor; [exact Hx |].
  eapply Forall_impl; [exact Hall |].
  intros b Hb. now apply (alive_mono x b).
Qed.

End PurgeProperties.

(** C7.  On a slice with non-decreasing timestamps [purgeHistory] removes a
    prefix whose samples all have [timestamp + retention] not after [now]
    and keeps the rest, in order, whose samples all have it after [now];
    applying it to its result gives the result again. *)
Theorem purgeHistory_exact (h : list MetricsReader.SamplePair)
    (retention : Time.Duration) (now : Time.Time) :
  MetricsReader.nondecreasing h ->
  let kept := MetricsReader.purgeHistory h retention now in
  (exists removed,
     h = removed ++ kept
     /\ Forall (fun s => MetricsReader.alive retention now s = false) removed
     /\ Forall (fun s => MetricsReader.alive retention now s = true) kept)
  /\ MetricsReader.purgeHistory kept retention now = kept.
Proof.
  intros Hsorted kept. split; [| apply purgeHistory_idempotent].
  destruct (purgeHistory_split retention now h)
    as (removed & Hh & Hdead & [Hnil | (x & post & Hkept & Hx)]).
  - exists removed. fold kept in Hh, Hnil. rewrite Hnil in *.
    repeat split; [exact Hh | exact Hdead | constructor].
  - exists removed. fold kept in Hh, Hkept. repeat split; [exact Hh | exact Hdead |].
    rewrite Hkept. apply (nondecreasing_suffix_alive retention now removed x post).
    + now rewrite <- Hkept, <- Hh.
    + exact Hx.
Qed.

Lemma purgeHistory_exact_witness :
  let h := [MetricsScenario.sample 1000 1; MetricsScenario.sample 2000 2;
            MetricsScenario.sample 2000 3; MetricsScenario.sample 4000 4] in
  let retention := 1 * Time.Second in
  let now := Time.Unix 3 0 in
  MetricsReader.nondecreasing h
  /\ MetricsReader.purgeHistory h retention now = [MetricsScenario.sample 4000 4]
  /\ MetricsReader.purgeHistory (MetricsReader.purgeHistory h retention now) retention now
     = MetricsReader.purgeHistory h retention now.
Proof.
  intros h retention now.
  assert (Hs : MetricsReader.nondecreasing h).
  { unfold MetricsReader.nondecreasing, h.
    repeat (constructor; cbn; try lia). }
  split; [exact Hs |]. split; [vm_compute; reflexivity |].
  exact (proj2 (purgeHistory_exact h retention now Hs)).
Defined.

Section MergeProperties.
Import MetricsReader.

(** A loop over a map that sets, for each of its keys, the entry of the
    accumulator under that key. *)
Lemma map_fold_upsert_lookup {A B} (f : string -> B -> gmap string A -> gmap string A)
    (g : string -> B -> option A -> A) :
  (forall key b acc, f key b acc = <[key := g key b (acc !! key)]> acc) ->
  forall (m0 : gmap string A) (m : gmap string B) (k : string),
  map_fold f m0 m !! k
  = match m !! k with
    | Some b => Some (g k b (m0 !! k))
    | None => m0 !! k
    end.
Proof.
  intros Hf m0 m.
  apply (map_fold_weak_ind
           (fun r (m : gmap string B) =>
              forall k, r !! k = match m !! k with
                                 | Some b => Some (g k b (m0 !! k))
                                 | None => m0 !! k
                                 end)).
  - intros k. now rewrite lookup_empty.
  - intros i x m' r Hfresh IH k. rewrite Hf.
    destruct (decide (i = k)) as [-> | Hne].
    + rewrite !lookup_insert_eq. now rewrite IH, Hfresh.
    + rewrite !lookup_insert_ne by done. apply IH.
Qed.

Lemma mergeRule_lookup (ruleHistory newRuleHistory : gmap string backendHistory)
    (backend : string) :
  mergeRule ruleHistory newRuleHistory !! backend
  = match newRuleHistory !! backend with
    | Some n => Some (match ruleHistory !! backend with
                      | Some l => mergeBackend l n
                      | None => n
                      end)
    | None => ruleHistory !! backend
    end.
Proof.
  unfold mergeRule.
  apply (map_fold_upsert_lookup _
           (fun _ n o => match o with Some l => mergeBackend l n | None => n end)).
  intros key b acc. now destruct (acc !! key).
Qed.

Lemma mergeHistory_lookup {MetricFamily : Type}
    (newHistory : gmap string (gmap string backendHistory))
    (br : BackendReader MetricFamily) (ruleKey : string) :
  history (mergeHistory newHistory br) !! ruleKey
  = match newHistory !! ruleKey with
    | Some n => Some (match history br !! ruleKey with
                      | Some l => mergeRule l n
                      | None => n
                      end)
    | None => history br !! ruleKey
    end.
Proof.
  unfold mergeHistory. cbn [history setHistory].
  apply (map_fold_upsert_lookup _
           (fun _ n o => match o with Some l => mergeRule l n | None => n end)).
  intros key b acc. now destruct (acc !! key).
Qed.

(** Each of the two [if] statements keeps the buffer whose latest sample
    is the newer one. *)
Lemma mergeStep_newer (local new : list SamplePair) :
  mergeStep local new = newerBuffer local new.
Proof.
  unfold mergeStep, newerBuffer, latest, tsAfter.
  destruct (last local) as [l |] eqn:Hl; cbn.
  - destruct (last new) as [n |]; reflexivity.
  - destruct (last new) as [n |] eqn:Hn; cbn; [reflexivity |].
    apply last_None in Hl, Hn. now subst.
Qed.

(** The rest of the reader is left alone by the merge. *)
Lemma mergeHistory_frame {MetricFamily : Type}
    (newHistory : gmap string (gmap string backendHistory))
    (br : BackendReader MetricFamily) :
  queryRules (mergeHistory newHistory br) = queryRules br
  /\ queryResults (mergeHistory newHistory br) = queryResults br.
Proof. split; reflexivity. Qed.

Lemma mergeQueryResult_history {MetricFamily : Type} (mono : Z)
    (values : gmap string Value) (backend : string)
    (br br' : BackendReader MetricFamily) :
  mergeQueryResult mono values backend br = Some br' -> history br' = history br.
Proof.
  unfold mergeQueryResult. destruct (map_fold _ _ _) as [res |]; [| discriminate].
  cbn. intros Hm. now inversion Hm.
Qed.

(** On the follower path the history after [readFromOwner] is the merged
    history: updating the results does not touch it. *)
Lemma readFromOwner_history {MetricFamily : Type} (mono : Z)
    (newHistory : gmap string (gmap string backendHistory)) (order : list string)
    (br br' : BackendReader MetricFamily) :
  readFromOwner mono (Some newHistory) order br = Some br' ->
  history br' = history (mergeHistory newHistory br).
Proof.
  unfold readFromOwner. generalize (mergeHistory newHistory br) as br0.
  induction order as [| backend order IH]; intros br0; cbn [foldl].
  - intros Hr. now inversion Hr.
  - cbn [mbind option_bind].
    destruct (mergeQueryResult mono (history2Value backend br0) backend br0)
      as [br1 |] eqn:Hm.
    + intros Hr. rewrite (IH br1 Hr). now apply mergeQueryResult_history in Hm.
    + intros Hr. exfalso. clear -Hr.
      induction order as [| b order IH]; cbn in Hr; [discriminate | auto].
Qed.

Lemma latest_snoc (l : list SamplePair) (x : SamplePair) :
  latest (l ++ [x]) = Some (Timestamp x).
Proof. unfold latest. now rewrite last_snoc. Qed.

(** [metric2History] keeps the two buffers of every entry in step: it adds
    a sample to both or to none. *)
Lemma metric2History_in_step {MetricFamily : Type} (now : Z)
    (mfs : gmap string MetricFamily) (backend : string)
    (br : BackendReader MetricFamily) :
  allInStep (history br) -> allInStep (history (metric2History now mfs backend br)).
Proof.
  intros Hinv. unfold metric2History. cbn [history setHistory].
  apply (map_fold_weak_ind (fun hist _ => allInStep hist)); [exact Hinv |].
  intros ruleKey rule m hist _ IH.
  destruct (forallb _ (Names rule)); [| exact IH].
  destruct (isNaN (Metric2Value rule mfs)); [exact IH |].
  assert (Hrule : forall b bh, default ∅ (hist !! ruleKey) !! b = Some bh -> inStep bh).
  { intros b bh. destruct (hist !! ruleKey) as [rh |] eqn:Hrh; cbn.
    - intros Hb. exact (IH _ _ _ _ Hrh Hb).
    - now rewrite lookup_empty. }
  destruct (isNaN (Range2Value rule _)).
  - intros rk rh b bh Hrk Hb. destruct (decide (ruleKey = rk)) as [<- | Hne].
    + rewrite lookup_insert_eq in Hrk. inversion Hrk; subst. exact (Hrule _ _ Hb).
    + rewrite lookup_insert_ne in Hrk by done. exact (IH _ _ _ _ Hrk Hb).
  - intros rk rh b bh Hrk Hb. destruct (decide (ruleKey = rk)) as [<- | Hne].
    + rewrite lookup_insert_eq in Hrk. inversion Hrk; subst. clear Hrk.
      destruct (decide (backend = b)) as [<- | Hnb].
      * rewrite lookup_insert_eq in Hb. inversion Hb; subst.
        unfold inStep. cbn. now rewrite !latest_snoc.
      * rewrite lookup_insert_ne in Hb by done. exact (Hrule _ _ Hb).
    + rewrite lookup_insert_ne in Hrk by done. exact (IH _ _ _ _ Hrk Hb).
Qed.

End MergeProperties.

Lemma mergeBackend_in_step (l n : MetricsReader.backendHistory) :
  MetricsReader.inStep l -> MetricsReader.inStep n ->
  {| MetricsReader.Step1History :=
       MetricsReader.newerBuffer (MetricsReader.Step1History l)
                                 (MetricsReader.Step1History n);
     MetricsReader.Step2History :=
       MetricsReader.newerBuffer (MetricsReader.Step2History l)
                                 (MetricsReader.Step2History n) |}
  = MetricsReader.newerSide l n.
Proof.
  unfold MetricsReader.inStep, MetricsReader.newerSide, MetricsReader.newerBuffer.
  intros Hl Hn. rewrite <- Hl, <- Hn.
  destruct (MetricsReader.latest (MetricsReader.Step1History l)) as [a |];
    destruct (MetricsReader.latest (MetricsReader.Step1History n)) as [c |];
    try destruct (a <? c); now destruct l, n.
Qed.

(** C8, as amended.  For every rule and backend: an entry that only one
    side has is kept as it is; for an entry that both sides have, each of
    the two buffers is decided on its own, and the merged buffer is the one
    whose latest sample has the larger timestamp, the local one on ties.
    When on each side the two buffers end at the same timestamp, that is
    the whole entry of the side whose latest sample is the newer one. *)
Theorem mergeHistory_per_buffer {MetricFamily : Type}
    (newHistory : gmap string (gmap string MetricsReader.backendHistory))
    (br : MetricsReader.BackendReader MetricFamily) (ruleKey backend : string) :
  let merged := MetricsReader.history (MetricsReader.mergeHistory newHistory br)
                  !! ruleKey ≫= (.!! backend) in
  match MetricsReader.history br !! ruleKey ≫= (.!! backend),
        newHistory !! ruleKey ≫= (.!! backend) with
  | Some l, Some n =>
      merged = Some {| MetricsReader.Step1History :=
                         MetricsReader.newerBuffer (MetricsReader.Step1History l)
                                                   (MetricsReader.Step1History n);
                       MetricsReader.Step2History :=
                         MetricsReader.newerBuffer (MetricsReader.Step2History l)
                                                   (MetricsReader.Step2History n) |}
      /\ (MetricsReader.inStep l -> MetricsReader.inStep n ->
          merged = Some (MetricsReader.newerSide l n))
  | Some l, None => merged = Some l
  | None, Some n => merged = Some n
  | None, None => merged = None
  end.
Proof.
  cbv zeta. rewrite mergeHistory_lookup.
  destruct (newHistory !! ruleKey) as [nr |] eqn:Hn;
    destruct (MetricsReader.history br !! ruleKey) as [lr |] eqn:Hl; cbn [mbind option_bind].
  - rewrite mergeRule_lookup.
    destruct (lr !! backend) as [l |], (nr !! backend) as [n |]; try reflexivity.
    unfold MetricsReader.mergeBackend. rewrite !mergeStep_newer.
    split; [reflexivity |]. intros Hls Hns. now rewrite mergeBackend_in_step.
  - now destruct (nr !! backend).
  - now destruct (lr !! backend).
  - reflexivity.
Qed.

Lemma mergeHistory_per_buffer_witness :
  let local : MetricsReader.BackendReader F64.float64 :=
    MetricsReader.setHistory MetricsReader.NewBackendReader
      {[ "R"%string := {[ "b1"%string := MetricsScenario.localInStep ]} ]} in
  let new : gmap string (gmap string MetricsReader.backendHistory) :=
    {[ "R"%string := {[ "b1"%string := MetricsScenario.ownerInStep ]} ]} in
  MetricsReader.inStep MetricsScenario.localInStep
  /\ MetricsReader.inStep MetricsScenario.ownerInStep
  /\ MetricsReader.history (MetricsReader.mergeHistory new local)
       !! "R"%string ≫= (.!! "b1"%string)
     = Some MetricsScenario.ownerInStep.
Proof.
  intros local new.
  assert (Hl : MetricsReader.inStep MetricsScenario.localInStep) by reflexivity.
  assert (Hn : MetricsReader.inStep MetricsScenario.ownerInStep) by reflexivity.
  split; [exact Hl | split; [exact Hn |]].
  pose proof (mergeHistory_per_buffer new local "R"%string "b1"%string) as Hm.
  cbv zeta in Hm.
  assert (El : MetricsReader.history local !! "R"%string ≫= (.!! "b1"%string)
               = Some MetricsScenario.localInStep) by (vm_compute; reflexivity).
  assert (En : new !! "R"%string ≫= (.!! "b1"%string)
               = Some MetricsScenario.ownerInStep) by (vm_compute; reflexivity).
  rewrite El, En in Hm. destruct Hm as [_ Hside].
  rewrite (Hside Hl Hn). reflexivity.
Defined.

(** C8, against the claim as stated.  The follower's buffers end at 10 and
    at 5, the owner's at 8 and at 9.  The merge keeps the follower's first
    buffer and the owner's second one: the merged history is the history of
    neither side. *)
Lemma mergeHistory_mixes_sides_counterexample :
  let merged := MetricsReader.history
                  (MetricsReader.mergeHistory MetricsScenario.fromOwner
                                              MetricsScenario.follower)
                  !! "R"%string ≫= (.!! "b1"%string) in
  merged = Some {| MetricsReader.Step1History := [MetricsScenario.sample 10 1];
                   MetricsReader.Step2History := [MetricsScenario.sample 9 4] |}
  /\ merged <> Some MetricsScenario.localEntry
  /\ merged <> Some MetricsScenario.ownerEntry.
Proof. repeat split; vm_compute; congruence. Qed.

(* ===================================================================== *)
(** * Properties of the query results                                      *)
(* ===================================================================== *)

(** C10.  [GetQueryResult] always returns a result and leaves the reader
    as it is; for a key without a stored result it is the zero
    [QueryResult]: nil value, zero update time, nil error. *)
Theorem GetQueryResult_total {MetricFamily : Type} (key : string)
    (br : MetricsReader.BackendReader MetricFamily) :
  snd (MetricsReader.GetQueryResult key br) = br
  /\ fst (MetricsReader.GetQueryResult key br)
     = match MetricsReader.queryResults br !! key with
       | Some result => result
       | None => {| MetricsReader.qValue := None; MetricsReader.UpdateTime := 0;
                    MetricsReader.Err := None |}
       end.
Proof.
  unfold MetricsReader.GetQueryResult. cbn [fst snd]. split; [reflexivity |].
  now destruct (MetricsReader.queryResults br !! key).
Qed.

Section ResultProperties.
Import MetricsReader.

Context {MetricFamily : Type}.

(** The search for the index and the two branches that follow it amount to
    "replace the entry whose instance label matches, or append". *)
Lemma indexOf_replaceOrAppend {A} (metric : A -> Metric) (backend : string) (v0 : A)
    (l : list A) :
  forall i, 0 <= i ->
  (indexOf metric backend l i = -1
   /\ replaceOrAppend metric backend v0 l = l ++ [v0])
  \/ (exists k, indexOf metric backend l i = i + Z.of_nat k
                /\ replaceOrAppend metric backend v0 l = <[k := v0]> l).
Proof.
  induction l as [| v l IH]; intros i Hi; cbn [indexOf replaceOrAppend].
  - left. split; reflexivity.
  - destruct (String.eqb (label (metric v) LabelNameInstance) backend).
    + right. exists 0%nat. split; [lia | reflexivity].
    + destruct (IH (i + 1)) as [[Hidx Hrep] | (k & Hidx & Hrep)]; [lia | |].
      * left. split; [exact Hidx | now rewrite Hrep].
      * right. exists (S k). split; [lia | now rewrite Hrep].
Qed.

Lemma merged_slice {A} (metric : A -> Metric) (backend : string) (v0 : A) (l : list A) :
  (if 0 <=? indexOf metric backend l 0
   then <[Z.to_nat (indexOf metric backend l 0) := v0]> l
   else l ++ [v0])
  = replaceOrAppend metric backend v0 l.
Proof.
  destruct (indexOf_replaceOrAppend metric backend v0 l 0) as [[-> ->] | (k & -> & ->)];
    [lia | reflexivity |].
  replace (0 <=? 0 + Z.of_nat k) with true by (symmetry; apply Z.leb_le; lia).
  now rewrite Z.add_0_l, Nat2Z.id.
Qed.

Lemma replaceOrAppend_labels {A} (metric : A -> Metric) (backend : string) (v0 : A)
    (l : list A) (x : string) :
  label (metric v0) LabelNameInstance = backend ->
  In x (map (fun v => label (metric v) LabelNameInstance)
            (replaceOrAppend metric backend v0 l))
  <-> In x (map (fun v => label (metric v) LabelNameInstance) l) \/ x = backend.
Proof.
  intros Hv0. induction l as [| v l IH]; cbn [replaceOrAppend map In].
  - rewrite Hv0. intuition.
  - destruct (String.eqb_spec (label (metric v) LabelNameInstance) backend) as [Heq | Hne];
      cbn [map In].
    + rewrite Hv0, Heq. intuition.
    + rewrite IH. intuition.
Qed.

(** Every value [history2Value] makes for a backend has one element, whose
    instance label is the backend. *)
Lemma history2Value_shape (backend : string) (br : BackendReader MetricFamily)
    (ruleKey : string) (value : Value) :
  history2Value backend br !! ruleKey = Some value ->
  (exists s, value = Vector [s] /\ label (sMetric s) LabelNameInstance = backend)
  \/ (exists ss, value = Matrix [ss] /\ label (ssMetric ss) LabelNameInstance = backend).
Proof.
  unfold history2Value. rewrite map_lookup_imap.
  destruct (queryRules br !! ruleKey) as [rule |]; cbn; [| discriminate].
  destruct (size (default ∅ (history br !! ruleKey)) =? 0)%nat; [discriminate |].
  destruct (last (Step2History _)) as [lastPair |]; [| discriminate].
  destruct (ResultType rule); try discriminate; intros Hv; inversion Hv; subst.
  - left. eexists. split; reflexivity.
  - right. eexists. split; reflexivity.
Qed.

(** What the loop of [mergeQueryResult] leaves under each rule key. *)
Lemma mergeQueryResult_lookup (now : Z) (values : gmap string Value) (backend : string)
    (br br' : BackendReader MetricFamily) :
  mergeQueryResult now values backend br = Some br' ->
  forall k,
  match values !! k with
  | None => queryResults br' !! k = queryResults br !! k
  | Some v =>
      exists result',
        mergeValue now (default emptyResult (queryResults br !! k)) v backend
        = Some result'
        /\ queryResults br' !! k = Some result'
  end.
Proof.
  unfold mergeQueryResult. intros Hm.
  destruct (map_fold _ (Some (queryResults br)) values) as [res |] eqn:Hfold;
    [| discriminate Hm].
  cbn in Hm. inversion Hm; subst br'. cbn [queryResults setResults]. clear Hm.
  revert res Hfold.
  apply (map_fold_weak_ind
           (fun (acc : option (gmap string QueryResult)) (m : gmap string Value) =>
              forall res, acc = Some res ->
              forall k,
              match m !! k with
              | None => res !! k = queryResults br !! k
              | Some v =>
                  exists result',
                    mergeValue now (default emptyResult (queryResults br !! k)) v backend
                    = Some result'
                    /\ res !! k = Some result'
              end)).
  - intros res Hres k. inversion Hres; subst. now rewrite lookup_empty.
  - intros i x m r Hfresh IH res Hres k.
    destruct r as [results |]; [| discriminate Hres]. cbn in Hres.
    destruct (mergeValue now (default emptyResult (results !! i)) x backend)
      as [result |] eqn:Hmv; [| discriminate Hres].
    cbn in Hres. inversion Hres; subst res. clear Hres.
    specialize (IH results eq_refl).
    destruct (decide (i = k)) as [-> | Hne].
    + rewrite !lookup_insert_eq. specialize (IH k). rewrite Hfresh in IH.
      exists result. split; [now rewrite <- IH | reflexivity].
    + rewrite !lookup_insert_ne by done. apply IH.
Qed.

End ResultProperties.

(** C9, as amended.  Merging the values of one backend changes only the
    rules that have a value for it, and there it removes nothing: the
    instance labels of the stored result are afterwards the ones it had
    plus, at most, the backend; when the stored value is nil the new value
    is stored, and when it is a vector or a matrix the element whose
    instance label is the backend is replaced, or the new element is
    appended when there is none. *)
Theorem mergeQueryResult_keeps_instances {MetricFamily : Type} (now : Z)
    (backend : string) (br br' : MetricsReader.BackendReader MetricFamily) :
  MetricsReader.mergeQueryResult now (MetricsReader.history2Value backend br) backend br
  = Some br' ->
  forall ruleKey : string,
  match MetricsReader.history2Value backend br !! ruleKey with
  | None => MetricsReader.queryResults br' !! ruleKey
            = MetricsReader.queryResults br !! ruleKey
  | Some value =>
      exists result',
        MetricsReader.queryResults br' !! ruleKey = Some result'
        /\ let old := default MetricsReader.emptyResult
                              (MetricsReader.queryResults br !! ruleKey) in
           (forall x, In x (MetricsReader.instances old) ->
                      In x (MetricsReader.instances result'))
           /\ (forall x, In x (MetricsReader.instances result') ->
                         In x (MetricsReader.instances old) \/ x = backend)
           /\ match MetricsReader.qValue old, value with
              | None, _ => MetricsReader.qValue result' = Some value
              | Some (MetricsReader.Vector vec), MetricsReader.Vector [v0] =>
                  MetricsReader.qValue result'
                  = Some (MetricsReader.Vector
                            (MetricsReader.replaceOrAppend MetricsReader.sMetric
                               backend v0 vec))
              | Some (MetricsReader.Matrix mat), MetricsReader.Matrix [v0] =>
                  MetricsReader.qValue result'
                  = Some (MetricsReader.Matrix
                            (MetricsReader.replaceOrAppend MetricsReader.ssMetric
                               backend v0 mat))
              | _, _ => True
              end
  end.
Proof.
  intros Hm ruleKey.
  pose proof (mergeQueryResult_lookup now _ backend br br' Hm ruleKey) as Hk.
  destruct (MetricsReader.history2Value backend br !! ruleKey) as [value |] eqn:Hv;
    [| exact Hk].
  destruct Hk as (result' & Hmv & Hres). exists result'. split; [exact Hres |].
  cbv zeta. set (old := default MetricsReader.emptyResult _) in *.
  apply history2Value_shape in Hv.
  unfold MetricsReader.mergeValue in Hmv. unfold MetricsReader.instances.
  destruct Hv as [(s & -> & Hs) | (ss & -> & Hs)];
    destruct (MetricsReader.qValue old) as [[vec | mat | y t | y t] |];
    try discriminate Hmv; inversion Hmv; subst result'; cbn [MetricsReader.qValue];
    try rewrite merged_slice;
    repeat split;
    try (intros x Hx; try rewrite replaceOrAppend_labels in * by exact Hs;
         cbn in *; intuition; right; congruence).
Qed.

Lemma mergeQueryResult_keeps_instances_witness :
  MetricsReader.mergeQueryResult 2
    (MetricsReader.history2Value "b2" MetricsScenario.beforeMerge) "b2"
    MetricsScenario.beforeMerge
  = Some MetricsScenario.afterMerge
  /\ exists result',
       MetricsReader.queryResults MetricsScenario.afterMerge !! "R"%string = Some result'
       /\ In "b1"%string (MetricsReader.instances result')
       /\ In "b2"%string (MetricsReader.instances result').
Proof.
  assert (Hm : MetricsReader.mergeQueryResult 2
                 (MetricsReader.history2Value "b2" MetricsScenario.beforeMerge) "b2"
                 MetricsScenario.beforeMerge
               = Some MetricsScenario.afterMerge) by (vm_compute; reflexivity).
  split; [exact Hm |].
  pose proof (mergeQueryResult_keeps_instances 2 "b2" _ _ Hm "R"%string) as Hk.
  destruct (MetricsReader.history2Value "b2" MetricsScenario.beforeMerge !! "R"%string)
    as [value |] eqn:Hv; [| vm_compute in Hv; discriminate Hv].
  destruct Hk as (result' & Hres & Hkeep & _ & _).
  exists result'. split; [exact Hres |]. split.
  - apply Hkeep. vm_compute. now left.
  - clear -Hres. vm_compute in Hres. inversion Hres. vm_compute. tauto.
Defined.

(** C9, against the claim as stated.  Both backends answer in the first
    tick, only b2 in the second.  After the second tick the result of the
    rule still carries the instance label of b1: its labels are not the
    backends of the last successful scrape. *)
Lemma queryResult_keeps_lost_backend_counterexample :
  exists br,
    MetricsScenario.afterTwoTicks = Some br
    /\ MetricsReader.instances
         (default MetricsReader.emptyResult (MetricsReader.queryResults br !! "R"%string))
       = ["b1"; "b2"]%string
    /\ MetricsReader.scrapedOK MetricsScenario.tick2 = ["b2"%string]
    /\ ~ (forall x,
            In x (MetricsReader.instances
                    (default MetricsReader.emptyResult
                             (MetricsReader.queryResults br !! "R"%string)))
            <-> In x (MetricsReader.scrapedOK MetricsScenario.tick2)).
Proof.
  eexists. split; [vm_compute; reflexivity |].
  split; [vm_compute; reflexivity |]. split; [reflexivity |].
  intros Hall. specialize (Hall "b1"%string).
  assert (Hin : In "b1"%string (MetricsReader.scrapedOK MetricsScenario.tick2)).
  { apply Hall. vm_compute. now left. }
  vm_compute in Hin. destruct Hin as [Habs | []]. discriminate Habs.
Qed.

(* ===================================================================== *)
(** * Further properties of the command names                              *)
(* ===================================================================== *)

Section CommandText.
Import Pnet.

(** No name of the table begins like the text of an unknown command. *)
Lemma unknown_not_in_table (tail : string) (e : N) (f : Command) :
  unmarshalFrom commandStrs e ("Not a command: " ++ tail) f = f.
Proof. reflexivity. Qed.

End CommandText.

(** X1.  The text of a command reads back as the command: for each of the
    32 commands, [UnmarshalText] of what [MarshalText] wrote sets the
    receiver to that command, whatever it held. *)
Theorem Command_text_round_trip (f g : Pnet.Command) :
  (f < Pnet.ComEnd)%N -> Pnet.UnmarshalText (Pnet.MarshalText f) g = f.
Proof.
  intros Hf. unfold Pnet.ComEnd in Hf. unfold Pnet.UnmarshalText, Pnet.MarshalText.
  assert (Hcases : exists n, (n < 32)%nat /\ f = N.of_nat n).
  { exists (N.to_nat f). split; [lia | now rewrite N2Nat.id]. }
  destruct Hcases as (n & Hn & ->).
  do 32 (destruct n as [| n]; [reflexivity |]). lia.
Qed.

Lemma Command_text_round_trip_witness :
  (Pnet.ComChangeUser < Pnet.ComEnd)%N
  /\ Pnet.MarshalText Pnet.ComChangeUser = "ChangeUser"%string
  /\ Pnet.UnmarshalText (Pnet.MarshalText Pnet.ComChangeUser) Pnet.ComSleep
     = Pnet.ComChangeUser.
Proof.
  split; [reflexivity | split; [reflexivity |]].
  exact (Command_text_round_trip Pnet.ComChangeUser Pnet.ComSleep eq_refl).
Defined.

(** X2.  [UnmarshalText] never reports a text it does not know: for a byte
    that is no command, the text [MarshalText] writes ("Not a command: "
    and the byte in hexadecimal) is in no entry of the table, and reading
    it back leaves the receiver as it was. *)
Theorem Command_unknown_text_ignored (f g : Pnet.Command) :
  Pnet.isByte f -> (Pnet.ComEnd <= f)%N ->
  Pnet.MarshalText f = ("Not a command: " ++ Pnet.hexByte f)%string
  /\ Pnet.UnmarshalText (Pnet.MarshalText f) g = g.
Proof.
  intros _ Hf. unfold Pnet.ComEnd in Hf.
  assert (Htext : Pnet.MarshalText f = ("Not a command: " ++ Pnet.hexByte f)%string).
  { unfold Pnet.MarshalText, Pnet.String_.
    replace (length Pnet.commandStrs <=? N.to_nat f)%nat with true; [reflexivity |].
    symmetry. apply Nat.leb_le. cbn [length Pnet.commandStrs]. lia. }
  split; [exact Htext |].
  rewrite Htext. apply unknown_not_in_table.
Qed.

Lemma Command_unknown_text_ignored_witness :
  Pnet.isByte 200%N /\ (Pnet.ComEnd <= 200)%N
  /\ Pnet.MarshalText 200%N = "Not a command: c8"%string
  /\ Pnet.UnmarshalText (Pnet.MarshalText 200%N) Pnet.ComQuery = Pnet.ComQuery.
Proof.
  assert (Hb : Pnet.isByte 200%N) by reflexivity.
  assert (Hf : (Pnet.ComEnd <= 200)%N) by (vm_compute; discriminate).
  split; [exact Hb | split; [exact Hf | split; [reflexivity |]]].
  exact (proj2 (Command_unknown_text_ignored 200%N Pnet.ComQuery Hb Hf)).
Defined.

(* ===================================================================== *)
(** * Further properties of the replay engine                              *)
(* ===================================================================== *)

(** X3.  [Stop] takes effect once: a second [Stop], with whatever error
    and at whatever time, and likewise [Close], leaves the engine as the
    first [Stop] left it, so the first error and the first end time
    stay. *)
Theorem Stop_first_wins (t1 t2 : Time.Time) (e1 e2 : option Replay.error)
    (r : Replay.replay) :
  Replay.Stop t2 e2 (Replay.Stop t1 e1 r) = Replay.Stop t1 e1 r
  /\ Replay.Close t2 (Replay.Stop t1 e1 r) = Replay.Stop t1 e1 r.
Proof.
  assert (Hz : Time.IsZero (Replay.startTime (Replay.Stop t1 e1 r)) = true).
  { unfold Replay.Stop. destruct (Time.IsZero (Replay.startTime r)) eqn:E;
      [exact E | reflexivity]. }
  unfold Replay.Close. split.
  - unfold Replay.Stop at 1. now rewrite Hz.
  - unfold Replay.Stop at 1. now rewrite Hz.
Qed.

Section EngineProperties.
Import Replay.

Lemma executeCmd_frame2 (r : replay) (command : Command) :
  let r' := fst (executeCmd r command) in
  cancel r' = cancel r /\ progress r' = progress r /\ endTime r' = endTime r.
Proof.
  unfold executeCmd. destruct (conns r !! ConnID command) as [[h |] |];
    cbn; repeat split; reflexivity.
Qed.

(** What an uncancelled run leaves behind. *)
Lemma readLoop_stops (undef : Z) (final : error)
    (input : list (Time.Duration * Command)) :
  forall (p : pacer) (now : Time.Time) (r r' : replay) (evs : list event),
  cancel r = true -> ctxDone r = false -> Time.IsZero (startTime r) = false ->
  readLoop undef None final input p now r = (r', evs) ->
  ctxDone r' = true /\ cancel r' = false /\ Time.IsZero (startTime r') = true
  /\ err r' = (if isEOF final then err r else Some final)
  /\ progress r' = (if isEOF final then F64.one
                    else if 0 <? metaCmds r' then ratio r' else progress r).
Proof.
  induction input as [| [lat command] rest IH]; intros p now r r' evs Hc Hd Hs Hrun;
    rewrite readLoop_unfold in Hrun; unfold ctxErr in Hrun; rewrite Hd in Hrun;
    cbn [orb] in Hrun.
  - inversion Hrun; subst. unfold Stop. rewrite Hs, Hc. cbn.
    destruct (isEOF final); repeat split; reflexivity.
  - destruct (isChangeUser command).
    + exact (IH p (now + lat) (incFiltered r) r' evs Hc Hd Hs Hrun).
    + destruct (pace undef None (Speed (cfg r)) p (now + lat) command)
        as [[p' now'] slept].
      pose proof (executeCmd_frame (incReplayed r) command) as F1.
      pose proof (executeCmd_frame2 (incReplayed r) command) as F2.
      destruct (executeCmd (incReplayed r) command) as [r1 evs1].
      cbn [fst] in F1, F2.
      destruct F1 as (Fd & _ & _ & _ & _ & _ & Fs & Fe).
      destruct F2 as (Fc & Fp & _).
      destruct (readLoop undef None final rest p' now' r1) as [r2 later] eqn:Hrest.
      inversion Hrun; subst.
      apply IH in Hrest; [| rewrite Fc; exact Hc | rewrite Fd; exact Hd
                           | rewrite Fs; exact Hs].
      rewrite Fe, Fp in Hrest. exact Hrest.
Qed.

End EngineProperties.

(** X4.  A run of the pacer that is not cancelled from outside ends by
    stopping the replay: at the end of the input the context is cancelled,
    the replay is marked as stopped, and the error is the decoding error,
    or stays as it was when the input ended with [io.EOF]; the stored
    progress is then 1 in the latter case and the quotient of the counters
    in the former. *)
Theorem readCommands_end_of_input (undef : Z) (final : Replay.error)
    (input : list (Time.Duration * Replay.Command)) (now : Time.Time)
    (r r' : Replay.replay) (evs : list Replay.event) :
  Replay.cancel r = true -> Replay.ctxDone r = false ->
  Time.IsZero (Replay.startTime r) = false ->
  Replay.readCommands undef None final input now r = (r', evs) ->
  Replay.ctxDone r' = true /\ Replay.cancel r' = false
  /\ Time.IsZero (Replay.startTime r') = true
  /\ Replay.err r' = (if Replay.isEOF final then Replay.err r else Some final)
  /\ Replay.progress r'
     = (if Replay.isEOF final then F64.one
        else if 0 <? Replay.metaCmds r' then Replay.ratio r'
             else Replay.progress r).
Proof. unfold Replay.readCommands. apply readLoop_stops. Qed.

Lemma readCommands_end_of_input_witness :
  let r := Scenario.started F64.one 1 3 in
  let run := Replay.readCommands 0 None Scenario.decodeError Scenario.pacedInput 777 r in
  Replay.cancel r = true /\ Replay.ctxDone r = false
  /\ Time.IsZero (Replay.startTime r) = false
  /\ Replay.ctxDone (fst run) = true
  /\ Replay.err (fst run) = Some Scenario.decodeError.
Proof.
  intros r run.
  split; [reflexivity | split; [reflexivity | split; [reflexivity |]]].
  destruct (readCommands_end_of_input 0 Scenario.decodeError Scenario.pacedInput 777 r
              (fst run) (snd run) eq_refl eq_refl eq_refl (surjective_pairing run))
    as (Hd & _ & _ & He & _).
  split; [exact Hd | exact He].
Defined.

Section RoutingProperties.
Import Replay.

Lemma executeCmd_routes (r : replay) (command : Command) :
  wellKeyed r ->
  wellKeyed (fst (executeCmd r command))
  /\ forall h c, In (h, c) (executed (snd (executeCmd r command))) ->
       connID h = ConnID c /\ c = command.
Proof.
  intros [Hmap Hcr]. unfold executeCmd.
  destruct (conns r !! ConnID command) as [[h |] |] eqn:E; cbn.
  - split; [now split |]. intros h' c [Heq | []]. inversion Heq; subst.
    split; [now apply Hmap | reflexivity].
  - split; [now split |]. intros h' c [].
  - split.
    + split; [| exact Hcr]. cbn. intros id h Hl.
      destruct (decide (ConnID command = id)) as [<- | Hne].
      * rewrite lookup_insert_eq in Hl. inversion Hl. now apply Hcr.
      * rewrite lookup_insert_ne in Hl by exact Hne. now apply Hmap.
    + destruct (creator r (ConnID command)) as [h |] eqn:Ec; cbn.
      * intros h' c [Heq | []]. inversion Heq; subst.
        split; [now apply Hcr | reflexivity].
      * intros h' c [].
Qed.

Lemma closeConn_wellKeyed (r : replay) (id : N) :
  wellKeyed r -> wellKeyed (closeConn r id).
Proof.
  intros [Hmap Hcr]. unfold closeConn.
  destruct (conns r !! id) as [[h |] |] eqn:E; [| now split | now split].
  split; [| exact Hcr]. cbn. intros i h' Hl.
  destruct (decide (id = i)) as [<- | Hne].
  - rewrite lookup_insert_eq in Hl. discriminate Hl.
  - rewrite lookup_insert_ne in Hl by exact Hne. now apply Hmap.
Qed.

Lemma executed_app (a b : list event) : executed (a ++ b) = executed a ++ executed b.
Proof. unfold executed. apply flat_map_app. Qed.

Lemma created_app (a b : list event) : created (a ++ b) = created a ++ created b.
Proof. unfold created. apply flat_map_app. Qed.

Lemma dispatched_app (a b : list event) :
  dispatched (a ++ b) = dispatched a ++ dispatched b.
Proof. unfold dispatched. apply flat_map_app. Qed.

End RoutingProperties.

(** X5.  A command is only ever handed to the connection of its own
    connection id: when the connections of the map and the ones the
    creator makes carry the id they are asked for, as the ones [Start]
    installs do, this stays so whatever commands and close events follow,
    and every [ExecuteCmd] is called on a connection whose id is the
    [ConnID] of the command. *)
Theorem run_routes_by_id (acts : list Replay.action) (r : Replay.replay) :
  Replay.wellKeyed r ->
  Replay.wellKeyed (fst (Replay.run r acts))
  /\ forall h c, In (h, c) (Replay.executed (snd (Replay.run r acts))) ->
       Replay.connID h = Replay.ConnID c /\ In (Replay.ActExec c) acts.
Proof.
  revert r. induction acts as [| a acts IH]; intros r Hwk; cbn [Replay.run].
  - cbn. split; [exact Hwk | intros h c []].
  - assert (Hstep : Replay.wellKeyed (fst (Replay.step r a))
                    /\ forall h c, In (h, c) (Replay.executed (snd (Replay.step r a))) ->
                         Replay.connID h = Replay.ConnID c /\ Replay.ActExec c = a).
    { destruct a as [command | id]; cbn [Replay.step].
      - destruct (executeCmd_routes r command Hwk) as [H1 H2]. split; [exact H1 |].
        intros h c Hin. destruct (H2 h c Hin) as [? ->]. now split.
      - cbn. split; [now apply closeConn_wellKeyed | intros h c []]. }
    destruct Hstep as [Hwk1 Hex1].
    destruct (Replay.step r a) as [r1 evs]. cbn [fst snd] in Hwk1, Hex1.
    destruct (IH r1 Hwk1) as [Hwk2 Hex2].
    destruct (Replay.run r1 acts) as [r2 later]. cbn [fst snd] in *.
    split; [exact Hwk2 |]. intros h c Hin.
    rewrite executed_app in Hin. apply in_app_or in Hin as [Hin | Hin].
    + destruct (Hex1 h c Hin) as [? ?]. split; [assumption | now left].
    + destruct (Hex2 h c Hin) as [? ?]. split; [assumption | now right].
Qed.

Lemma run_routes_by_id_witness :
  let r := Scenario.started F64.one 1 3 in
  let acts := [Replay.ActExec (Scenario.query 7 0); Replay.ActExec (Scenario.query 8 5);
               Replay.ActClose 7%N; Replay.ActExec (Scenario.query 8 9)] in
  Replay.wellKeyed r
  /\ map (fun x => (Replay.connID (fst x), Replay.ConnID (snd x)))
         (Replay.executed (snd (Replay.run r acts)))
     = [(7%N, 7%N); (8%N, 8%N); (8%N, 8%N)]
  /\ Replay.wellKeyed (fst (Replay.run r acts)).
Proof.
  intros r acts.
  assert (Hwk : Replay.wellKeyed r).
  { split.
    - intros id h Hl. vm_compute in Hl. discriminate Hl.
    - intros id h Hc. cbv in Hc. inversion Hc. reflexivity. }
  split; [exact Hwk |]. split; [reflexivity |].
  exact (proj1 (run_routes_by_id acts r Hwk)).
Defined.

Section ConnCountProperties.
Import Replay.

Lemma wrap64_add_l (a b : Z) : Time.wrap64 (Time.wrap64 a + b) = Time.wrap64 (a + b).
Proof.
  unfold Time.wrap64. f_equal.
  replace ((a + 2 ^ 63) mod 2 ^ 64 - 2 ^ 63 + b + 2 ^ 63)
    with ((a + 2 ^ 63) mod 2 ^ 64 + b) by lia.
  rewrite Zplus_mod_idemp_l. f_equal. lia.
Qed.

Lemma size_delete_live (m : gmap N ConnValue) (i : N) (x : ConnValue) :
  m !! i = Some x -> size m = S (size (delete i m)).
Proof.
  intros Hl. rewrite <- (insert_delete_id m i x Hl) at 1.
  apply map_size_insert_None, lookup_delete_eq.
Qed.

Lemma liveConns_create (m : gmap N ConnValue) (i : N) (h : Conn) :
  m !! i = None ->
  size (liveConns (<[i := Some h]> m)) = S (size (liveConns m)).
Proof.
  intros Hl. unfold liveConns.
  rewrite map_filter_insert_True by (cbn; eauto).
  apply map_size_insert_None, map_lookup_filter_None. now left.
Qed.

Lemma liveConns_close (m : gmap N ConnValue) (i : N) (h : Conn) :
  m !! i = Some (Some h) ->
  size (liveConns m) = S (size (liveConns (<[i := None]> m))).
Proof.
  intros Hl. unfold liveConns.
  rewrite map_filter_insert_False by (cbn; intros [x Hx]; discriminate Hx).
  rewrite map_filter_delete.
  apply (size_delete_live _ i (Some h)), map_lookup_filter_Some.
  split; [exact Hl | cbn; eauto].
Qed.

Lemma step_connCount (r : replay) (a : action) :
  (forall id, creator r id <> None) ->
  connCount r = Time.wrap64 (Z.of_nat (size (liveConns (conns r)))) ->
  creator (fst (step r a)) = creator r
  /\ connCount (fst (step r a))
     = Time.wrap64 (Z.of_nat (size (liveConns (conns (fst (step r a)))))).
Proof.
  intros Hcr Hinv. destruct a as [command | id]; cbn [step fst].
  - unfold executeCmd.
    destruct (conns r !! ConnID command) as [v |] eqn:E; cbn; [now split |].
    split; [reflexivity |].
    destruct (creator r (ConnID command)) as [h |] eqn:Ec;
      [| now destruct (Hcr (ConnID command))].
    pose proof (liveConns_create (conns r) (ConnID command) h E) as Hs.
    etransitivity; [| apply f_equal, f_equal; symmetry; exact Hs].
    rewrite Hinv, wrap64_add_l. f_equal. lia.
  - unfold closeConn.
    destruct (conns r !! id) as [[h |] |] eqn:E; cbn; [| now split | now split].
    split; [reflexivity |].
    pose proof (liveConns_close (conns r) id h E) as Hs.
    rewrite Hinv, Hs. unfold Z.sub at 1. rewrite wrap64_add_l. f_equal. lia.
Qed.

End ConnCountProperties.

(** X6.  With a creator that never returns nil, as the one [Start]
    installs, [connCount], the number [readCloseCh] waits to see at zero,
    is the number of connections of the map that are not closed (in
    [int] arithmetic): if it is so before, it is so after any sequence of
    commands and close events. *)
Theorem connCount_counts_live (acts : list Replay.action) (r : Replay.replay) :
  (forall id, Replay.creator r id <> None) ->
  Replay.connCount r
    = Time.wrap64 (Z.of_nat (size (Replay.liveConns (Replay.conns r)))) ->
  Replay.connCount (fst (Replay.run r acts))
    = Time.wrap64
        (Z.of_nat (size (Replay.liveConns (Replay.conns (fst (Replay.run r acts)))))).
Proof.
  revert r. induction acts as [| a acts IH]; intros r Hcr Hinv; cbn [Replay.run].
  - exact Hinv.
  - destruct (step_connCount r a Hcr Hinv) as [Hc1 Hinv1].
    destruct (Replay.step r a) as [r1 evs]. cbn [fst] in Hc1, Hinv1.
    assert (Hcr1 : forall id, Replay.creator r1 id <> None)
      by (intros id; rewrite Hc1; apply Hcr).
    specialize (IH r1 Hcr1 Hinv1).
    destruct (Replay.run r1 acts) as [r2 later]. exact IH.
Qed.

Lemma connCount_counts_live_witness :
  let r := Scenario.started F64.one 1 3 in
  let acts := [Replay.ActExec (Scenario.query 7 0); Replay.ActExec (Scenario.query 8 5);
               Replay.ActClose 7%N; Replay.ActClose 7%N;
               Replay.ActExec (Scenario.query 7 9)] in
  (forall id, Replay.creator r id <> None)
  /\ Replay.connCount (fst (Replay.run r acts)) = 1
  /\ Replay.connCount (fst (Replay.run r acts))
     = Time.wrap64
         (Z.of_nat (size (Replay.liveConns (Replay.conns (fst (Replay.run r acts)))))).
Proof.
  intros r acts.
  assert (Hcr : forall id, Replay.creator r id <> None) by (intros id; discriminate).
  split; [exact Hcr |]. split; [reflexivity |].
  exact (connCount_counts_live acts r Hcr eq_refl).
Defined.

Section CreationProperties.
Import Replay.

(** What one step creates, and what it does to the domain of the map. *)
Lemma step_created (r : replay) (a : action) :
  creator (fst (step r a)) = creator r
  /\ (forall id, conns r !! id <> None -> conns (fst (step r a)) !! id <> None)
  /\ (created (snd (step r a)) = []
      \/ exists id, created (snd (step r a)) = [(id, creator r id)]
                    /\ conns r !! id = None
                    /\ conns (fst (step r a)) !! id <> None).
Proof.
  destruct a as [command | c]; cbn [step fst snd].
  - unfold executeCmd.
    destruct (conns r !! ConnID command) as [[h |] |] eqn:E; cbn.
    + split; [reflexivity | split; [auto | now left]].
    + split; [reflexivity | split; [auto | now left]].
    + split; [reflexivity |]. split.
      * intros id Hid. destruct (decide (ConnID command = id)) as [<- | Hne].
        { rewrite lookup_insert_eq. discriminate. }
        now rewrite lookup_insert_ne.
      * right. exists (ConnID command). split; [| split].
        { now destruct (creator r (ConnID command)). }
        { exact E. }
        { rewrite lookup_insert_eq. discriminate. }
  - split; [| split; [| now left]].
    + unfold closeConn. now destruct (conns r !! c) as [[h |] |].
    + intros id Hid. unfold closeConn.
      destruct (conns r !! c) as [[h |] |] eqn:E; cbn; try exact Hid.
      destruct (decide (c = id)) as [<- | Hne].
      { rewrite lookup_insert_eq. discriminate. }
      now rewrite lookup_insert_ne.
Qed.

Lemma run_created (acts : list action) :
  forall r : replay,
  (forall id, conns r !! id <> None -> conns (fst (run r acts)) !! id <> None)
  /\ (forall id v, In (id, v) (created (snd (run r acts))) ->
        conns r !! id = None /\ v = creator r id
        /\ conns (fst (run r acts)) !! id <> None)
  /\ NoDup (map fst (created (snd (run r acts)))).
Proof.
  induction acts as [| a acts IH]; intros r; cbn [run].
  - cbn. split; [auto | split; [intros id v [] | constructor]].
  - destruct (step_created r a) as (Hc & Hdom & Hcr).
    destruct (step r a) as [r1 evs]. cbn [fst snd] in Hc, Hdom, Hcr.
    destruct (IH r1) as (Hdom2 & Hcr2 & Hnd).
    destruct (run r1 acts) as [r2 later]. cbn [fst snd] in *.
    rewrite created_app.
    split; [auto | split].
    + intros id v Hin. apply in_app_or in Hin as [Hin | Hin].
      * destruct Hcr as [Hnil | (i & Hone & Hi & Hi1)]; [now rewrite Hnil in Hin |].
        rewrite Hone in Hin. destruct Hin as [Heq | []]. inversion Heq; subst.
        split; [exact Hi | split; [reflexivity | auto]].
      * destruct (Hcr2 id v Hin) as (Hn1 & Hv & Hn2).
        split; [| split; [now rewrite Hv, Hc | exact Hn2]].
        destruct (conns r !! id) eqn:E; [| reflexivity].
        exfalso. apply (Hdom id); [congruence | exact Hn1].
    + rewrite map_app.
      destruct Hcr as [Hnil | (i & Hone & Hi & Hi1)]; rewrite ?Hnil, ?Hone; cbn;
        [exact Hnd |].
      constructor; [| exact Hnd].
      intros Hin. apply list_elem_of_In, in_map_iff in Hin as ([i' v] & Heq & Hin).
      cbn in Heq. subst i'. destruct (Hcr2 i v Hin) as (Hn & _). contradiction.
Qed.

End CreationProperties.

(** X7.  Whatever commands and close events come, in whatever order, the
    engine creates at most one connection per connection id, by calling
    the creator with that id, and only for an id the map has no entry for
    at the start; the entry is there at the end, so a closed connection is
    never created anew. *)
Theorem run_creates_once (acts : list Replay.action) (r : Replay.replay) :
  NoDup (map fst (Replay.created (snd (Replay.run r acts))))
  /\ forall id v, In (id, v) (Replay.created (snd (Replay.run r acts))) ->
       Replay.conns r !! id = None /\ v = Replay.creator r id
       /\ Replay.conns (fst (Replay.run r acts)) !! id <> None.
Proof.
  destruct (run_created acts r) as (_ & Hcr & Hnd). split; [exact Hnd | exact Hcr].
Qed.

Section DispatchProperties.
Import Replay.

Variable undef : Z.
Variable final : error.

Lemma pace_dispatches_nothing (cancelAt : option Time.Time) (speed : F64.float64)
    (p : pacer) (now : Time.Time) (command : Command) :
  dispatched (snd (pace undef cancelAt speed p now command)) = [].
Proof.
  unfold pace. destruct (Time.IsZero (captureStartTs p)); [reflexivity |].
  match goal with |- context [if ?b then _ else _] => destruct b end; reflexivity.
Qed.

Lemma executeCmd_dispatches_nothing (r : replay) (command : Command) :
  dispatched (snd (executeCmd r command)) = [].
Proof.
  unfold executeCmd. destruct (conns r !! ConnID command) as [[h |] |]; cbn;
    try reflexivity.
  now destruct (creator r (ConnID command)).
Qed.

(** The commands to replay: the input without the commands of type
    [ComChangeUser]. *)
Lemma readLoop_dispatched (cancelAt : option Time.Time)
    (input : list (Time.Duration * Command)) :
  forall (p : pacer) (now : Time.Time) (r : replay),
  (exists rest,
     List.filter (fun c => negb (isChangeUser c)) (map snd input)
     = dispatched (snd (readLoop undef cancelAt final input p now r)) ++ rest)
  /\ (cancelAt = None -> ctxDone r = false ->
      dispatched (snd (readLoop undef cancelAt final input p now r))
      = List.filter (fun c => negb (isChangeUser c)) (map snd input)).
Proof.
  induction input as [| [lat command] rest IH]; intros p now r;
    rewrite readLoop_unfold.
  - split; [exists []; now destruct (ctxErr cancelAt r now) |].
    now destruct (ctxErr cancelAt r now).
  - cbn [map snd List.filter].
    destruct (ctxErr cancelAt r now) eqn:Hhead.
    { split; [eexists; reflexivity |]. intros Hc Hd.
      unfold ctxErr in Hhead. rewrite Hc, Hd in Hhead. discriminate. }
    destruct (isChangeUser command) eqn:Hcu; cbn [negb].
    { exact (IH p (now + lat) (incFiltered r)). }
    pose proof (pace_dispatches_nothing cancelAt (Speed (cfg r)) p (now + lat) command)
      as Hpace.
    destruct (pace undef cancelAt (Speed (cfg r)) p (now + lat) command)
      as [[p' now'] slept]. cbn [snd] in Hpace.
    destruct (ctxErr cancelAt r now') eqn:Hmid.
    { cbn [snd]. rewrite Hpace. split; [eexists; reflexivity |]. intros Hc Hd.
      unfold ctxErr in Hmid. rewrite Hc, Hd in Hmid. discriminate. }
    pose proof (executeCmd_frame (incReplayed r) command) as Hframe.
    pose proof (executeCmd_dispatches_nothing (incReplayed r) command) as Hex.
    destruct (executeCmd (incReplayed r) command) as [r1 evs1].
    cbn [fst snd] in Hframe, Hex. destruct Hframe as (Fd & _).
    destruct (IH p' now' r1) as [[tail Hpre] Hall].
    destruct (readLoop undef cancelAt final rest p' now' r1) as [r2 later].
    cbn [snd] in *.
    assert (Hd : dispatched (slept ++ EvDispatch now' command :: evs1 ++ later)
                 = command :: dispatched later).
    { rewrite dispatched_app, Hpace. cbn [app].
      change (EvDispatch now' command :: evs1 ++ later)
        with ([EvDispatch now' command] ++ evs1 ++ later).
      rewrite !dispatched_app, Hex. reflexivity. }
    rewrite Hd. split.
    + exists tail. cbn [app]. now rewrite Hpre.
    + intros Hc Hdone. rewrite Hall; [reflexivity | exact Hc | now rewrite Fd].
Qed.

End DispatchProperties.

(** X8.  The pacer hands the commands to [executeCmd] in the order of the
    input, each one once and none of type [ComChangeUser]: what it
    dispatches is an initial part of the other commands of the input, and
    all of them when the replay is not cancelled from outside. *)
Theorem dispatch_in_input_order (undef : Z) (cancelAt : option Time.Time)
    (final : Replay.error) (input : list (Time.Duration * Replay.Command))
    (now : Time.Time) (r : Replay.replay) :
  Replay.ctxDone r = false ->
  let todo := List.filter (fun c => negb (Replay.isChangeUser c)) (map snd input) in
  (exists rest,
     todo = Replay.dispatched (snd (Replay.readCommands undef cancelAt final input now r))
            ++ rest)
  /\ Replay.dispatched (snd (Replay.readCommands undef None final input now r)) = todo.
Proof.
  intros Hd todo. unfold Replay.readCommands. split.
  - apply (proj1 (readLoop_dispatched undef final cancelAt input _ now r)).
  - now apply (proj2 (readLoop_dispatched undef final None input _ now r)).
Qed.

Lemma dispatch_in_input_order_witness :
  let r := Scenario.started F64.one 1 3 in
  let input := [(0, Scenario.query 1 0); (0, Scenario.changeUser 1 50);
                (0, Scenario.query 1 100); (0, Scenario.query 2 300)] in
  Replay.ctxDone r = false
  /\ Replay.dispatched
       (snd (Replay.readCommands 0 (Some (1 + 150 * Time.Millisecond)) Replay.errEOF
               input 1 r))
     = [Scenario.query 1 0; Scenario.query 1 100]
  /\ Replay.dispatched (snd (Replay.readCommands 0 None Replay.errEOF input 1 r))
     = [Scenario.query 1 0; Scenario.query 1 100; Scenario.query 2 300].
Proof.
  intros r input. split; [reflexivity |]. split; [vm_compute; reflexivity |].
  exact (proj2 (dispatch_in_input_order 0 None Replay.errEOF input 1 r eq_refl)).
Defined.

Section ScheduleProperties.
Import Replay.

Lemma wrap64_small (z : Z) :
  Time.minDuration <= z <= Time.maxDuration -> Time.wrap64 z = z.
Proof.
  unfold Time.minDuration, Time.maxDuration, Time.wrap64. intros Hz.
  rewrite Z.mod_small; lia.
Qed.

Lemma Sub_range (t u : Time.Time) :
  Time.minDuration <= Time.Sub t u <= Time.maxDuration.
Proof.
  unfold Time.Sub, Time.minDuration, Time.maxDuration.
  destruct (Z.ltb_spec (t - u) (- 2 ^ 63)); [lia |].
  destruct (Z.ltb_spec (2 ^ 63 - 1) (t - u)); lia.
Qed.

Lemma to_int64_range (undef : Z) (f : F64.float64) :
  F64.minInt64 <= undef <= F64.maxInt64 ->
  F64.minInt64 <= F64.to_int64 undef f <= F64.maxInt64.
Proof.
  intros Hu. unfold F64.to_int64. destruct f as [s | s | | s m e]; try exact Hu.
  - unfold F64.minInt64, F64.maxInt64. lia.
  - match goal with |- context [if ?b then _ else _] => destruct b eqn:E end;
      [| exact Hu].
    apply andb_prop in E as [E1 E2]. apply Z.leb_le in E1, E2. lia.
Qed.

Lemma expectedInterval_range (undef : Z) (speed : F64.float64)
    (captureStart : Time.Time) (command : Command) :
  F64.minInt64 <= undef <= F64.maxInt64 ->
  Time.minDuration <= expectedInterval undef speed captureStart command
    <= Time.maxDuration.
Proof.
  intros Hu. unfold expectedInterval.
  destruct (negb (F64.eqb speed F64.one)).
  - apply (to_int64_range undef _ Hu).
  - apply Sub_range.
Qed.

End ScheduleProperties.

(** X9.  The pacing of a command after the first one, when the replay
    has been running for a time that fits in a [Duration] with a
    microsecond to spare: the clock does not go back, the pacer does not
    sleep beyond the instant the command is due at, the start of the
    replay plus the expected interval, and unless the replay is cancelled
    by then, the command is not dispatched more than a microsecond before
    that instant. *)
Theorem pace_on_schedule (undef : Z) (cancelAt : option Time.Time)
    (speed : F64.float64) (p : Replay.pacer) (now : Time.Time)
    (command : Replay.Command) :
  Time.IsZero (Replay.captureStartTs p) = false ->
  F64.minInt64 <= undef <= F64.maxInt64 ->
  0 <= now - Replay.replayStartTs p <= Time.maxDuration - Time.Microsecond ->
  let due := Replay.replayStartTs p
             + Replay.expectedInterval undef speed (Replay.captureStartTs p) command in
  let now' := snd (fst (Replay.pace undef cancelAt speed p now command)) in
  now <= now' <= Z.max now due
  /\ (Replay.cancelled cancelAt now' = false -> due - Time.Microsecond <= now').
Proof.
  intros Hnz Hu Hel due now'. subst due now'.
  pose proof (expectedInterval_range undef speed (Replay.captureStartTs p) command Hu)
    as Hexp.
  unfold Replay.pace. rewrite Hnz.
  set (expected := Replay.expectedInterval undef speed (Replay.captureStartTs p) command)
    in *.
  assert (Hcur : Time.Sub now (Replay.replayStartTs p) = now - Replay.replayStartTs p).
  { unfold Time.Sub, Time.minDuration, Time.maxDuration, Time.Microsecond,
      Time.Nanosecond in *.
    destruct (Z.ltb_spec (now - Replay.replayStartTs p) (- 2 ^ 63)); [lia |].
    destruct (Z.ltb_spec (2 ^ 63 - 1) (now - Replay.replayStartTs p)); lia. }
  rewrite Hcur. unfold Time.dadd, Time.dsub.
  rewrite (wrap64_small (now - Replay.replayStartTs p + Time.Microsecond))
    by (unfold Time.minDuration, Time.maxDuration, Time.Microsecond, Time.Nanosecond in *;
        lia).
  unfold Time.Microsecond, Time.Nanosecond in *.
  destruct (Z.ltb_spec (now - Replay.replayStartTs p + 1000 * 1) expected) as [Hlt | Hge];
    cbn [fst snd].
  - rewrite (wrap64_small (expected - (now - Replay.replayStartTs p)))
      by (unfold Time.minDuration, Time.maxDuration in *; lia).
    unfold Replay.wake, Replay.cancelled. destruct cancelAt as [t |].
    + destruct (Z.ltb_spec t (now + (expected - (now - Replay.replayStartTs p)))).
      * split; [lia |]. intros Hc. apply Z.leb_gt in Hc. lia.
      * split; [lia |]. intros _. lia.
    + split; [lia |]. intros _. lia.
  - split; [lia |]. intros _. lia.
Qed.

Lemma pace_on_schedule_witness :
  let p := {| Replay.captureStartTs := Time.Unix 0 0; Replay.replayStartTs := 777 |} in
  let command := Scenario.query 1 100 in
  Time.IsZero (Replay.captureStartTs p) = false
  /\ snd (fst (Replay.pace 0 None F64.one p 900 command)) = 777 + 100 * Time.Millisecond
  /\ 777 + 100 * Time.Millisecond - Time.Microsecond
     <= snd (fst (Replay.pace 0 None F64.one p 900 command)).
Proof.
  intros p command. split; [reflexivity |]. split; [reflexivity |].
  refine (proj2 (pace_on_schedule 0 None F64.one p 900 command eq_refl _ _) eq_refl).
  - unfold F64.minInt64, F64.maxInt64. lia.
  - unfold Time.maxDuration, Time.Microsecond, Time.Nanosecond. subst p.
    cbn [Replay.replayStartTs]. lia.
Defined.

(* ===================================================================== *)
(** * Further properties of the replay configuration                       *)
(* ===================================================================== *)

(** X10.  A configuration [Validate] accepts comes back as it was, but
    for a [Speed] equal to zero, which is replaced by 1; its [Speed] is
    then not a number or lies in [[0.1, 10]]; and validating it once more
    accepts it and changes nothing. *)
Theorem Validate_accepted (fs : Replay.FileSystem) (cfg cfg' : Replay.ReplayConfig) :
  Replay.Validate fs cfg = (None, cfg') ->
  cfg' = (if F64.eqb (Replay.Speed cfg) F64.zero
          then Replay.withSpeed cfg F64.one else cfg)
  /\ Replay.Speed cfg' = (if F64.eqb (Replay.Speed cfg) F64.zero
                          then F64.one else Replay.Speed cfg)
  /\ Replay.Input cfg' = Replay.Input cfg
  /\ Replay.Username cfg' = Replay.Username cfg
  /\ Replay.Password cfg' = Replay.Password cfg
  /\ Replay.connCreator cfg' = Replay.connCreator cfg
  /\ (Replay.Speed cfg' = F64.NaN
      \/ (SFleb Replay.minSpeed (Replay.Speed cfg') = true
          /\ SFleb (Replay.Speed cfg') Replay.maxSpeed = true))
  /\ Replay.Validate fs cfg' = (None, cfg').
Proof.
  unfold Replay.Validate.
  destruct (String.eqb (Replay.Input cfg) "") eqn:Hin; [discriminate |].
  destruct (fs (Replay.Input cfg)) as [[|] |] eqn:Hst; cbn [negb]; try discriminate.
  destruct (String.eqb (Replay.Username cfg) "") eqn:Hu; [discriminate |].
  destruct (F64.eqb (Replay.Speed cfg) F64.zero) eqn:Hz.
  - intros Heq. inversion Heq; subst cfg'. cbn.
    rewrite Hin, Hst, Hu. cbn.
    repeat split; try reflexivity. right. split; reflexivity.
  - destruct (F64.ltb (Replay.Speed cfg) Replay.minSpeed
              || F64.gtb (Replay.Speed cfg) Replay.maxSpeed) eqn:Hrange;
      [discriminate |].
    intros Heq. inversion Heq; subst cfg'.
    rewrite Hin, Hst, Hu, Hz, Hrange. cbn [negb].
    repeat split; try reflexivity.
    destruct (Replay.Speed cfg) as [s | s | | s m e] eqn:Hs; [right | right | now left | right].
    all: pose proof (range_check_matches (Replay.Speed cfg)) as Hm;
      rewrite Hs in Hm; rewrite <- Hm in Hrange by discriminate;
      apply negb_false_iff, andb_prop in Hrange; exact Hrange.
Qed.

Lemma Validate_accepted_witness :
  let cfg := Scenario.config F64.zero in
  let cfg' := Replay.withSpeed cfg F64.one in
  let kept := Scenario.config (F64.of_Z 2) in
  Replay.Validate Scenario.fs cfg = (None, cfg')
  /\ Replay.Speed cfg' <> Replay.Speed cfg
  /\ Replay.Speed cfg' = F64.one
  /\ Replay.Validate Scenario.fs cfg' = (None, cfg')
  /\ Replay.Validate Scenario.fs kept = (None, kept)
  /\ Replay.Speed kept = F64.of_Z 2.
Proof.
  intros cfg cfg' kept. split; [reflexivity |]. split; [discriminate |].
  split; [exact (proj1 (proj2 (Validate_accepted Scenario.fs cfg cfg' eq_refl))) |].
  split; [apply (Validate_accepted Scenario.fs cfg cfg' eq_refl) |].
  split; [reflexivity |].
  exact (proj1 (proj2 (Validate_accepted Scenario.fs kept kept eq_refl))).
Defined.

(** X11.  [Start] does not clear what a previous run has left in the
    engine: started again after a run that was stopped with an error, it
    has a fresh connection map, but [Progress] still returns that error,
    and the counters of replayed and filtered commands and of the
    connections go on from where they were. *)
Theorem restart_keeps_error (fs : Replay.FileSystem) (now1 now2 : Time.Time)
    (readMeta : Z) (e : Replay.error) (cfg0 : Replay.ReplayConfig)
    (r r1 : Replay.replay) (evs : list Replay.event) :
  Time.IsZero (Replay.startTime r) = false ->
  Replay.Start fs now2 readMeta None cfg0 (Replay.Stop now1 (Some e) r) = (None, r1, evs) ->
  snd (fst (Replay.Progress r1)) = Some e
  /\ Replay.conns r1 = ∅
  /\ Replay.replayedCmds r1 = Replay.replayedCmds r
  /\ Replay.filteredCmds r1 = Replay.filteredCmds r
  /\ Replay.connCount r1 = Replay.connCount r.
Proof.
  intros Hrun. unfold Replay.Start.
  destruct (Replay.Validate fs cfg0) as [[e' |] cfg1]; [discriminate |].
  intros Heq. inversion Heq; subst r1 evs. clear Heq.
  unfold Replay.Stop. rewrite Hrun. unfold Replay.Progress. cbn.
  destruct (0 <? readMeta); cbn; repeat split; reflexivity.
Qed.

Lemma restart_keeps_error_witness :
  let r := Scenario.started F64.one 1 3 in
  let stopped := Replay.Stop 888 (Some Scenario.decodeError) r in
  let r1 := snd (fst (Replay.Start Scenario.fs 999 5 None (Scenario.config F64.one)
                        stopped)) in
  Time.IsZero (Replay.startTime r) = false
  /\ Time.IsZero (Replay.startTime r1) = false
  /\ snd (fst (Replay.Progress r1)) = Some Scenario.decodeError.
Proof.
  intros r stopped r1. split; [reflexivity |]. split; [reflexivity |].
  exact (proj1 (restart_keeps_error Scenario.fs 888 999 5 Scenario.decodeError
                  (Scenario.config F64.one) r r1
                  [Replay.EvSpawnPacer; Replay.EvSpawnCloseDrain] eq_refl eq_refl)).
Defined.

(* ===================================================================== *)
(** * Further properties of the statement filter                           *)
(* ===================================================================== *)

Section FilterBounds.
Import Capture.
Context {L : Type} `{Lexer L}.

(** The loop returns true only after the keyword it was entered with has
    matched the first word of an entry: the keyword changes only then. *)
Lemma matchKeywords_first (kws : list (list string)) (keyword : string) (lexer : L) :
  matchKeywords kws keyword lexer = true ->
  exists kw, In kw kws /\ hd_error kw = Some keyword.
Proof.
  induction kws as [| kw kws IH]; cbn [matchKeywords]; [discriminate |].
  destruct kw as [| kw0 tl].
  - intros Hm. destruct (IH Hm) as (kw & Hin & Hhd). exists kw. split; [now right | exact Hhd].
  - destruct (String.eqb_spec keyword kw0) as [-> | Hne]; cbn [negb].
    + intros _. exists (kw0 :: tl). split; [now left | reflexivity].
    + intros Hm. destruct (IH Hm) as (kw & Hin & Hhd).
      exists kw. split; [now right | exact Hhd].
Qed.

End FilterBounds.

(** X12.  Whatever the lexer, [IsSensitiveSQL] lies between two tests on
    the leading keywords: it reports every statement whose first one or
    two tokens are a sensitive prefix, and it reports no statement whose
    first token is empty or is not the first word of a sensitive
    prefix. *)
Theorem IsSensitiveSQL_bounds {L : Type} {lexer : Lexer L} (sql : string) :
  (Capture.beginsWithSensitivePrefix sql = true -> Capture.IsSensitiveSQL sql = true)
  /\ (Capture.IsSensitiveSQL sql = true ->
      fst (NextToken (NewLexer sql)) <> ""%string
      /\ exists kw, In kw Capture.sensitiveKeywords
                    /\ hd_error kw = Some (fst (NextToken (NewLexer sql)))).
Proof.
  split; [apply IsSensitiveSQL_complete |].
  unfold Capture.IsSensitiveSQL.
  destruct (NextToken (NewLexer sql)) as [keyword lx]. cbn [fst].
  destruct keyword as [| c keyword]; cbn [String.length Nat.eqb]; [discriminate |].
  intros Hm. split; [discriminate | now apply (matchKeywords_first _ _ lx)].
Qed.

(* ===================================================================== *)
(** * Properties of the filter of the metrics text                         *)
(* ===================================================================== *)

Section FilterMetricsProperties.
Import MetricsReader.

Lemma append_cons (x : ascii) (a b : string) :
  (String x a ++ b)%string = String x (a ++ b).
Proof. reflexivity. Qed.

Lemma append_nil_l (b : string) : ("" ++ b)%string = b.
Proof. reflexivity. Qed.

Lemma append_assoc (a b c : string) : ((a ++ b) ++ c = a ++ (b ++ c))%string.
Proof.
  induction a as [| x a IH]; [reflexivity |]. rewrite !append_cons. now f_equal.
Qed.

Lemma append_nil_r (a : string) : (a ++ "")%string = a.
Proof.
  induction a as [| x a IH]; [reflexivity |]. rewrite append_cons. now f_equal.
Qed.

Lemma substring_all (s : string) : String.substring 0 (String.length s) s = s.
Proof. induction s as [| c s IH]; simpl; [reflexivity | now f_equal]. Qed.

Lemma sliceFrom_cons (n : nat) (c : ascii) (s : string) :
  sliceFrom (S n) (String c s) = sliceFrom n s.
Proof. reflexivity. Qed.

Lemma sliceFrom_0 (s : string) : sliceFrom 0 s = s.
Proof. unfold sliceFrom. rewrite Nat.sub_0_r. apply substring_all. Qed.

Lemma index_newline_cons (c : ascii) (s : string) :
  String.index 0 newline (String c s)
  = if Ascii.eqb c "010" then Some 0%nat
    else match String.index 0 newline s with
         | Some n => Some (S n)
         | None => None
         end.
Proof.
  cbn [String.index newline String.prefix].
  destruct (ascii_dec "010" c) as [<- | Hne].
  - cbn. now destruct s.
  - destruct (Ascii.eqb_spec c "010") as [-> | _]; [contradiction | reflexivity].
Qed.

(** [strings.Index] and the two slice expressions of the loop cut the
    first line off the text. *)
Lemma lines_step (s : string) :
  match String.index 0 newline s with
  | None => lines s = [s] /\ noNewline s = true
  | Some i =>
      lines s = String.substring 0 (i + 1) s :: lines (sliceFrom (i + 1) s)
      /\ (String.length (sliceFrom (i + 1) s) < String.length s)%nat
  end.
Proof.
  induction s as [| c s IH].
  - cbn. split; reflexivity.
  - rewrite index_newline_cons. cbn [lines noNewline].
    destruct (Ascii.eqb c "010") eqn:Hc.
    + cbn [Nat.add String.substring]. rewrite sliceFrom_cons, sliceFrom_0.
      split; [now destruct s | cbn; lia].
    + destruct (String.index 0 newline s) as [j |].
      * destruct IH as [Hl Hlen]. rewrite Hl.
        cbn [Nat.add String.substring]. rewrite sliceFrom_cons.
        split; [reflexivity | cbn [String.length]; lia].
      * destruct IH as [Hl Hn]. rewrite Hl, Hn. split; reflexivity.
Qed.

(** With enough fuel the loop appends to the buffer the lines that begin
    with one of the names. *)
Lemma filterLoop_lines (names : list string) (fuel : nat) :
  forall (all buffer : string),
  (String.length all < fuel)%nat ->
  filterLoop fuel all names buffer
  = (buffer ++ joinAll (List.filter (hasNamePrefix names) (lines all)))%string.
Proof.
  induction fuel as [| fuel IH]; intros all buffer Hlen; [lia |].
  cbn [filterLoop]. pose proof (lines_step all) as Hstep.
  destruct (String.index 0 newline all) as [i |].
  - destruct Hstep as [Hl Hshort]. rewrite Hl. cbn [List.filter].
    rewrite IH by lia.
    destruct (hasNamePrefix names (String.substring 0 (i + 1) all)); cbn [joinAll fold_right].
    + apply append_assoc.
    + reflexivity.
  - destruct Hstep as [Hl _]. rewrite Hl. cbn [List.filter].
    destruct (hasNamePrefix names all); cbn [joinAll fold_right].
    + now rewrite append_nil_r.
    + now rewrite append_nil_r.
Qed.

Lemma filterMetrics_lines (all : string) (names : list string) :
  filterMetrics all names = joinAll (List.filter (hasNamePrefix names) (lines all)).
Proof. unfold filterMetrics. rewrite filterLoop_lines by lia. reflexivity. Qed.

Lemma joinAll_lines (s : string) : joinAll (lines s) = s.
Proof.
  induction s as [| c s IH]; [reflexivity |]. cbn [lines].
  destruct (Ascii.eqb c "010").
  - cbn [joinAll fold_right]. fold (joinAll (lines s)). now rewrite IH.
  - destruct (lines s) as [| l ls]; [cbn in IH; now subst s |].
    cbn [joinAll fold_right] in *. rewrite append_cons. now rewrite IH.
Qed.

Lemma lines_shape (s : string) : linesShape (lines s).
Proof.
  induction s as [| c s IH]; [now constructor |]. cbn [lines].
  destruct (Ascii.eqb c "010") eqn:Hc.
  - constructor; [| exact IH]. exists ""%string. split; [reflexivity |].
    apply Ascii.eqb_eq in Hc. now subst.
  - inversion IH as [x Hx Heq | l ls [body [Hb ->]] Hls Heq].
    + constructor. cbn. now rewrite Hc, Hx.
    + constructor; [| exact Hls]. exists (String c body). split; [| reflexivity].
      cbn. now rewrite Hc, Hb.
Qed.

Lemma lines_noNewline (x : string) : noNewline x = true -> lines x = [x].
Proof.
  induction x as [| c x IH]; [reflexivity |]. cbn [noNewline lines].
  intros Hn. apply andb_prop in Hn as [Hc Hx]. apply negb_true_iff in Hc.
  now rewrite Hc, (IH Hx).
Qed.

Lemma lines_fullLine (l s : string) :
  fullLine l -> lines (l ++ s) = l :: lines s.
Proof.
  intros [body [Hb ->]]. induction body as [| c body IH]; [reflexivity |].
  cbn [noNewline] in Hb. apply andb_prop in Hb as [Hc Hb]. apply negb_true_iff in Hc.
  rewrite !append_cons. cbn [lines]. rewrite Hc. now rewrite (IH Hb).
Qed.

Lemma hasNamePrefix_empty (names : list string) (x : string) :
  hasNamePrefix names "" = true -> hasNamePrefix names x = true.
Proof.
  unfold hasNamePrefix. rewrite !existsb_exists.
  intros (name & Hin & Hp). exists name. split; [exact Hin |].
  destruct name; [now destruct x | discriminate Hp].
Qed.

(** Filtering the kept lines once more keeps them all. *)
Lemma filter_lines_joinAll (names : list string) (ls : list string) :
  linesShape ls ->
  List.filter (hasNamePrefix names)
              (lines (joinAll (List.filter (hasNamePrefix names) ls)))
  = List.filter (hasNamePrefix names) ls.
Proof.
  induction 1 as [x Hx | l ls Hl Hls IH]; cbn [List.filter].
  - destruct (hasNamePrefix names x) eqn:Hk; cbn [joinAll fold_right].
    + rewrite append_nil_r, (lines_noNewline x Hx). cbn [List.filter]. now rewrite Hk.
    + cbn [lines List.filter].
      destruct (hasNamePrefix names "") eqn:He; [| reflexivity].
      apply (hasNamePrefix_empty names x) in He. congruence.
  - destruct (hasNamePrefix names l) eqn:Hk; [| exact IH].
    cbn [joinAll fold_right]. fold (joinAll (List.filter (hasNamePrefix names) ls)).
    rewrite (lines_fullLine l _ Hl). cbn [List.filter]. now rewrite Hk, IH.
Qed.

End FilterMetricsProperties.

(** X13.  [filterMetrics] returns, in their order and each with its
    newline, the lines of the text that begin with one of the names, the
    piece after the last newline included when it does; the lines are the
    pieces the text falls into when it is cut after every newline. *)
Theorem filterMetrics_keeps_matching_lines (all : string) (names : list string) :
  MetricsReader.joinAll (MetricsReader.lines all) = all
  /\ MetricsReader.linesShape (MetricsReader.lines all)
  /\ MetricsReader.filterMetrics all names
     = MetricsReader.joinAll
         (List.filter (MetricsReader.hasNamePrefix names) (MetricsReader.lines all)).
Proof.
  split; [apply joinAll_lines |]. split; [apply lines_shape |].
  apply filterMetrics_lines.
Qed.

(** X14.  Filtering a filtered text once more with the same names changes
    nothing; with no names at all the result is empty. *)
Theorem filterMetrics_idempotent (all : string) (names : list string) :
  MetricsReader.filterMetrics (MetricsReader.filterMetrics all names) names
  = MetricsReader.filterMetrics all names
  /\ MetricsReader.filterMetrics all [] = ""%string.
Proof.
  split.
  - rewrite (filterMetrics_lines (MetricsReader.filterMetrics all names)).
    rewrite (filterMetrics_lines all).
    now rewrite filter_lines_joinAll by apply lines_shape.
  - rewrite filterMetrics_lines. cbn [MetricsReader.hasNamePrefix existsb].
    induction (MetricsReader.lines all) as [| l ls IH]; [reflexivity | exact IH].
Qed.

(* ===================================================================== *)
(** * Properties of the metric names                                       *)
(* ===================================================================== *)

Section NamesProperties.
Import MetricsReader.
Context {MetricFamily : Type}.

Lemma appendNew_spec (names : list string) (name : string) :
  NoDup names ->
  NoDup (appendNew names name)
  /\ forall x, x ∈ appendNew names name <-> x ∈ names \/ x = name.
Proof.
  intros Hnd. unfold appendNew. destruct (bool_decide_reflect (name ∈ names)) as [Hin | Hnin].
  - split; [exact Hnd |]. intros x. split; [now left | intros [Hx | ->]; assumption].
  - split.
    + apply NoDup_app. split; [exact Hnd |]. split; [| apply NoDup_singleton].
      intros x Hx Hx'. apply list_elem_of_singleton in Hx'. now subst.
    + intros x. rewrite elem_of_app, list_elem_of_singleton. reflexivity.
Qed.

Lemma foldl_appendNew_spec (new : list string) :
  forall names : list string,
  NoDup names ->
  NoDup (foldl appendNew names new)
  /\ forall x, x ∈ foldl appendNew names new <-> x ∈ names \/ x ∈ new.
Proof.
  induction new as [| n new IH]; intros names Hnd; cbn [foldl].
  - split; [exact Hnd |]. intros x. rewrite elem_of_nil. tauto.
  - destruct (appendNew_spec names n Hnd) as [Hnd1 Hin1].
    destruct (IH _ Hnd1) as [Hnd2 Hin2]. split; [exact Hnd2 |].
    intros x. rewrite Hin2, Hin1, elem_of_cons. tauto.
Qed.

Lemma collect_spec (visit : list (QueryRule MetricFamily)) :
  forall names : list string,
  NoDup names ->
  let result := foldl (fun names rule => foldl appendNew names (Names rule)) names visit in
  NoDup result
  /\ forall x, x ∈ result <-> x ∈ names \/ exists rule, rule ∈ visit /\ x ∈ Names rule.
Proof.
  induction visit as [| rule visit IH]; intros names Hnd; cbn [foldl].
  - split; [exact Hnd |]. intros x. split; [now left |].
    intros [Hx | (rule & Hr & _)]; [exact Hx | now apply elem_of_nil in Hr].
  - destruct (foldl_appendNew_spec (Names rule) names Hnd) as [Hnd1 Hin1].
    destruct (IH _ Hnd1) as [Hnd2 Hin2]. split; [exact Hnd2 |].
    intros x. rewrite Hin2, Hin1. split.
    + intros [[Hx | Hx] | (r & Hr & Hx)]; [now left | |].
      * right. exists rule. split; [apply elem_of_cons; now left | exact Hx].
      * right. exists r. split; [apply elem_of_cons; now right | exact Hx].
    + intros [Hx | (r & Hr & Hx)]; [now left; left |].
      apply elem_of_cons in Hr as [-> | Hr]; [now left; right |].
      right. now exists r.
Qed.

End NamesProperties.

(** X15.  In whatever order the rules are visited, [collectAllNames]
    returns every metric name that some rule of the reader lists, each
    once, and nothing else. *)
Theorem collectAllNames_exact {MetricFamily : Type}
    (br : MetricsReader.BackendReader MetricFamily)
    (visit : list (string * MetricsReader.QueryRule MetricFamily)) :
  visit ≡ₚ map_to_list (MetricsReader.queryRules br) ->
  NoDup (MetricsReader.collectAllNames (map snd visit))
  /\ forall name,
       name ∈ MetricsReader.collectAllNames (map snd visit)
       <-> exists key rule, MetricsReader.queryRules br !! key = Some rule
                            /\ name ∈ MetricsReader.Names rule.
Proof.
  intros Hperm. unfold MetricsReader.collectAllNames.
  destruct (collect_spec (map snd visit) [] NoDup_nil_2) as [Hnd Hin].
  split; [exact Hnd |]. intros name. rewrite Hin. split.
  - intros [Hx | (rule & Hr & Hx)]; [now apply elem_of_nil in Hx |].
    apply list_elem_of_In, in_map_iff in Hr as ([key rule'] & Heq & Hr).
    cbn in Heq. subst rule'. exists key, rule. split; [| exact Hx].
    apply elem_of_map_to_list. rewrite <- Hperm. now apply list_elem_of_In.
  - intros (key & rule & Hl & Hx). right. exists rule. split; [| exact Hx].
    apply list_elem_of_In, in_map_iff. exists (key, rule). split; [reflexivity |].
    apply list_elem_of_In. rewrite Hperm. now apply elem_of_map_to_list.
Qed.

Lemma collectAllNames_exact_witness :
  let br := MetricsReader.AddQueryRule "S"
              {| MetricsReader.Names := ["B"; "A"]%string;
                 MetricsReader.Retention := 0;
                 MetricsReader.Metric2Value := MetricsScenario.gauge "B";
                 MetricsReader.Range2Value := MetricsScenario.lastValue;
                 MetricsReader.ResultType := MetricsReader.ValVector |}
              MetricsScenario.owner in
  let visit := map_to_list (MetricsReader.queryRules br) in
  visit ≡ₚ map_to_list (MetricsReader.queryRules br)
  /\ length (MetricsReader.collectAllNames (map snd visit)) = 2%nat
  /\ NoDup (MetricsReader.collectAllNames (map snd visit)).
Proof.
  intros br visit. split; [reflexivity |]. split; [vm_compute; reflexivity |].
  exact (proj1 (collectAllNames_exact br visit (reflexivity _))).
Defined.

(* ===================================================================== *)
(** * Properties of the history an owner shares                            *)
(* ===================================================================== *)

Section ShareProperties.
Import MetricsReader.
Context {MetricFamily : Type}.

Lemma lookup_filter_backends (backends : list string) (m : gmap string backendHistory)
    (backend : string) :
  filter (fun kv : string * backendHistory => fst kv ∈ backends) m !! backend
  = if decide (backend ∈ backends) then m !! backend else None.
Proof.
  destruct (decide (backend ∈ backends)) as [Hin | Hnin].
  - destruct (m !! backend) as [bh |] eqn:E.
    + apply map_lookup_filter_Some. now split.
    + apply map_lookup_filter_None. now left.
  - apply map_lookup_filter_None. right. intros bh _ Hin. now apply Hnin.
Qed.

(** What [marshalHistory] stores, entry by entry. *)
Lemma marshalHistory_lookup (backends : list string) (br : BackendReader MetricFamily)
    (ruleKey backend : string) :
  exists shared,
    fst (GetBackendMetrics (marshalHistory backends br)) = Some shared
    /\ dom shared = dom (history br)
    /\ shared !! ruleKey ≫= (.!! backend)
       = if decide (backend ∈ backends) then history br !! ruleKey ≫= (.!! backend)
         else None.
Proof.
  eexists. split; [reflexivity |]. split; [apply dom_fmap_L |].
  rewrite lookup_fmap. destruct (history br !! ruleKey) as [rh |]; cbn.
  - apply lookup_filter_backends.
  - now destruct (decide (backend ∈ backends)).
Qed.

End ShareProperties.

(** X16.  What a member learns from an owner.  The owner marshals the
    entries of the backends it has read, for every rule of its history;
    after [readFromOwner] on that response, the member's entry of a rule
    and a backend is as before when the backend is not among those
    backends or the owner has no entry for it, and it is the owner's entry
    when the member had none. *)
Theorem member_learns_shared_history {MetricFamily : Type}
    (backends : list string) (owner member member' : MetricsReader.BackendReader MetricFamily)
    (mono : Z) (order : list string) :
  MetricsReader.readFromOwner mono
    (fst (MetricsReader.GetBackendMetrics (MetricsReader.marshalHistory backends owner)))
    order member = Some member' ->
  forall ruleKey backend : string,
  let theirs := MetricsReader.history owner !! ruleKey ≫= (.!! backend) in
  let before := MetricsReader.history member !! ruleKey ≫= (.!! backend) in
  let after := MetricsReader.history member' !! ruleKey ≫= (.!! backend) in
  (backend ∉ backends -> after = before)
  /\ (theirs = None -> after = before)
  /\ (backend ∈ backends -> before = None -> after = theirs).
Proof.
  intros Hread ruleKey backend theirs before after. subst theirs before after.
  destruct (marshalHistory_lookup backends owner ruleKey backend)
    as (shared & Hshared & _ & Hlook).
  rewrite Hshared in Hread. apply readFromOwner_history in Hread. rewrite Hread.
  rewrite mergeHistory_lookup.
  assert (Hentry :
    (match shared !! ruleKey with
     | Some n => Some (match MetricsReader.history member !! ruleKey with
                       | Some l => MetricsReader.mergeRule l n
                       | None => n
                       end)
     | None => MetricsReader.history member !! ruleKey
     end) ≫= (.!! backend)
    = match shared !! ruleKey ≫= (.!! backend) with
      | Some n => Some (match MetricsReader.history member !! ruleKey ≫= (.!! backend) with
                        | Some l => MetricsReader.mergeBackend l n
                        | None => n
                        end)
      | None => MetricsReader.history member !! ruleKey ≫= (.!! backend)
      end).
  { destruct (shared !! ruleKey) as [n |]; cbn; [| reflexivity].
    destruct (MetricsReader.history member !! ruleKey) as [l |]; cbn.
    - apply mergeRule_lookup.
    - now destruct (n !! backend). }
  rewrite Hentry, Hlook. clear Hentry Hlook.
  destruct (decide (backend ∈ backends)) as [Hin | Hnin].
  - split; [intros Hn; contradiction |]. split.
    + intros ->. reflexivity.
    + intros _ ->. now destruct (MetricsReader.history owner !! ruleKey ≫= (.!! backend)).
  - split; [reflexivity |]. split; [reflexivity | intros Hn; contradiction].
Qed.

Lemma member_learns_shared_history_witness :
  let owner := default MetricsReader.NewBackendReader MetricsScenario.afterTwoTicks in
  let member : MetricsReader.BackendReader F64.float64 := MetricsScenario.owner in
  exists member',
    MetricsReader.readFromOwner 3
      (fst (MetricsReader.GetBackendMetrics (MetricsReader.marshalHistory ["b2"%string] owner)))
      ["b2"%string] member = Some member'
    /\ MetricsReader.history member' !! "R"%string ≫= (.!! "b1"%string) = None
    /\ MetricsReader.history member' !! "R"%string ≫= (.!! "b2"%string)
       = MetricsReader.history owner !! "R"%string ≫= (.!! "b2"%string)
    /\ MetricsReader.history owner !! "R"%string ≫= (.!! "b1"%string) <> None.
Proof.
  intros owner member.
  destruct (MetricsReader.readFromOwner 3
              (fst (MetricsReader.GetBackendMetrics
                      (MetricsReader.marshalHistory ["b2"%string] owner)))
              ["b2"%string] member) as [member' |] eqn:Hread;
    [| vm_compute in Hread; discriminate Hread].
  exists member'. split; [reflexivity |].
  pose proof (member_learns_shared_history ["b2"%string] owner member member' 3
                ["b2"%string] Hread) as Hlearn.
  split; [| split].
  - destruct (Hlearn "R"%string "b1"%string) as (Hout & _ & _).
    rewrite Hout; [reflexivity |]. intros Hin. apply list_elem_of_In in Hin.
    destruct Hin as [Habs | []]. discriminate Habs.
  - destruct (Hlearn "R"%string "b2"%string) as (_ & _ & Hnew).
    apply Hnew; [apply list_elem_of_In; now left | reflexivity].
  - vm_compute. discriminate.
Defined.

(* ===================================================================== *)
(** * Properties of the recording of a scrape                              *)
(* ===================================================================== *)

Section RecordProperties.
Import MetricsReader.
Context {MetricFamily : Type}.

(** A loop over a map whose body, for the key it is at, changes at most
    the entry of the accumulator under that key. *)
Lemma map_fold_pointwise_lookup {A B}
    (f : string -> B -> gmap string A -> gmap string A)
    (g : string -> B -> option A -> option A) :
  (forall key b acc k,
     f key b acc !! k = if decide (key = k) then g key b (acc !! key) else acc !! k) ->
  forall (m0 : gmap string A) (m : gmap string B) (k : string),
  map_fold f m0 m !! k
  = match m !! k with
    | Some b => g k b (m0 !! k)
    | None => m0 !! k
    end.
Proof.
  intros Hf m0 m.
  apply (map_fold_weak_ind
           (fun r (m : gmap string B) =>
              forall k, r !! k = match m !! k with
                                 | Some b => g k b (m0 !! k)
                                 | None => m0 !! k
                                 end)).
  - intros k. now rewrite lookup_empty.
  - intros i x m' r Hfresh IH k. rewrite Hf.
    destruct (decide (i = k)) as [-> | Hne].
    + rewrite lookup_insert_eq. now rewrite IH, Hfresh.
    + rewrite lookup_insert_ne by done. apply IH.
Qed.

Lemma metric2History_lookup (now : Z) (mfs : gmap string MetricFamily)
    (backend : string) (br : BackendReader MetricFamily) (ruleKey : string) :
  history (metric2History now mfs backend br) !! ruleKey
  = match queryRules br !! ruleKey with
    | Some rule => recordRule now mfs backend rule (history br !! ruleKey)
    | None => history br !! ruleKey
    end.
Proof.
  unfold metric2History. cbn [history setHistory].
  apply (map_fold_pointwise_lookup _ (fun _ rule => recordRule now mfs backend rule)).
  intros key rule acc k. unfold recordRule.
  destruct (forallb _ (Names rule)); [| now destruct (decide (key = k)) as [-> |]].
  destruct (isNaN (Metric2Value rule mfs)); [now destruct (decide (key = k)) as [-> |] |].
  destruct (isNaN (Range2Value rule _));
    (destruct (decide (key = k)) as [-> | Hne];
     [now rewrite lookup_insert_eq | now rewrite lookup_insert_ne]).
Qed.

End RecordProperties.

Section RecordEntries.
Import MetricsReader.
Context {MetricFamily : Type}.

(** An entry of the history of a rule after the body of the loop: it was
    there before, or it is the entry of the backend with one sample more
    in each buffer. *)
Lemma recordRule_entry (now : Z) (mfs : gmap string MetricFamily) (backend : string)
    (rule : QueryRule MetricFamily) (old : option (gmap string backendHistory))
    (b : string) :
  let before := old ≫= (.!! b) in
  let after := recordRule now mfs backend rule old ≫= (.!! b) in
  after = before
  \/ (b = backend
      /\ exists v1 v2,
           after = Some {| Step1History :=
                             Step1History (default noHistory before)
                               ++ [{| Timestamp := now; pValue := v1 |}];
                           Step2History :=
                             Step2History (default noHistory before)
                               ++ [{| Timestamp := now; pValue := v2 |}] |}).
Proof.
  cbv zeta. unfold recordRule.
  destruct (forallb _ (Names rule)); [| now left].
  destruct (isNaN (Metric2Value rule mfs)); [now left |].
  destruct (isNaN (Range2Value rule _)).
  - left. destruct old as [rh |]; cbn; [reflexivity | apply lookup_empty].
  - destruct (decide (backend = b)) as [<- | Hne].
    + right. split; [reflexivity |]. cbn. rewrite lookup_insert_eq.
      destruct old as [rh |]; cbn; [eexists _, _; reflexivity |].
      rewrite lookup_empty. eexists _, _. reflexivity.
    + left. cbn. rewrite lookup_insert_ne by exact Hne.
      destruct old as [rh |]; cbn; [reflexivity | apply lookup_empty].
Qed.

Lemma metric2History_entry (now : Z) (mfs : gmap string MetricFamily) (backend : string)
    (br : BackendReader MetricFamily) (ruleKey b : string) :
  let before := history br !! ruleKey ≫= (.!! b) in
  let after := history (metric2History now mfs backend br) !! ruleKey ≫= (.!! b) in
  after = before
  \/ (b = backend
      /\ exists v1 v2,
           after = Some {| Step1History :=
                             Step1History (default noHistory before)
                               ++ [{| Timestamp := now; pValue := v1 |}];
                           Step2History :=
                             Step2History (default noHistory before)
                               ++ [{| Timestamp := now; pValue := v2 |}] |}).
Proof.
  cbv zeta. rewrite metric2History_lookup.
  destruct (queryRules br !! ruleKey) as [rule |]; [| now left].
  apply recordRule_entry.
Qed.

Lemma nondecreasing_snoc (l : list SamplePair) (x : SamplePair) :
  nondecreasing l -> (forall s, In s l -> Timestamp s <= Timestamp x) ->
  nondecreasing (l ++ [x]).
Proof.
  unfold nondecreasing. induction l as [| a l IH]; intros Hs Hle; cbn [app].
  - repeat constructor.
  - inversion Hs as [| a' l' Hs' Hhd]; subst. constructor.
    + apply IH; [exact Hs' |]. intros s Hin. apply Hle. now right.
    + destruct l as [| c l]; cbn [app]; constructor.
      * apply Hle. now left.
      * now inversion Hhd.
Qed.

Lemma lookup_both {A} (h : gmap string (gmap string A)) (ruleKey b : string) (x : A) :
  h !! ruleKey ≫= (.!! b) = Some x
  <-> exists rh, h !! ruleKey = Some rh /\ rh !! b = Some x.
Proof.
  destruct (h !! ruleKey) as [rh |]; cbn.
  - split; [intros Hb; now exists rh | intros (rh' & Heq & Hb); now inversion Heq; subst].
  - split; [discriminate | intros (rh' & Heq & _); discriminate Heq].
Qed.

End RecordEntries.

(** X17.  [metric2History] only appends: for every rule, the entries of the
    other backends are as before, and the entry of the scraped backend is as
    before or has one sample more at the end of each of its two buffers,
    both stamped with the scrape instant; this happens exactly for the
    rules of the reader whose metrics are all there and whose two values
    are numbers. *)
Theorem metric2History_appends {MetricFamily : Type} (now : Z)
    (mfs : gmap string MetricFamily) (backend : string)
    (br : MetricsReader.BackendReader MetricFamily) (ruleKey b : string) :
  let before := MetricsReader.history br !! ruleKey ≫= (.!! b) in
  let after := MetricsReader.history (MetricsReader.metric2History now mfs backend br)
                 !! ruleKey ≫= (.!! b) in
  (b <> backend -> after = before)
  /\ (b = backend ->
      match MetricsReader.queryRules br !! ruleKey with
      | None => after = before
      | Some rule =>
          let old := default MetricsReader.noHistory before in
          let v1 := MetricsReader.Metric2Value rule mfs in
          let step1 := MetricsReader.Step1History old
                         ++ [{| MetricsReader.Timestamp := now;
                                MetricsReader.pValue := v1 |}] in
          let v2 := MetricsReader.Range2Value rule step1 in
          if forallb (fun name => bool_decide (is_Some (mfs !! name)))
                     (MetricsReader.Names rule)
             && negb (MetricsReader.isNaN v1) && negb (MetricsReader.isNaN v2)
          then after = Some {| MetricsReader.Step1History := step1;
                               MetricsReader.Step2History :=
                                 MetricsReader.Step2History old
                                   ++ [{| MetricsReader.Timestamp := now;
                                          MetricsReader.pValue := v2 |}] |}
          else after = before
      end).
Proof.
  cbv zeta. split.
  - intros Hne.
    destruct (metric2History_entry now mfs backend br ruleKey b) as [Heq | [Hb _]];
      [exact Heq | contradiction].
  - intros ->. rewrite metric2History_lookup.
    destruct (MetricsReader.queryRules br !! ruleKey) as [rule |]; [| reflexivity].
    unfold MetricsReader.recordRule.
    destruct (forallb _ (MetricsReader.Names rule)); cbn [andb]; [| reflexivity].
    destruct (MetricsReader.isNaN (MetricsReader.Metric2Value rule mfs)); cbn [negb andb];
      [reflexivity |].
    destruct (MetricsReader.history br !! ruleKey) as [rh |]; cbn [default mbind option_bind].
    + destruct (MetricsReader.isNaN (MetricsReader.Range2Value rule _)); cbn [negb].
      * reflexivity.
      * apply lookup_insert_eq.
    + rewrite lookup_empty. cbn [default].
      destruct (MetricsReader.isNaN (MetricsReader.Range2Value rule _)); cbn [negb].
      * apply lookup_empty.
      * apply lookup_insert_eq.
Qed.

Lemma metric2History_appends_witness :
  let br := MetricsScenario.afterTick1 in
  let after := MetricsReader.history
                 (MetricsReader.metric2History 16000 (MetricsScenario.metrics 7) "b2" br) in
  "b1"%string <> "b2"%string
  /\ after !! "R"%string ≫= (.!! "b1"%string)
     = MetricsReader.history br !! "R"%string ≫= (.!! "b1"%string)
  /\ (MetricsReader.Step1History <$> after !! "R"%string ≫= (.!! "b2"%string))
     = Some [MetricsScenario.sample 1000 6; MetricsScenario.sample 16000 7].
Proof.
  intros br after.
  assert (Hne : "b1"%string <> "b2"%string) by discriminate.
  split; [exact Hne |]. split; [| vm_compute; reflexivity].
  exact (proj1 (metric2History_appends 16000 (MetricsScenario.metrics 7) "b2" br
                  "R"%string "b1"%string) Hne).
Defined.

(** X18.  When no sample of the scraped backend is later than the scrape
    instant, [metric2History] keeps the timestamps of every buffer in
    non-decreasing order, the order [purgeHistory] relies on, and no sample
    of the backend is later than the scrape instant afterwards. *)
Theorem metric2History_keeps_order {MetricFamily : Type} (now : Z)
    (mfs : gmap string MetricFamily) (backend : string)
    (br : MetricsReader.BackendReader MetricFamily) :
  MetricsReader.allSorted (MetricsReader.history br) ->
  MetricsReader.notAfter now backend (MetricsReader.history br) ->
  MetricsReader.allSorted
    (MetricsReader.history (MetricsReader.metric2History now mfs backend br))
  /\ MetricsReader.notAfter now backend
       (MetricsReader.history (MetricsReader.metric2History now mfs backend br)).
Proof.
  intros Hsorted Hbound.
  assert (Hold : forall ruleKey b bh,
             MetricsReader.history br !! ruleKey ≫= (.!! b) = Some bh ->
             MetricsReader.nondecreasing (MetricsReader.Step1History bh)
             /\ MetricsReader.nondecreasing (MetricsReader.Step2History bh)).
  { intros ruleKey b bh Hl. apply lookup_both in Hl as (rh & Hrh & Hb).
    exact (Hsorted _ _ _ _ Hrh Hb). }
  assert (Hle : forall ruleKey bh s,
             MetricsReader.history br !! ruleKey ≫= (.!! backend) = Some bh ->
             In s (MetricsReader.Step1History bh ++ MetricsReader.Step2History bh) ->
             MetricsReader.Timestamp s <= now).
  { intros ruleKey bh s Hl. apply lookup_both in Hl as (rh & Hrh & Hb).
    exact (Hbound _ _ _ s Hrh Hb). }
  split.
  - intros ruleKey rh b bh Hrh Hb.
    assert (Hl : MetricsReader.history (MetricsReader.metric2History now mfs backend br)
                   !! ruleKey ≫= (.!! b) = Some bh)
      by (apply lookup_both; now exists rh).
    destruct (metric2History_entry now mfs backend br ruleKey b)
      as [Heq | (-> & v1 & v2 & Heq)]; rewrite Heq in Hl.
    + exact (Hold _ _ _ Hl).
    + inversion Hl; subst bh. clear Hl. cbn.
      destruct (MetricsReader.history br !! ruleKey ≫= (.!! backend)) as [old |] eqn:Eold;
        cbn [default MetricsReader.noHistory MetricsReader.Step1History
             MetricsReader.Step2History].
      * destruct (Hold _ _ _ Eold) as [H1 H2].
        split; apply nondecreasing_snoc; try assumption; intros s Hin; cbn;
          apply (Hle ruleKey old s Eold), in_or_app; auto.
      * split; repeat constructor.
  - intros ruleKey rh bh s Hrh Hb Hin.
    assert (Hl : MetricsReader.history (MetricsReader.metric2History now mfs backend br)
                   !! ruleKey ≫= (.!! backend) = Some bh)
      by (apply lookup_both; now exists rh).
    destruct (metric2History_entry now mfs backend br ruleKey backend)
      as [Heq | (_ & v1 & v2 & Heq)]; rewrite Heq in Hl.
    + exact (Hle _ _ _ Hl Hin).
    + inversion Hl; subst bh. clear Hl. cbn in Hin.
      assert (Hcases : s = {| MetricsReader.Timestamp := now; MetricsReader.pValue := v1 |}
                       \/ s = {| MetricsReader.Timestamp := now; MetricsReader.pValue := v2 |}
                       \/ In s (MetricsReader.Step1History
                                  (default MetricsReader.noHistory
                                     (MetricsReader.history br !! ruleKey ≫= (.!! backend)))
                                ++ MetricsReader.Step2History
                                     (default MetricsReader.noHistory
                                        (MetricsReader.history br !! ruleKey
                                           ≫= (.!! backend))))).
      { apply in_app_or in Hin as [Hin | Hin]; apply in_app_or in Hin as [Hin | [<- | []]];
          auto; right; right; apply in_or_app; auto. }
      destruct Hcases as [-> | [-> | Hin']]; [cbn; lia | cbn; lia |].
      destruct (MetricsReader.history br !! ruleKey ≫= (.!! backend)) as [old |] eqn:Eold.
      * exact (Hle _ _ _ Eold Hin').
      * destruct Hin'.
Qed.

Lemma metric2History_keeps_order_witness :
  let br := MetricsScenario.scrapedTwice in
  let br' := MetricsReader.metric2History 16000 (MetricsScenario.metrics 7) "b2" br in
  MetricsReader.allSorted (MetricsReader.history br)
  /\ MetricsReader.notAfter 16000 "b2" (MetricsReader.history br)
  /\ MetricsReader.history br !! "R"%string ≫= (.!! "b2"%string)
     = Some MetricsScenario.twoSamples
  /\ MetricsReader.history br' !! "R"%string ≫= (.!! "b2"%string)
     = Some {| MetricsReader.Step1History :=
                 [MetricsScenario.sample 1000 6; MetricsScenario.sample 8000 6;
                  MetricsScenario.sample 16000 7];
               MetricsReader.Step2History :=
                 [MetricsScenario.sample 1000 6; MetricsScenario.sample 8000 6;
                  MetricsScenario.sample 16000 7] |}
  /\ MetricsReader.allSorted (MetricsReader.history br')
  /\ MetricsReader.notAfter 16000 "b2" (MetricsReader.history br').
Proof.
  intros br br'.
  assert (Hentry : forall ruleKey rh b bh,
             MetricsReader.history br !! ruleKey = Some rh -> rh !! b = Some bh ->
             b = "b2"%string /\ bh = MetricsScenario.twoSamples).
  { intros ruleKey rh b bh Hrh Hb.
    change (MetricsReader.history br)
      with ({[ "R"%string := {[ "b2"%string := MetricsScenario.twoSamples ]} ]}
            : gmap string (gmap string MetricsReader.backendHistory)) in Hrh.
    apply lookup_singleton_Some in Hrh as [_ <-].
    apply lookup_singleton_Some in Hb as [<- <-]. now split. }
  assert (Hs : MetricsReader.allSorted (MetricsReader.history br)).
  { intros ruleKey rh b bh Hrh Hb. destruct (Hentry _ _ _ _ Hrh Hb) as [_ ->].
    unfold MetricsReader.nondecreasing. split; repeat constructor; cbn; lia. }
  assert (Hb : MetricsReader.notAfter 16000 "b2" (MetricsReader.history br)).
  { intros ruleKey rh bh s Hrh Hl Hin. destruct (Hentry _ _ _ _ Hrh Hl) as [_ ->].
    cbn in Hin. destruct Hin as [<- | [<- | [<- | [<- | []]]]]; cbn; lia. }
  split; [exact Hs |]. split; [exact Hb |].
  split; [vm_compute; reflexivity |]. split; [vm_compute; reflexivity |].
  exact (metric2History_keeps_order 16000 (MetricsScenario.metrics 7) "b2" br Hs Hb).
Defined.

(* ===================================================================== *)
(** * Properties of the merge of the results                               *)
(* ===================================================================== *)

Section TypedResults.
Import MetricsReader.
Context {MetricFamily : Type}.

Lemma history2Value_typed (backend : string) (br : BackendReader MetricFamily)
    (ruleKey : string) (value : Value) :
  history2Value backend br !! ruleKey = Some value ->
  wellFormedValue (queryRules br) ruleKey value.
Proof.
  unfold history2Value, wellFormedValue. rewrite map_lookup_imap.
  destruct (queryRules br !! ruleKey) as [rule |]; cbn; [| discriminate].
  destruct (size (default ∅ (history br !! ruleKey)) =? 0)%nat; [discriminate |].
  destruct (last (Step2History _)) as [lastPair |]; [| discriminate].
  destruct (ResultType rule) eqn:Ht; try discriminate; intros Hv; inversion Hv; subst;
    exists rule; (split; [reflexivity |]); (split; [now rewrite Ht |]); eauto.
Qed.

(** Merging values of the rules' types into results of the rules' types
    does not panic and leaves results of the rules' types. *)
Lemma mergeQueryResult_typed (now : Z) (values : gmap string Value) (backend : string)
    (br : BackendReader MetricFamily) :
  resultsTyped br ->
  (forall k v, values !! k = Some v -> wellFormedValue (queryRules br) k v) ->
  exists br', mergeQueryResult now values backend br = Some br'
              /\ resultsTyped br'
              /\ queryRules br' = queryRules br /\ history br' = history br.
Proof.
  intros Htyped Hvalues. unfold mergeQueryResult.
  assert (Hfold : exists res,
    map_fold
      (fun ruleKey value (acc : option (gmap string QueryResult)) =>
         results ← acc;
         result ← mergeValue now (default emptyResult (results !! ruleKey)) value backend;
         Some (<[ruleKey := result]> results))
      (Some (queryResults br)) values = Some res
    /\ forall ruleKey rule result value,
         queryRules br !! ruleKey = Some rule -> res !! ruleKey = Some result ->
         qValue result = Some value -> typeOf value = ResultType rule).
  { revert Hvalues.
    apply (map_fold_weak_ind
             (fun (acc : option (gmap string QueryResult)) (m : gmap string Value) =>
                (forall k v, m !! k = Some v -> wellFormedValue (queryRules br) k v) ->
                exists res, acc = Some res
                  /\ forall ruleKey rule result value,
                       queryRules br !! ruleKey = Some rule -> res !! ruleKey = Some result ->
                       qValue result = Some value -> typeOf value = ResultType rule)).
    - intros _. exists (queryResults br). split; [reflexivity | exact Htyped].
    - intros i x m r Hfresh IH Hm.
      destruct IH as (res & -> & Hres).
      { intros k v Hk. apply Hm. rewrite lookup_insert_ne; [exact Hk |].
        intros ->. congruence. }
      destruct (Hm i x (lookup_insert_eq _ _ _)) as (rule & Hrule & Htype & Hshape).
      cbn [mbind option_bind].
      assert (Hmv : exists result,
                 mergeValue now (default emptyResult (res !! i)) x backend = Some result
                 /\ forall value, qValue result = Some value ->
                                  typeOf value = ResultType rule).
      { unfold mergeValue.
        destruct (res !! i) as [old |] eqn:Hold; cbn [from_option id].
        - destruct (qValue old) as [[vec | mat | y t | y t] |] eqn:Hq.
          + pose proof (Hres i rule old _ Hrule Hold Hq) as Ht. cbn in Ht.
            destruct Hshape as [[v0 ->] | [v0 ->]]; [| cbn in Htype; congruence].
            eexists. split; [reflexivity |]. cbn. intros value Hv.
            inversion Hv; subst. exact Ht.
          + pose proof (Hres i rule old _ Hrule Hold Hq) as Ht. cbn in Ht.
            destruct Hshape as [[v0 ->] | [v0 ->]]; [cbn in Htype; congruence |].
            eexists. split; [reflexivity |]. cbn. intros value Hv.
            inversion Hv; subst. exact Ht.
          + eexists. split; [reflexivity |]. cbn. intros value Hv.
            inversion Hv; subst. exact (Hres i rule old _ Hrule Hold Hq).
          + eexists. split; [reflexivity |]. cbn. intros value Hv.
            inversion Hv; subst. exact (Hres i rule old _ Hrule Hold Hq).
          + eexists. split; [reflexivity |]. cbn. intros value Hv.
            inversion Hv; subst. exact Htype.
        - cbn. eexists. split; [reflexivity |]. cbn. intros value Hv.
          inversion Hv; subst. exact Htype. }
      destruct Hmv as (result & -> & Hresult). cbn.
      eexists. split; [reflexivity |].
      intros ruleKey rule' result' value Hr Hl Hq.
      destruct (decide (i = ruleKey)) as [<- | Hne].
      + rewrite lookup_insert_eq in Hl. inversion Hl; subst result'.
        rewrite Hrule in Hr. inversion Hr; subst rule'. now apply Hresult.
      + rewrite lookup_insert_ne in Hl by exact Hne.
        exact (Hres ruleKey rule' result' value Hr Hl Hq). }
  destruct Hfold as (res & -> & Hres). cbn.
  eexists. split; [reflexivity |]. split; [exact Hres | split; reflexivity].
Qed.

Lemma scrapeBackend_typed (now mono : Z) (mfs : gmap string MetricFamily)
    (address : string) (br : BackendReader MetricFamily) :
  resultsTyped br ->
  exists br', scrapeBackend now mono mfs address br = Some br'
              /\ resultsTyped br' /\ queryRules br' = queryRules br.
Proof.
  intros Htyped. unfold scrapeBackend.
  set (br1 := metric2History (Z.quot now 1000000) mfs address br).
  destruct (mergeQueryResult_typed mono (history2Value address br1) address br1)
    as (br' & Hm & Ht & Hr & _).
  - exact Htyped.
  - intros k v. apply history2Value_typed.
  - exists br'. split; [exact Hm | split; [exact Ht | exact Hr]].
Qed.

End TypedResults.

(** X19.  A tick over the backends does not panic when every stored
    result is nil or has the type its rule asks for, as in a new reader,
    and the results are of that kind again afterwards: the type
    assertions of [mergeQueryResult] and its index 0 are then safe. *)
Theorem scrapeBackends_never_panics {MetricFamily : Type} (now mono : Z)
    (scraped : list (string * option (gmap string MetricFamily)))
    (br : MetricsReader.BackendReader MetricFamily) :
  MetricsReader.resultsTyped br ->
  exists br', MetricsReader.scrapeBackends now mono scraped br = Some br'
              /\ MetricsReader.resultsTyped br'
              /\ MetricsReader.queryRules br' = MetricsReader.queryRules br.
Proof.
  revert br. induction scraped as [| [address [mfs |]] scraped IH]; intros br Htyped;
    cbn [MetricsReader.scrapeBackends].
  - exists br. split; [reflexivity | split; [exact Htyped | reflexivity]].
  - destruct (scrapeBackend_typed now mono mfs address br Htyped) as (br1 & -> & Ht1 & Hr1).
    cbn [mbind option_bind].
    destruct (IH br1 Ht1) as (br' & Hs & Ht & Hr).
    exists br'. split; [exact Hs | split; [exact Ht | now rewrite Hr]].
  - exact (IH br Htyped).
Qed.

Lemma scrapeBackends_never_panics_witness :
  MetricsReader.resultsTyped MetricsScenario.owner
  /\ exists br', MetricsReader.scrapeBackends 1000000000 1 MetricsScenario.tick1
                   MetricsScenario.owner = Some br'
                 /\ MetricsReader.resultsTyped br'.
Proof.
  assert (Ht : MetricsReader.resultsTyped MetricsScenario.owner).
  { intros ruleKey rule result value _ Hres. cbn in Hres.
    now rewrite lookup_empty in Hres. }
  split; [exact Ht |].
  destruct (scrapeBackends_never_panics 1000000000 1 MetricsScenario.tick1
              MetricsScenario.owner Ht) as (br' & Hs & Ht' & _).
  exists br'. split; [exact Hs | exact Ht'].
Defined.

Section DistinctInstances.
Import MetricsReader.
Context {MetricFamily : Type}.

(** Replacing or appending an element of the backend leaves the instance
    labels as they are, or adds the backend at the end. *)
Lemma replaceOrAppend_instances {A} (metric : A -> Metric) (backend : string) (v0 : A)
    (l : list A) :
  label (metric v0) LabelNameInstance = backend ->
  map (fun v => label (metric v) LabelNameInstance) (replaceOrAppend metric backend v0 l)
  = if decide (backend ∈ map (fun v => label (metric v) LabelNameInstance) l)
    then map (fun v => label (metric v) LabelNameInstance) l
    else map (fun v => label (metric v) LabelNameInstance) l ++ [backend].
Proof.
  intros Hv0. induction l as [| v l IH]; cbn [replaceOrAppend map].
  - rewrite Hv0. destruct (decide (backend ∈ [])) as [Hin | _]; [| reflexivity].
    now apply elem_of_nil in Hin.
  - destruct (String.eqb_spec (label (metric v) LabelNameInstance) backend) as [Heq | Hne];
      cbn [map].
    + rewrite Hv0, Heq. destruct (decide (backend ∈ backend :: _)) as [_ | Hnin];
        [reflexivity |]. exfalso. apply Hnin. now left.
    + rewrite IH.
      destruct (decide (backend ∈ map (fun v => label (metric v) LabelNameInstance) l))
        as [Hin | Hnin];
        destruct (decide (backend ∈ label (metric v) LabelNameInstance
                                      :: map (fun v => label (metric v) LabelNameInstance) l))
        as [Hin' | Hnin']; try reflexivity.
      * exfalso. apply Hnin'. now right.
      * exfalso. apply elem_of_cons in Hin' as [Heq | Hin']; [now symmetry in Heq | auto].
Qed.

Lemma NoDup_instances_merged {A} (metric : A -> Metric) (backend : string) (v0 : A)
    (l : list A) :
  label (metric v0) LabelNameInstance = backend ->
  NoDup (map (fun v => label (metric v) LabelNameInstance) l) ->
  NoDup (map (fun v => label (metric v) LabelNameInstance)
             (replaceOrAppend metric backend v0 l)).
Proof.
  intros Hv0 Hnd. rewrite (replaceOrAppend_instances metric backend v0 l Hv0).
  destruct (decide (backend ∈ _)) as [Hin | Hnin]; [exact Hnd |].
  apply NoDup_app. split; [exact Hnd |]. split; [| apply NoDup_singleton].
  intros x Hx Hx'. apply list_elem_of_singleton in Hx'. now subst.
Qed.

Lemma mergeQueryResult_distinct (now : Z) (backend : string)
    (br br' : BackendReader MetricFamily) :
  mergeQueryResult now (history2Value backend br) backend br = Some br' ->
  instancesDistinct br -> instancesDistinct br'.
Proof.
  intros Hm Hnd ruleKey result' Hres.
  pose proof (mergeQueryResult_lookup now _ backend br br' Hm ruleKey) as Hk.
  destruct (history2Value backend br !! ruleKey) as [value |] eqn:Hv.
  - destruct Hk as (result & Hmv & Hres'). rewrite Hres in Hres'.
    inversion Hres'; subst result. clear Hres'.
    assert (Hold : NoDup (instances (default emptyResult (queryResults br !! ruleKey)))).
    { destruct (queryResults br !! ruleKey) as [old |] eqn:Eold; cbn.
      - exact (Hnd _ _ Eold).
      - constructor. }
    apply history2Value_shape in Hv.
    unfold mergeValue in Hmv. unfold instances in *.
    destruct Hv as [(s & -> & Hs) | (ss & -> & Hs)];
      destruct (qValue (default emptyResult (queryResults br !! ruleKey)))
        as [[vec | mat | y t | y t] |];
      try discriminate Hmv; inversion Hmv; subst result'; cbn [qValue];
      first [ rewrite merged_slice; now apply NoDup_instances_merged
            | cbn [map]; apply NoDup_singleton
            | apply NoDup_nil_2 ].
  - rewrite Hk in Hres. exact (Hnd _ _ Hres).
Qed.

End DistinctInstances.

(** X20.  A tick keeps the results free of duplicates: when no stored
    result has two elements with the same instance label, none has
    afterwards, however often a backend is scraped. *)
Theorem scrapeBackends_keeps_instances_distinct {MetricFamily : Type} (now mono : Z)
    (scraped : list (string * option (gmap string MetricFamily)))
    (br br' : MetricsReader.BackendReader MetricFamily) :
  MetricsReader.scrapeBackends now mono scraped br = Some br' ->
  MetricsReader.instancesDistinct br -> MetricsReader.instancesDistinct br'.
Proof.
  revert br. induction scraped as [| [address [mfs |]] scraped IH]; intros br Hs Hnd;
    cbn [MetricsReader.scrapeBackends] in Hs.
  - now inversion Hs; subst.
  - destruct (MetricsReader.scrapeBackend now mono mfs address br) as [br1 |] eqn:Hb;
      [| discriminate Hs].
    cbn [mbind option_bind] in Hs. apply (IH br1 Hs).
    unfold MetricsReader.scrapeBackend in Hb.
    apply (mergeQueryResult_distinct _ _ _ _ Hb).
    exact Hnd.
  - exact (IH br Hs Hnd).
Qed.

Lemma scrapeBackends_keeps_instances_distinct_witness :
  let scraped := [("b1"%string, Some (MetricsScenario.metrics 5));
                  ("b2"%string, Some (MetricsScenario.metrics 6));
                  ("b2"%string, Some (MetricsScenario.metrics 7))] in
  MetricsReader.instancesDistinct MetricsScenario.owner
  /\ exists br',
       MetricsReader.scrapeBackends 1000000000 1 scraped MetricsScenario.owner = Some br'
       /\ MetricsReader.instancesDistinct br'.
Proof.
  intros scraped.
  assert (Hnd : MetricsReader.instancesDistinct MetricsScenario.owner).
  { intros ruleKey result Hres. cbn in Hres. now rewrite lookup_empty in Hres. }
  split; [exact Hnd |].
  destruct (MetricsReader.scrapeBackends 1000000000 1 scraped MetricsScenario.owner)
    as [br' |] eqn:Hs; [| vm_compute in Hs; discriminate Hs].
  exists br'. split; [reflexivity |].
  exact (scrapeBackends_keeps_instances_distinct 1000000000 1 scraped
           MetricsScenario.owner br' Hs Hnd).
Defined.

(* ===================================================================== *)
(** * Further properties of the history                                    *)
(* ===================================================================== *)

Section HistoryMaintenance.
Import MetricsReader.
Context {MetricFamily : Type}.

Lemma purgeMethod_lookup (now : Time.Time) (br : BackendReader MetricFamily)
    (ruleKey : string) :
  history (BackendReader_purgeHistory now br) !! ruleKey
  = match queryRules br !! ruleKey with
    | None => None
    | Some rule =>
        map_imap (fun _ bh => purgeEntry (Retention rule) now bh) <$> history br !! ruleKey
    end.
Proof.
  unfold BackendReader_purgeHistory. cbn [history setHistory].
  rewrite map_lookup_imap.
  destruct (history br !! ruleKey) as [rh |]; cbn.
  - now destruct (queryRules br !! ruleKey).
  - now destruct (queryRules br !! ruleKey).
Qed.

Lemma purgeMethod_entry (now : Time.Time) (br : BackendReader MetricFamily)
    (ruleKey b : string) :
  history (BackendReader_purgeHistory now br) !! ruleKey ≫= (.!! b)
  = match queryRules br !! ruleKey with
    | None => None
    | Some rule =>
        (history br !! ruleKey ≫= (.!! b)) ≫= purgeEntry (Retention rule) now
    end.
Proof.
  rewrite purgeMethod_lookup.
  destruct (queryRules br !! ruleKey) as [rule |]; [| reflexivity].
  destruct (history br !! ruleKey) as [rh |]; cbn; [| reflexivity].
  rewrite map_lookup_imap. reflexivity.
Qed.

Lemma purgeEntry_idempotent (retention : Time.Duration) (now : Time.Time)
    (bh bh' : backendHistory) :
  purgeEntry retention now bh = Some bh' -> purgeEntry retention now bh' = Some bh'.
Proof.
  unfold purgeEntry.
  destruct ((length (purgeHistory (Step1History bh) retention now) =? 0)%nat
            && (length (purgeHistory (Step2History bh) retention now) =? 0)%nat) eqn:E;
    [discriminate |].
  intros Heq. inversion Heq; subst bh'. clear Heq. cbn [Step1History Step2History].
  rewrite !purgeHistory_idempotent. now rewrite E.
Qed.

Lemma purgeEntry_not_empty (retention : Time.Duration) (now : Time.Time)
    (bh bh' : backendHistory) :
  purgeEntry retention now bh = Some bh' ->
  Step1History bh' <> [] \/ Step2History bh' <> [].
Proof.
  unfold purgeEntry.
  destruct (purgeHistory (Step1History bh) retention now) as [| x s1] eqn:E1;
    destruct (purgeHistory (Step2History bh) retention now) as [| y s2] eqn:E2;
    cbn; try discriminate; intros Heq; inversion Heq; subst bh'; cbn;
    [right | left | left]; discriminate.
Qed.

Lemma mergeStep_idempotent (local new : list SamplePair) :
  mergeStep (mergeStep local new) new = mergeStep local new.
Proof.
  unfold mergeStep.
  destruct (last local) as [l |] eqn:Hl.
  - destruct (last new) as [n |] eqn:Hn; [| now rewrite Hl].
    destruct (tsAfter (Timestamp n) (Timestamp l)) eqn:Ht.
    + rewrite Hn. unfold tsAfter. now rewrite Z.ltb_irrefl.
    + now rewrite Hl, Ht.
  - destruct (last new) as [n |] eqn:Hn; [| reflexivity].
    unfold tsAfter. now rewrite Z.ltb_irrefl.
Qed.

Lemma mergeStep_self (new : list SamplePair) : mergeStep new new = new.
Proof.
  unfold mergeStep. destruct (last new) as [n |]; [| reflexivity].
  unfold tsAfter. now rewrite Z.ltb_irrefl.
Qed.

Lemma mergeBackend_idempotent (local new : backendHistory) :
  mergeBackend (mergeBackend local new) new = mergeBackend local new.
Proof. unfold mergeBackend. cbn. now rewrite !mergeStep_idempotent. Qed.

Lemma mergeBackend_self (new : backendHistory) : mergeBackend new new = new.
Proof. unfold mergeBackend. rewrite !mergeStep_self. now destruct new. Qed.

Lemma mergeRule_idempotent (local new : gmap string backendHistory) :
  mergeRule (mergeRule local new) new = mergeRule local new.
Proof.
  apply map_eq. intros b. rewrite !mergeRule_lookup.
  destruct (new !! b) as [n |]; [| reflexivity].
  destruct (local !! b) as [l |].
  - now rewrite mergeBackend_idempotent.
  - now rewrite mergeBackend_self.
Qed.

Lemma mergeRule_self (new : gmap string backendHistory) : mergeRule new new = new.
Proof.
  apply map_eq. intros b. rewrite mergeRule_lookup.
  destruct (new !! b) as [n |]; [| reflexivity]. now rewrite mergeBackend_self.
Qed.

End HistoryMaintenance.

(** X21.  Merging the same history of an owner twice is the same as
    merging it once: a response that is read again changes nothing. *)
Theorem mergeHistory_idempotent {MetricFamily : Type}
    (newHistory : gmap string (gmap string MetricsReader.backendHistory))
    (br : MetricsReader.BackendReader MetricFamily) :
  MetricsReader.mergeHistory newHistory (MetricsReader.mergeHistory newHistory br)
  = MetricsReader.mergeHistory newHistory br.
Proof.
  assert (Hh : MetricsReader.history
                 (MetricsReader.mergeHistory newHistory
                    (MetricsReader.mergeHistory newHistory br))
               = MetricsReader.history (MetricsReader.mergeHistory newHistory br)).
  { apply map_eq. intros ruleKey. rewrite !mergeHistory_lookup.
    destruct (newHistory !! ruleKey) as [n |]; [| reflexivity].
    destruct (MetricsReader.history br !! ruleKey) as [l |].
    - now rewrite mergeRule_idempotent.
    - now rewrite mergeRule_self. }
  unfold MetricsReader.mergeHistory at 1 3. unfold MetricsReader.setHistory.
  cbn [MetricsReader.queryRules MetricsReader.queryResults
       MetricsReader.marshalledHistory].
  f_equal. exact Hh.
Qed.

(** X22.  The purge of the reader, entry by entry: the history of a rule
    that is no longer among the rules is dropped; an entry of a rule that
    is there keeps in each buffer what [purgeHistory] keeps with the
    retention of the rule, and is dropped when both buffers become empty,
    so no entry is left with two empty buffers; purging again at the same
    instant changes nothing. *)
Theorem BackendReader_purgeHistory_exact {MetricFamily : Type} (now : Time.Time)
    (br : MetricsReader.BackendReader MetricFamily) :
  (forall ruleKey b : string,
     MetricsReader.history (MetricsReader.BackendReader_purgeHistory now br)
       !! ruleKey ≫= (.!! b)
     = match MetricsReader.queryRules br !! ruleKey with
       | None => None
       | Some rule =>
           (MetricsReader.history br !! ruleKey ≫= (.!! b))
             ≫= MetricsReader.purgeEntry (MetricsReader.Retention rule) now
       end)
  /\ (forall ruleKey : string,
        MetricsReader.queryRules br !! ruleKey = None ->
        MetricsReader.history (MetricsReader.BackendReader_purgeHistory now br)
          !! ruleKey = None)
  /\ (forall ruleKey b bh,
        MetricsReader.history (MetricsReader.BackendReader_purgeHistory now br)
          !! ruleKey ≫= (.!! b) = Some bh ->
        MetricsReader.Step1History bh <> [] \/ MetricsReader.Step2History bh <> [])
  /\ MetricsReader.BackendReader_purgeHistory now
       (MetricsReader.BackendReader_purgeHistory now br)
     = MetricsReader.BackendReader_purgeHistory now br.
Proof.
  split; [intros ruleKey b; apply purgeMethod_entry |]. split; [| split].
  - intros ruleKey Hnone. rewrite purgeMethod_lookup. now rewrite Hnone.
  - intros ruleKey b bh. rewrite purgeMethod_entry.
    destruct (MetricsReader.queryRules br !! ruleKey) as [rule |]; [| discriminate].
    destruct (MetricsReader.history br !! ruleKey ≫= (.!! b)) as [old |]; [| discriminate].
    cbn. apply purgeEntry_not_empty.
  - assert (Hh : MetricsReader.history
                   (MetricsReader.BackendReader_purgeHistory now
                      (MetricsReader.BackendReader_purgeHistory now br))
                 = MetricsReader.history (MetricsReader.BackendReader_purgeHistory now br)).
    { apply map_eq. intros ruleKey.
      rewrite (purgeMethod_lookup now (MetricsReader.BackendReader_purgeHistory now br)).
      change (MetricsReader.queryRules (MetricsReader.BackendReader_purgeHistory now br))
        with (MetricsReader.queryRules br).
      rewrite purgeMethod_lookup.
      destruct (MetricsReader.queryRules br !! ruleKey) as [rule |]; [| reflexivity].
      destruct (MetricsReader.history br !! ruleKey) as [rh |]; cbn; [| reflexivity].
      f_equal. apply map_eq. intros b. rewrite !map_lookup_imap.
      destruct (rh !! b) as [bh |]; cbn; [| reflexivity].
      destruct (MetricsReader.purgeEntry (MetricsReader.Retention rule) now bh)
        as [bh' |] eqn:E; cbn; [| reflexivity].
      exact (purgeEntry_idempotent _ _ bh bh' E). }
    unfold MetricsReader.BackendReader_purgeHistory at 1 3.
    unfold MetricsReader.setHistory.
    cbn [MetricsReader.queryRules MetricsReader.queryResults
         MetricsReader.marshalledHistory].
    f_equal. exact Hh.
Qed.

(* ===================================================================== *)
(** * Properties of the owner keys                                         *)
(* ===================================================================== *)

Section OwnerKeys.
Import MetricsReader.

Lemma sliceFrom_app (a b : string) : sliceFrom (String.length a) (a ++ b) = b.
Proof.
  induction a as [| x a IH]; [apply sliceFrom_0 |].
  rewrite append_cons. cbn [String.length]. now rewrite sliceFrom_cons.
Qed.

Lemma sliceFrom_app_slash (a b : string) :
  sliceFrom (String.length a + 1) (a ++ String "/" b) = b.
Proof.
  induction a as [| x a IH].
  - cbn [String.length Nat.add]. rewrite append_nil_l, sliceFrom_cons. apply sliceFrom_0.
  - rewrite append_cons. cbn [String.length Nat.add]. now rewrite sliceFrom_cons.
Qed.

Lemma substring_app_l (a b : string) :
  String.substring 0 (String.length a) (a ++ b) = a.
Proof.
  induction a as [| x a IH]; [now destruct b |].
  rewrite append_cons. cbn [String.length String.substring]. now f_equal.
Qed.

Lemma length_append (a b : string) :
  String.length (a ++ b) = (String.length a + String.length b)%nat.
Proof.
  induction a as [| x a IH]; [reflexivity |].
  rewrite append_cons. cbn [String.length]. now rewrite IH.
Qed.

Lemma index_slash_app (zone rest : string) :
  noSlash zone = true ->
  String.index 0 "/" (zone ++ String "/" rest) = Some (String.length zone).
Proof.
  induction zone as [| c zone IH]; intros Hz.
  - rewrite append_nil_l. cbn [String.index String.prefix].
    destruct (ascii_dec "/" "/") as [_ | Hne]; [| contradiction]. now destruct rest.
  - cbn [noSlash] in Hz. apply andb_prop in Hz as [Hc Hz]. apply negb_true_iff in Hc.
    rewrite append_cons. cbn [String.index String.prefix String.length].
    destruct (ascii_dec "/" c) as [<- | Hne]; [discriminate Hc |].
    now rewrite (IH Hz).
Qed.

Lemma prefix_app (a b : string) : String.prefix a (a ++ b) = true.
Proof.
  induction a as [| x a IH]; [now destruct b |].
  rewrite append_cons. cbn [String.prefix].
  destruct (ascii_dec x x) as [_ | Hne]; [exact IH | contradiction].
Qed.

(** A word without a slash begins a zone followed by a slash only when it
    begins the zone. *)
Lemma prefix_before_slash (word zone rest : string) :
  noSlash word = true ->
  String.prefix word (zone ++ String "/" rest) = String.prefix word zone.
Proof.
  revert zone. induction word as [| a word IH]; intros zone Hw.
  - now destruct zone.
  - cbn [noSlash] in Hw. apply andb_prop in Hw as [Ha Hw]. apply negb_true_iff in Ha.
    destruct zone as [| z zone].
    + rewrite append_nil_l. cbn [String.prefix].
      destruct (ascii_dec a "/") as [-> | _]; [discriminate Ha | reflexivity].
    + rewrite append_cons. cbn [String.prefix].
      destruct (ascii_dec a z); [now apply IH | reflexivity].
Qed.

End OwnerKeys.

(** X23.  The keys of the election are read back as they were made: for a
    zone without a slash that does not begin with "owner", a key that
    begins with the key [initElection] campaigns with for that zone is
    classified by [queryAllOwners] as a key of that zone, the key of the
    empty zone as the key of the global owner. *)
Theorem classify_electionKey (zone tail : string) :
  MetricsReader.noSlash zone = true ->
  String.prefix MetricsReader.readerOwnerKeySuffix zone = false ->
  MetricsReader.classify (MetricsReader.electionKey zone ++ tail)
  = MetricsReader.KeyOf zone.
Proof.
  intros Hslash Hword. unfold MetricsReader.classify, MetricsReader.electionKey.
  destruct zone as [| z zone].
  - change (0 <? String.length "")%nat with false. cbv iota.
    assert (Hkey : ((MetricsReader.readerOwnerKeyPrefix ++ "/"
                       ++ MetricsReader.readerOwnerKeySuffix) ++ tail)%string
                   = (MetricsReader.readerOwnerKeyPrefix
                        ++ String "/" (MetricsReader.readerOwnerKeySuffix ++ tail))%string).
    { rewrite !append_assoc. reflexivity. }
    rewrite Hkey.
    replace (String.length (MetricsReader.readerOwnerKeyPrefix
                              ++ String "/" (MetricsReader.readerOwnerKeySuffix ++ tail))
             <? String.length MetricsReader.readerOwnerKeyPrefix)%nat with false
      by (symmetry; apply Nat.ltb_ge; rewrite length_append; lia).
    rewrite sliceFrom_app.
    change (negb (Ascii.eqb "/" "/")) with false. cbv iota.
    now rewrite prefix_app.
  - change (0 <? String.length (String z zone))%nat with true. cbv iota.
    set (key := (String z zone ++ "/" ++ MetricsReader.readerOwnerKeySuffix ++ tail)%string).
    assert (Hkey : ((MetricsReader.readerOwnerKeyPrefix ++ "/" ++ String z zone ++ "/"
                       ++ MetricsReader.readerOwnerKeySuffix) ++ tail)%string
                   = (MetricsReader.readerOwnerKeyPrefix ++ String "/" key)%string).
    { unfold key. rewrite !append_assoc. reflexivity. }
    rewrite Hkey.
    replace (String.length (MetricsReader.readerOwnerKeyPrefix ++ String "/" key)
             <? String.length MetricsReader.readerOwnerKeyPrefix)%nat with false
      by (symmetry; apply Nat.ltb_ge; rewrite length_append; lia).
    rewrite sliceFrom_app.
    change (negb (Ascii.eqb "/" "/")) with false. cbv iota.
    assert (Hnot : String.prefix MetricsReader.readerOwnerKeySuffix key = false).
    { unfold key.
      change ("/" ++ MetricsReader.readerOwnerKeySuffix ++ tail)%string
        with (String "/" (MetricsReader.readerOwnerKeySuffix ++ tail)).
      rewrite prefix_before_slash by reflexivity. exact Hword. }
    rewrite Hnot.
    assert (Hidx : String.index 0 "/" key = Some (String.length (String z zone))).
    { unfold key. apply (index_slash_app (String z zone)). exact Hslash. }
    rewrite Hidx.
    assert (Hrest : MetricsReader.sliceFrom (String.length (String z zone) + 1) key
                    = (MetricsReader.readerOwnerKeySuffix ++ tail)%string).
    { unfold key. apply (sliceFrom_app_slash (String z zone)). }
    rewrite Hrest.
    assert (Hzone : String.substring 0 (String.length (String z zone)) key = String z zone).
    { unfold key. apply substring_app_l. }
    rewrite Hzone, prefix_app. reflexivity.
Qed.

Lemma classify_electionKey_witness :
  MetricsReader.noSlash "east" = true
  /\ String.prefix MetricsReader.readerOwnerKeySuffix "east" = false
  /\ MetricsReader.electionKey "east" = "/tiproxy/metric_reader/east/owner"%string
  /\ MetricsReader.classify "/tiproxy/metric_reader/east/owner/3f2a"
     = MetricsReader.KeyOf "east".
Proof.
  split; [reflexivity |]. split; [reflexivity |]. split; [reflexivity |].
  exact (classify_electionKey "east" "/3f2a" eq_refl eq_refl).
Defined.

Section OwnerElection.
Import MetricsReader.

Lemma classify_panics (fullKey : string) :
  (String.length readerOwnerKeyPrefix <= String.length fullKey)%nat ->
  classify fullKey <> KeyPanics.
Proof.
  intros Hlen. unfold classify.
  replace (String.length fullKey <? String.length readerOwnerKeyPrefix)%nat with false
    by (symmetry; apply Nat.ltb_ge; exact Hlen).
  destruct (sliceFrom _ fullKey) as [| c key]; [discriminate |].
  destruct (negb (Ascii.eqb c "/")); [discriminate |].
  destruct (String.prefix readerOwnerKeySuffix key); [discriminate |].
  destruct (String.index 0 "/" key) as [endIdx |]; [| discriminate].
  destruct ((0 <? endIdx)%nat && _); discriminate.
Qed.

Lemma ownerMapOf_snoc (kvs : list KeyValue) (kv : KeyValue) :
  ownerMapOf (kvs ++ [kv])
  = ownerMap ← ownerMapOf kvs;
    match classify (Key kv) with
    | KeyPanics => None
    | KeySkipped => Some ownerMap
    | KeyOf zone =>
        let info := {| addr := kvValue kv; revision := CreateRevision kv |} in
        match ownerMap !! zone with
        | Some old =>
            if CreateRevision kv <? revision old
            then Some (<[zone := info]> ownerMap)
            else Some ownerMap
        | None => Some (<[zone := info]> ownerMap)
        end
    end.
Proof. unfold ownerMapOf. now rewrite foldl_app. Qed.

Lemma ownerMapOf_least (kvs : list KeyValue) :
  (forall kv, In kv kvs ->
     (String.length readerOwnerKeyPrefix <= String.length (Key kv))%nat) ->
  exists ownerMap, ownerMapOf kvs = Some ownerMap
                   /\ forall zone, leastOf kvs ownerMap zone.
Proof.
  induction kvs as [| x l IH] using rev_ind; intros Hlen.
  - exists ∅. split; [reflexivity |]. intros zone. unfold leastOf.
    rewrite lookup_empty. intros kv [].
  - destruct IH as (m & Hm & Hleast).
    { intros kv Hin. apply Hlen, in_or_app. now left. }
    rewrite ownerMapOf_snoc, Hm. cbn [mbind option_bind].
    assert (Hnp : classify (Key x) <> KeyPanics).
    { apply classify_panics, Hlen, in_or_app. right. now left. }
    destruct (classify (Key x)) as [| | z] eqn:Hx; [contradiction | |].
    + exists m. split; [reflexivity |]. intros zone. specialize (Hleast zone).
      unfold leastOf in *. destruct (m !! zone) as [info |].
      * destruct Hleast as (kv & Hin & Hc & Ha & Hr & Hmin).
        exists kv. repeat split; try assumption; [apply in_or_app; now left |].
        intros kv' Hin' Hc'. apply in_app_or in Hin' as [Hin' | [<- | []]];
          [now apply Hmin | congruence].
      * intros kv Hin. apply in_app_or in Hin as [Hin | [<- | []]];
          [now apply Hleast | congruence].
    + assert (Hother : forall (m' : gmap string ownerInfo) zone,
                 zone <> z -> m' !! zone = m !! zone -> leastOf (l ++ [x]) m' zone).
      { intros m' zone Hne Heq. specialize (Hleast zone). unfold leastOf in *.
        rewrite Heq. destruct (m !! zone) as [info |].
        - destruct Hleast as (kv & Hin & Hc & Ha & Hr & Hmin).
          exists kv. repeat split; try assumption; [apply in_or_app; now left |].
          intros kv' Hin' Hc'. apply in_app_or in Hin' as [Hin' | [<- | []]];
            [now apply Hmin | congruence].
        - intros kv Hin. apply in_app_or in Hin as [Hin | [<- | []]];
            [now apply Hleast | congruence]. }
      pose proof (Hleast z) as Hz. unfold leastOf in Hz.
      destruct (m !! z) as [old |] eqn:Hold.
      * destruct Hz as (kv & Hin & Hc & Ha & Hr & Hmin).
        destruct (Z.ltb_spec (CreateRevision x) (revision old)) as [Hlt | Hge].
        { eexists. split; [reflexivity |]. intros zone.
          destruct (decide (zone = z)) as [-> | Hne];
            [| apply Hother; [exact Hne | now rewrite lookup_insert_ne]].
          unfold leastOf. rewrite lookup_insert_eq.
          exists x. cbn. repeat split; try assumption;
            [apply in_or_app; right; now left |].
          intros kv' Hin' Hc'. apply in_app_or in Hin' as [Hin' | [<- | []]]; [| lia].
          specialize (Hmin kv' Hin' Hc'). lia. }
        { exists m. split; [reflexivity |]. intros zone.
          destruct (decide (zone = z)) as [-> | Hne]; [| now apply Hother].
          unfold leastOf. rewrite Hold.
          exists kv. repeat split; try assumption; [apply in_or_app; now left |].
          intros kv' Hin' Hc'. apply in_app_or in Hin' as [Hin' | [<- | []]];
            [now apply Hmin | lia]. }
      * eexists. split; [reflexivity |]. intros zone.
        destruct (decide (zone = z)) as [-> | Hne];
          [| apply Hother; [exact Hne | now rewrite lookup_insert_ne]].
        unfold leastOf. rewrite lookup_insert_eq.
        exists x. cbn. repeat split; try assumption;
          [apply in_or_app; right; now left |].
        intros kv' Hin' Hc'. apply in_app_or in Hin' as [Hin' | [<- | []]]; [| lia].
        now destruct (Hz kv' Hin').
Qed.

End OwnerElection.

(** X24.  Among the keys of the prefix query, which are at least as long
    as the prefix, the loop of [queryAllOwners] does not panic and records
    for every zone that has a key the address and revision of a key of the
    zone with the least create revision, and nothing for a zone without a
    key. *)
Theorem queryAllOwners_least_revision (kvs : list MetricsReader.KeyValue) :
  (forall kv, In kv kvs ->
     (String.length MetricsReader.readerOwnerKeyPrefix
      <= String.length (MetricsReader.Key kv))%nat) ->
  exists ownerMap,
    MetricsReader.ownerMapOf kvs = Some ownerMap
    /\ forall zone, MetricsReader.leastOf kvs ownerMap zone.
Proof.
  intros Hlen. destruct (ownerMapOf_least kvs Hlen) as (ownerMap & Hm & Hleast).
  exists ownerMap. split; [exact Hm | exact Hleast].
Qed.

Lemma queryAllOwners_least_revision_witness :
  (forall kv, In kv MetricsScenario.ownerKeys ->
     (String.length MetricsReader.readerOwnerKeyPrefix
      <= String.length (MetricsReader.Key kv))%nat)
  /\ exists ownerMap,
       MetricsReader.ownerMapOf MetricsScenario.ownerKeys = Some ownerMap
       /\ MetricsReader.leastOf MetricsScenario.ownerKeys ownerMap "east"
       /\ (MetricsReader.addr <$> ownerMap !! "east"%string) = Some "10.0.0.1:3080"%string
       /\ (MetricsReader.addr <$> ownerMap !! ""%string) = Some "10.0.0.3:3080"%string.
Proof.
  assert (Hlen : forall kv, In kv MetricsScenario.ownerKeys ->
            (String.length MetricsReader.readerOwnerKeyPrefix
             <= String.length (MetricsReader.Key kv))%nat).
  { intros kv [<- | [<- | [<- | [<- | []]]]]; cbn; lia. }
  split; [exact Hlen |].
  destruct (queryAllOwners_least_revision MetricsScenario.ownerKeys Hlen)
    as (ownerMap & Hm & Hleast).
  exists ownerMap. split; [exact Hm |]. split; [exact (Hleast "east"%string) |].
  vm_compute in Hm. inversion Hm. split; reflexivity.
Defined.

Section OwnerZones.
Import MetricsReader.

Lemma zonesAndOwners_spec (visit : list (string * ownerInfo)) :
  forall zones0 owners0 : list string,
  NoDup zones0 -> NoDup owners0 ->
  let result :=
    foldl (fun '(zones, owners) '(zone, info) =>
             let zones' := if (0 <? String.length zone)%nat
                              && negb (bool_decide (zone ∈ zones))
                           then zones ++ [zone] else zones in
             let owners' := if negb (bool_decide (addr info ∈ owners))
                            then owners ++ [addr info] else owners in
             (zones', owners'))
          (zones0, owners0) visit in
  NoDup (fst result) /\ NoDup (snd result)
  /\ (forall z, z ∈ fst result
                <-> z ∈ zones0 \/ (z <> ""%string /\ exists info, (z, info) ∈ visit))
  /\ (forall a, a ∈ snd result
                <-> a ∈ owners0 \/ exists zone info, (zone, info) ∈ visit /\ addr info = a).
Proof.
  induction visit as [| [zone info] visit IH]; intros zones0 owners0 Hz Ho; cbn [foldl].
  - cbn. split; [exact Hz |]. split; [exact Ho |]. split.
    + intros z. split; [now left |].
      intros [Hin | (_ & info & Hin)]; [exact Hin | now apply elem_of_nil in Hin].
    + intros a. split; [now left |].
      intros [Hin | (z & info & Hin & _)]; [exact Hin | now apply elem_of_nil in Hin].
  - set (zones1 := if (0 <? String.length zone)%nat && negb (bool_decide (zone ∈ zones0))
                   then zones0 ++ [zone] else zones0).
    set (owners1 := if negb (bool_decide (addr info ∈ owners0))
                    then owners0 ++ [addr info] else owners0).
    assert (Hz1 : NoDup zones1
                  /\ forall z, z ∈ zones1 <-> z ∈ zones0 \/ (z <> ""%string /\ z = zone)).
    { unfold zones1. destruct zone as [| c zone]; cbn [String.length Nat.ltb Nat.leb andb].
      - split; [exact Hz |]. intros z. split; [now left |].
        intros [Hin | [Hne ->]]; [exact Hin | contradiction].
      - destruct (bool_decide_reflect (String c zone ∈ zones0)) as [Hin | Hnin]; cbn [negb].
        + split; [exact Hz |]. intros z. split; [now left |].
          intros [Hin' | [_ ->]]; assumption.
        + split.
          * apply NoDup_app. split; [exact Hz |]. split; [| apply NoDup_singleton].
            intros x Hx Hx'. apply list_elem_of_singleton in Hx'. now subst.
          * intros z. rewrite elem_of_app, list_elem_of_singleton.
            split; [intros [Hin | ->]; [now left | right; split; [discriminate | reflexivity]]
                   | intros [Hin | [_ ->]]; [now left | now right]]. }
    assert (Ho1 : NoDup owners1
                  /\ forall a, a ∈ owners1 <-> a ∈ owners0 \/ a = addr info).
    { unfold owners1.
      destruct (bool_decide_reflect (addr info ∈ owners0)) as [Hin | Hnin]; cbn [negb].
      - split; [exact Ho |]. intros a. split; [now left |].
        intros [Hin' | ->]; assumption.
      - split.
        + apply NoDup_app. split; [exact Ho |]. split; [| apply NoDup_singleton].
          intros x Hx Hx'. apply list_elem_of_singleton in Hx'. now subst.
        + intros a. rewrite elem_of_app, list_elem_of_singleton. reflexivity. }
    destruct Hz1 as [Hnd1 Hin1]. destruct Ho1 as [Hndo1 Hino1].
    destruct (IH zones1 owners1 Hnd1 Hndo1) as (Hr1 & Hr2 & Hr3 & Hr4).
    split; [exact Hr1 |]. split; [exact Hr2 |]. split.
    + intros z. rewrite Hr3, Hin1. split.
      * intros [[Hin | [Hne ->]] | (Hne & i & Hin)]; [now left | |].
        { right. split; [exact Hne |]. exists info. apply elem_of_cons. now left. }
        { right. split; [exact Hne |]. exists i. apply elem_of_cons. now right. }
      * intros [Hin | (Hne & i & Hin)]; [now left; left |].
        apply elem_of_cons in Hin as [Heq | Hin].
        { inversion Heq; subst. left. right. now split. }
        { right. split; [exact Hne |]. now exists i. }
    + intros a. rewrite Hr4, Hino1. split.
      * intros [[Hin | ->] | (z & i & Hin & Ha)]; [now left | |].
        { right. exists zone, info. split; [apply elem_of_cons; now left | reflexivity]. }
        { right. exists z, i. split; [apply elem_of_cons; now right | exact Ha]. }
      * intros [Hin | (z & i & Hin & Ha)]; [now left; left |].
        apply elem_of_cons in Hin as [Heq | Hin].
        { inversion Heq; subst. left. now right. }
        { right. now exists z, i. }
Qed.

Lemma slicesIndex_spec (l : list string) (x : string) :
  forall i,
  (slicesIndex l x i = -1 /\ x ∉ l)
  \/ (exists pre post, l = pre ++ x :: post /\ (x ∉ pre)
                       /\ slicesIndex l x i = i + Z.of_nat (length pre)).
Proof.
  induction l as [| y l IH]; intros i; cbn [slicesIndex].
  - left. split; [reflexivity | apply not_elem_of_nil].
  - destruct (String.eqb_spec y x) as [-> | Hne].
    + right. exists [], l. cbn. repeat split; [apply not_elem_of_nil | lia].
    + destruct (IH (i + 1)) as [[Hidx Hnin] | (pre & post & -> & Hpre & Hidx)].
      * left. split; [exact Hidx |]. intros Hin.
        apply elem_of_cons in Hin as [Heq | Hin]; [now symmetry in Heq | contradiction].
      * right. exists (y :: pre), post. cbn [app length]. repeat split.
        { intros Hin. apply elem_of_cons in Hin as [Heq | Hin];
            [now symmetry in Heq | contradiction]. }
        { lia. }
Qed.

Lemma excludeZonesOf_spec (zones : list string) (zone : string) :
  NoDup zones ->
  forall x, x ∈ excludeZonesOf zones zone <-> x ∈ zones /\ x <> zone.
Proof.
  intros Hnd x. unfold excludeZonesOf.
  destruct (slicesIndex_spec zones zone 0) as [[-> Hnin] | (pre & post & -> & Hpre & ->)].
  - cbn. split; [| now intros [Hin _]].
    intros Hin. split; [exact Hin |]. intros ->. contradiction.
  - replace (0 <=? 0 + Z.of_nat (length pre)) with true by (symmetry; apply Z.leb_le; lia).
    rewrite Z.add_0_l, Nat2Z.id.
    rewrite take_app_length.
    replace (length pre + 1)%nat with (length (pre ++ [zone]))
      by (rewrite length_app; reflexivity).
    replace (pre ++ zone :: post) with ((pre ++ [zone]) ++ post) in *
      by (now rewrite <- app_assoc).
    rewrite drop_app_length.
    apply NoDup_app in Hnd as (Hnd1 & Hdisj & Hnd2).
    rewrite !elem_of_app, list_elem_of_singleton. split.
    + intros [Hin | Hin].
      * split; [now left; left |]. intros ->. contradiction.
      * split; [now right |]. intros ->. apply (Hdisj zone); [| exact Hin].
        apply elem_of_app. right. now apply list_elem_of_singleton.
    + intros [[[Hin | ->] | Hin] Hne]; [now left | contradiction | now right].
Qed.

Lemma getBackendAddrs_spec (excludeZones : list string) (backends : list (string * string))
    (address : string) :
  In address (getBackendAddrs excludeZones backends)
  <-> exists z, In (z, address) backends /\ z ∉ excludeZones.
Proof.
  unfold getBackendAddrs. rewrite in_flat_map. split.
  - intros ([z a] & Hin & Ha).
    destruct excludeZones as [| e es] eqn:E; cbn [length Nat.ltb Nat.leb andb] in Ha.
    + destruct Ha as [<- | []]. exists z. split; [exact Hin | apply not_elem_of_nil].
    + destruct (bool_decide_reflect (z ∈ e :: es)) as [Hex | Hnex]; [destruct Ha |].
      destruct Ha as [<- | []]. exists z. now split.
  - intros (z & Hin & Hnex). exists (z, address). split; [exact Hin |].
    destruct ((0 <? length excludeZones)%nat); cbn [andb]; [| now left].
    destruct (bool_decide_reflect (z ∈ excludeZones)); [contradiction | now left].
Qed.

End OwnerZones.

(** X25.  The owners and zones [queryAllOwners] returns, in whatever
    order the owner map is visited: the zones are the zones of the map
    other than the empty one, each once; the owners are the addresses of
    the map, each once; and [ReadMetrics] reads from all of them but the
    reader itself. *)
Theorem zonesAndOwners_exact (ownerMap : gmap string MetricsReader.ownerInfo)
    (visit : list (string * MetricsReader.ownerInfo)) (self : string) :
  visit ≡ₚ map_to_list ownerMap ->
  let zones := fst (MetricsReader.zonesAndOwners visit) in
  let owners := snd (MetricsReader.zonesAndOwners visit) in
  NoDup zones /\ NoDup owners
  /\ (forall z, z ∈ zones <-> z <> ""%string /\ is_Some (ownerMap !! z))
  /\ (forall a, a ∈ owners
                <-> exists zone info, ownerMap !! zone = Some info
                                      /\ MetricsReader.addr info = a)
  /\ (forall a, In a (MetricsReader.ownersToRead owners self) <-> a ∈ owners /\ a <> self).
Proof.
  intros Hperm zones owners. subst zones owners. unfold MetricsReader.zonesAndOwners.
  destruct (zonesAndOwners_spec visit [] [] NoDup_nil_2 NoDup_nil_2)
    as (Hz & Ho & Hzin & Hoin).
  cbv zeta in Hz, Ho, Hzin, Hoin.
  split; [exact Hz |]. split; [exact Ho |]. split; [| split].
  - intros z. rewrite Hzin. split.
    + intros [Hin | (Hne & info & Hin)]; [now apply elem_of_nil in Hin |].
      split; [exact Hne |]. exists info. apply elem_of_map_to_list. now rewrite <- Hperm.
    + intros (Hne & info & Hl). right. split; [exact Hne |]. exists info.
      rewrite Hperm. now apply elem_of_map_to_list.
  - intros a. rewrite Hoin. split.
    + intros [Hin | (z & info & Hin & Ha)]; [now apply elem_of_nil in Hin |].
      exists z, info. split; [| exact Ha]. apply elem_of_map_to_list. now rewrite <- Hperm.
    + intros (z & info & Hl & Ha). right. exists z, info. split; [| exact Ha].
      rewrite Hperm. now apply elem_of_map_to_list.
  - intros a. unfold MetricsReader.ownersToRead. rewrite List.filter_In, list_elem_of_In.
    rewrite negb_true_iff. split.
    + intros [Hin Hne]. split; [exact Hin |]. intros ->. now rewrite String.eqb_refl in Hne.
    + intros [Hin Hne]. split; [exact Hin |]. now apply String.eqb_neq.
Qed.

Lemma zonesAndOwners_exact_witness :
  let ownerMap := default ∅ (MetricsReader.ownerMapOf MetricsScenario.ownerKeys) in
  let visit := map_to_list ownerMap in
  visit ≡ₚ map_to_list ownerMap
  /\ fst (MetricsReader.zonesAndOwners visit) = ["east"%string]
  /\ length (snd (MetricsReader.zonesAndOwners visit)) = 2%nat
  /\ NoDup (snd (MetricsReader.zonesAndOwners visit))
  /\ MetricsReader.ownersToRead (snd (MetricsReader.zonesAndOwners visit)) "10.0.0.1:3080"
     = ["10.0.0.3:3080"%string].
Proof.
  intros ownerMap visit. split; [reflexivity |]. split; [vm_compute; reflexivity |].
  split; [vm_compute; reflexivity |].
  split; [| vm_compute; reflexivity].
  exact (proj1 (proj2 (zonesAndOwners_exact ownerMap visit "10.0.0.1:3080"
                         (reflexivity _)))).
Defined.

(** X26.  The backends an owner reads.  With the zones [queryAllOwners]
    returns for an owner map, an owner of the zone [zone] reads a backend
    exactly when the location label of the backend is its own zone, is
    empty, or is a zone that has no owner; it reads no backend of the zone
    of another owner. *)
Theorem owner_reads_unowned_backends (ownerMap : gmap string MetricsReader.ownerInfo)
    (visit : list (string * MetricsReader.ownerInfo)) (zone : string)
    (backends : list (string * string)) (address : string) :
  visit ≡ₚ map_to_list ownerMap ->
  let zones := fst (MetricsReader.zonesAndOwners visit) in
  In address (MetricsReader.getBackendAddrs (MetricsReader.excludeZonesOf zones zone)
                backends)
  <-> exists z, In (z, address) backends
                /\ (z = zone \/ z = ""%string \/ ownerMap !! z = None).
Proof.
  intros Hperm zones.
  destruct (zonesAndOwners_exact ownerMap visit ""%string Hperm) as (Hnd & _ & Hzones & _).
  fold zones in Hnd, Hzones.
  rewrite getBackendAddrs_spec. split.
  - intros (z & Hin & Hnex). exists z. split; [exact Hin |].
    rewrite (excludeZonesOf_spec zones zone Hnd) in Hnex.
    destruct (decide (z = zone)) as [-> | Hne]; [now left |]. right.
    destruct (decide (z = ""%string)) as [-> | Hnz]; [now left |]. right.
    destruct (ownerMap !! z) as [info |] eqn:E; [| reflexivity].
    exfalso. apply Hnex. split; [| exact Hne]. apply Hzones. split; [exact Hnz | eauto].
  - intros (z & Hin & Hz). exists z. split; [exact Hin |].
    rewrite (excludeZonesOf_spec zones zone Hnd). intros [Hzin Hne].
    apply Hzones in Hzin as [Hnz [info Hl]].
    destruct Hz as [-> | [-> | Hnone]]; [contradiction | contradiction | congruence].
Qed.

Lemma owner_reads_unowned_backends_witness :
  let ownerMap := default ∅ (MetricsReader.ownerMapOf MetricsScenario.ownerKeys) in
  let visit := map_to_list ownerMap in
  let zones := fst (MetricsReader.zonesAndOwners visit) in
  visit ≡ₚ map_to_list ownerMap
  /\ MetricsReader.getBackendAddrs (MetricsReader.excludeZonesOf zones "") 
       MetricsScenario.topology
     = ["10.1.0.2:10080"; "10.1.0.3:10080"; "10.1.0.4:10080"]%string
  /\ In "10.1.0.1:10080"%string
        (MetricsReader.getBackendAddrs (MetricsReader.excludeZonesOf zones "east")
           MetricsScenario.topology).
Proof.
  intros ownerMap visit zones. split; [reflexivity |]. split; [vm_compute; reflexivity |].
  apply (proj2 (owner_reads_unowned_backends ownerMap visit "east" MetricsScenario.topology
                  "10.1.0.1:10080" (reflexivity _))).
  exists "east"%string. split; [now left | now left].
Defined.

(* ===================================================================== *)
(** * From a scrape to the result of a query                               *)
(* ===================================================================== *)

Section Publish.
Import MetricsReader.
Context {MetricFamily : Type}.

Lemma In_replaceOrAppend {A} (metric : A -> Metric) (backend : string) (v0 : A)
    (l : list A) :
  In v0 (replaceOrAppend metric backend v0 l).
Proof.
  induction l as [| v l IH]; cbn [replaceOrAppend]; [now left |].
  destruct (String.eqb (label (metric v) LabelNameInstance) backend); [now left | now right].
Qed.

(** The entry [metric2History] writes when the metrics of the rule are
    there and both values are numbers. *)
Lemma metric2History_recorded (now : Z) (mfs : gmap string MetricFamily)
    (backend : string) (br : BackendReader MetricFamily) (ruleKey : string)
    (rule : QueryRule MetricFamily) :
  queryRules br !! ruleKey = Some rule ->
  forallb (fun name => bool_decide (is_Some (mfs !! name))) (Names rule) = true ->
  let old := default noHistory (history br !! ruleKey ≫= (.!! backend)) in
  let step1 := Step1History old
                 ++ [{| Timestamp := now; pValue := Metric2Value rule mfs |}] in
  isNaN (Metric2Value rule mfs) = false ->
  isNaN (Range2Value rule step1) = false ->
  exists ruleHistory,
    history (metric2History now mfs backend br) !! ruleKey = Some ruleHistory
    /\ ruleHistory !! backend
       = Some {| Step1History := step1;
                 Step2History := Step2History old
                   ++ [{| Timestamp := now; pValue := Range2Value rule step1 |}] |}.
Proof.
  intros Hrule Hnames old step1 Hv1 Hv2. subst old step1.
  rewrite metric2History_lookup, Hrule. unfold recordRule. rewrite Hnames, Hv1.
  destruct (history br !! ruleKey) as [rh |]; cbn [default from_option id mbind option_bind]
    in *.
  - rewrite Hv2. eexists. split; [reflexivity |]. apply lookup_insert_eq.
  - rewrite lookup_empty in *. cbn [default from_option id] in *.
    rewrite Hv2. eexists. split; [reflexivity |]. apply lookup_insert_eq.
Qed.

End Publish.

(** X27.  From a scrape to the answer of a query.  When a rule of vector
    type has all its metrics in the scrape of a backend and its two values
    are numbers, and the stored results have the types of their rules, then
    after the scrape [GetQueryResult] for the rule returns a vector with an
    element of that backend that carries the second value and the instant
    of the scrape, and the update time is the time of the merge. *)
Theorem scrape_publishes_value {MetricFamily : Type} (now mono : Z)
    (mfs : gmap string MetricFamily) (address : string)
    (br br' : MetricsReader.BackendReader MetricFamily) (ruleKey : string)
    (rule : MetricsReader.QueryRule MetricFamily) :
  MetricsReader.queryRules br !! ruleKey = Some rule ->
  MetricsReader.ResultType rule = MetricsReader.ValVector ->
  forallb (fun name => bool_decide (is_Some (mfs !! name))) (MetricsReader.Names rule)
  = true ->
  let t := Z.quot now 1000000 in
  let old := default MetricsReader.noHistory
                     (MetricsReader.history br !! ruleKey ≫= (.!! address)) in
  let v1 := MetricsReader.Metric2Value rule mfs in
  let v2 := MetricsReader.Range2Value rule
              (MetricsReader.Step1History old
                 ++ [{| MetricsReader.Timestamp := t; MetricsReader.pValue := v1 |}]) in
  MetricsReader.isNaN v1 = false ->
  MetricsReader.isNaN v2 = false ->
  MetricsReader.resultsTyped br ->
  MetricsReader.scrapeBackend now mono mfs address br = Some br' ->
  exists vec,
    MetricsReader.qValue (fst (MetricsReader.GetQueryResult ruleKey br'))
    = Some (MetricsReader.Vector vec)
    /\ MetricsReader.UpdateTime (fst (MetricsReader.GetQueryResult ruleKey br')) = mono
    /\ In {| MetricsReader.sMetric := {[ MetricsReader.LabelNameInstance := address ]};
             MetricsReader.sValue := v2;
             MetricsReader.sTimestamp := t |} vec.
Proof.
  intros Hrule Htype Hnames t old v1 v2 Hv1 Hv2 Htyped Hs.
  unfold MetricsReader.scrapeBackend in Hs. fold t in Hs.
  destruct (metric2History_recorded t mfs address br ruleKey rule Hrule Hnames Hv1 Hv2)
    as (rh & Hrh & Hentry).
  fold old in Hentry. fold v1 in Hentry. fold v2 in Hentry.
  set (br1 := MetricsReader.metric2History t mfs address br) in *.
  assert (Hvalue : MetricsReader.history2Value address br1 !! ruleKey
                   = Some (MetricsReader.Vector
                             [{| MetricsReader.sMetric :=
                                   {[ MetricsReader.LabelNameInstance := address ]};
                                 MetricsReader.sValue := v2;
                                 MetricsReader.sTimestamp := t |}])).
  { unfold MetricsReader.history2Value. rewrite map_lookup_imap.
    change (MetricsReader.queryRules br1) with (MetricsReader.queryRules br).
    rewrite Hrule. cbn [mbind option_bind]. rewrite Hrh. cbn [default from_option id].
    destruct (size rh =? 0)%nat eqn:Hsize.
    { apply Nat.eqb_eq, map_size_empty_iff in Hsize. subst rh.
      now rewrite lookup_empty in Hentry. }
    rewrite Hentry. cbn [default from_option id MetricsReader.Step2History].
    rewrite last_snoc, Htype. reflexivity. }
  pose proof (mergeQueryResult_lookup mono _ address br1 br' Hs ruleKey) as Hk.
  rewrite Hvalue in Hk. destruct Hk as (result' & Hmv & Hres).
  unfold MetricsReader.GetQueryResult. cbn [fst]. rewrite Hres.
  cbn [default from_option id].
  change (MetricsReader.queryResults br1) with (MetricsReader.queryResults br) in Hmv.
  unfold MetricsReader.mergeValue in Hmv.
  destruct (MetricsReader.queryResults br !! ruleKey) as [stored |] eqn:Hstored;
    cbn [default from_option id] in Hmv.
  - destruct (MetricsReader.qValue stored) as [[vec | mat | y ty | y ty] |] eqn:Hq.
    + inversion Hmv; subst result'. cbn. rewrite merged_slice.
      eexists. split; [reflexivity |]. split; [reflexivity |]. apply In_replaceOrAppend.
    + discriminate Hmv.
    + pose proof (Htyped _ _ _ _ Hrule Hstored Hq) as Ht. rewrite Htype in Ht.
      discriminate Ht.
    + pose proof (Htyped _ _ _ _ Hrule Hstored Hq) as Ht. rewrite Htype in Ht.
      discriminate Ht.
    + inversion Hmv; subst result'. cbn.
      eexists. split; [reflexivity |]. split; [reflexivity |]. now left.
  - cbn in Hmv. inversion Hmv; subst result'. cbn.
    eexists. split; [reflexivity |]. split; [reflexivity |]. now left.
Qed.

Lemma scrape_publishes_value_witness :
  let br := MetricsScenario.owner in
  MetricsReader.resultsTyped br
  /\ exists br' vec,
       MetricsReader.scrapeBackend 16000000000 2 (MetricsScenario.metrics 7) "b2" br
       = Some br'
       /\ MetricsReader.qValue (fst (MetricsReader.GetQueryResult "R" br'))
          = Some (MetricsReader.Vector vec)
       /\ In {| MetricsReader.sMetric :=
                  {[ MetricsReader.LabelNameInstance := "b2"%string ]};
                MetricsReader.sValue := F64.of_Z 7;
                MetricsReader.sTimestamp := 16000 |} vec.
Proof.
  intros br.
  assert (Htyped : MetricsReader.resultsTyped br).
  { intros ruleKey rule result value _ Hres. cbn in Hres.
    now rewrite lookup_empty in Hres. }
  split; [exact Htyped |].
  destruct (MetricsReader.scrapeBackend 16000000000 2 (MetricsScenario.metrics 7) "b2" br)
    as [br' |] eqn:Hs; [| vm_compute in Hs; discriminate Hs].
  destruct (scrape_publishes_value 16000000000 2 (MetricsScenario.metrics 7) "b2" br br'
              "R" MetricsScenario.ruleR eq_refl eq_refl eq_refl eq_refl eq_refl Htyped Hs)
    as (vec & Hq & _ & Hin).
  exists br', vec. split; [reflexivity |]. split; [exact Hq | exact Hin].
Defined.

(* ===================================================================== *)
(** * From the start of a replay to its connections                        *)
(* ===================================================================== *)

Section Credentials.
Import Replay.

(** The creator [Start] installs when the test hook is not set makes, for
    every id, a connection with the credentials of the configuration. *)
Lemma Start_creator (fs : FileSystem) (now : Time.Time) (readMeta : Z)
    (reportStart : option error) (cfg0 : ReplayConfig) (r r1 : replay)
    (evs : list event) :
  connCreator cfg0 = None ->
  Start fs now readMeta reportStart cfg0 r = (None, r1, evs) ->
  conns r1 = ∅
  /\ forall id, creator r1 id
                = Some {| connID := id; username := Username cfg0;
                          password := Password cfg0 |}.
Proof.
  intros Hhook. unfold Start.
  destruct (Validate fs cfg0) as [[e |] cfg1] eqn:Hv; [discriminate |].
  assert (Hcfg : Username cfg1 = Username cfg0 /\ Password cfg1 = Password cfg0
                 /\ connCreator cfg1 = connCreator cfg0).
  { unfold Validate in Hv.
    destruct (String.eqb (Input cfg0) ""); [discriminate |].
    destruct (fs (Input cfg0)) as [[|] |]; cbn [negb] in Hv; try discriminate.
    destruct (String.eqb (Username cfg0) ""); [discriminate |].
    destruct (F64.eqb (Speed cfg0) F64.zero).
    - inversion Hv; subst cfg1. now repeat split.
    - destruct (F64.ltb (Speed cfg0) minSpeed || F64.gtb (Speed cfg0) maxSpeed);
        [discriminate |].
      inversion Hv; subst cfg1. now repeat split. }
  destruct Hcfg as (Hu & Hp & Hc).
  destruct reportStart as [e |]; [discriminate |].
  intros Heq. inversion Heq; subst r1 evs. cbn [conns creator].
  split; [reflexivity |]. intros id. rewrite Hc, Hhook. unfold defaultCreator.
  now rewrite Hu, Hp.
Qed.

End Credentials.

(** X28.  The replay logs in as the configured user only: in a replay
    started without the test hook, every connection the pacer creates, for
    whatever command, is made for the connection id of the command with the
    [Username] and [Password] of the configuration, and none is nil. *)
Theorem replay_uses_configured_user (fs : Replay.FileSystem) (startAt : Time.Time)
    (readMeta : Z) (cfg0 : Replay.ReplayConfig) (r r1 r' : Replay.replay)
    (evs0 evs : list Replay.event) (undef : Z) (cancelAt : option Time.Time)
    (final : Replay.error) (input : list (Time.Duration * Replay.Command))
    (now : Time.Time) :
  Replay.connCreator cfg0 = None ->
  Replay.Start fs startAt readMeta None cfg0 r = (None, r1, evs0) ->
  Replay.readCommands undef cancelAt final input now r1 = (r', evs) ->
  forall id v, In (Replay.EvCreate id v) evs ->
    v = Some {| Replay.connID := id; Replay.username := Replay.Username cfg0;
                Replay.password := Replay.Password cfg0 |}
    /\ exists c, In c (map snd input) /\ Replay.ConnID c = id.
Proof.
  intros Hhook Hstart Hrun id v Hin.
  destruct (Start_creator fs startAt readMeta None cfg0 r r1 evs0 Hhook Hstart)
    as [_ Hcreator].
  unfold Replay.readCommands in Hrun.
  destruct (readLoop_filters undef cancelAt final input _ now r1 r' evs Hrun)
    as (_ & Hcreated & _).
  destruct (Hcreated id v Hin) as (Hv & c & Hc & _ & Hid).
  split; [now rewrite Hv, Hcreator | now exists c].
Qed.

Lemma replay_uses_configured_user_witness :
  let cfg0 := Scenario.config F64.one in
  let r1 := Scenario.started F64.one 1 3 in
  let run := Replay.readCommands 0 None Replay.errEOF Scenario.pacedInput 777 r1 in
  Replay.connCreator cfg0 = None
  /\ Replay.created (snd run)
     = [(1%N, Some {| Replay.connID := 1; Replay.username := "u1";
                      Replay.password := "p1" |});
        (2%N, Some {| Replay.connID := 2; Replay.username := "u1";
                      Replay.password := "p1" |})]
  /\ forall id v, In (Replay.EvCreate id v) (snd run) ->
       v = Some {| Replay.connID := id; Replay.username := "u1";
                   Replay.password := "p1" |}.
Proof.
  intros cfg0 r1 run. split; [reflexivity |]. split; [vm_compute; reflexivity |].
  intros id v Hin.
  exact (proj1 (replay_uses_configured_user Scenario.fs 1 3 cfg0 Replay.NewReplay r1
                  (fst run) [Replay.EvSpawnPacer; Replay.EvSpawnCloseDrain] (snd run)
                  0 None Replay.errEOF Scenario.pacedInput 777
                  eq_refl eq_refl (surjective_pairing run) id v Hin)).
Defined.
